(** * peek: the terminal directory browser of [src/peek.c]

    A shallow embedding of the rendering and navigation engine of peek:
    the cursor-position parser [get_cursor_pos], the directory change [cd],
    the renderer [display], the scoped terminal restoration
    [restore_tcattr] and one pass of the keystroke loop of [main].

    The C globals live in the record [machine] together with the three
    standard streams and the attributes of the terminal device; what the
    operating system answers (directory contents, window size, locale
    collation, path canonicalisation) is the record [os].  Code that can
    [exit], wait for input or trap runs in the monad [M]. *)

From Stdlib Require Import ZArith List String Ascii Bool Lia.
From Stdlib Require Import Permutation Sorted DecimalString.
From Stdlib Require DecimalPos.
From Equations Require Import Equations.
Import ListNotations.

Local Open Scope string_scope.
Local Open Scope Z_scope.

(** ** Machine integers *)

(** [int]: 32-bit two's complement. *)
Definition int_wrap (z : Z) : Z := (z + 2147483648) mod 4294967296 - 2147483648.

(** [char c = getchar()]: the conversion of an [int] to a signed 8-bit [char]. *)
Definition char_wrap (z : Z) : Z := (z + 128) mod 256 - 128.

(** [size_t]: 64-bit unsigned; an [int] operand is converted to it. *)
Definition size_wrap (z : Z) : Z := z mod 18446744073709551616.

Definition INT_MAX : Z := 2147483647.

(** ** Strings and bytes *)

Definition byte_of (c : ascii) : Z := Z.of_nat (nat_of_ascii c).
Definition chr (n : nat) : string := String (ascii_of_nat n) EmptyString.
Definition strlen (s : string) : Z := Z.of_nat (String.length s).

Definition ESC : string := chr 27.
Definition LF : string := chr 10.

Definition COLOR_RESET : string := ESC ++ "[m".
Definition COLOR_BOLD : string := ESC ++ "[1m".
Definition COLOR_INVERT : string := ESC ++ "[7m".
Definition MSG_CANT_SCAN : string := "/could not scan/".
Definition MSG_EMPTY : string := "/empty/".
Definition ENTRY_DELIM : string := "  ".

Definition SELECTED_MIN : Z := 0.
Definition SELECTED_MAXLEN : Z := 256.

(** Modelled from the spec: the platform path limit [PATH_MAX] comes from
    the system headers ("fails with PathTooLong when the resulting length
    exceeds the platform path limit"); 4096 is its value on Linux. *)
Definition PATH_MAX : Z := 4096.

(** [printf("%d", z)]. *)
Definition fmt_d (z : Z) : string := NilZero.string_of_int (Z.to_int z).

Definition hex_digit (n : Z) : string :=
  match n with
  | 0 => "0" | 1 => "1" | 2 => "2" | 3 => "3" | 4 => "4" | 5 => "5"
  | 6 => "6" | 7 => "7" | 8 => "8" | 9 => "9" | 10 => "A" | 11 => "B"
  | 12 => "C" | 13 => "D" | 14 => "E" | _ => "F"
  end.

(** [printf("/%02X/", c)] for an [unsigned char]. *)
Definition fmt_hex (c : Z) : string :=
  "/" ++ hex_digit (c / 16) ++ hex_digit (c mod 16) ++ "/".

(** ** The operating system *)

Record termios := { c_lflag : Z; c_cc_VMIN : Z; c_cc_VTIME : Z }.

(** An entry as [scandir] hands it over: [d_name] is a C string (no NUL
    byte, fewer than 256 bytes), [d_type] an [unsigned char]. *)
Record dirent := { d_name : string; d_type : Z }.

Definition DT_UNKNOWN : Z := 0.
Definition DT_FIFO : Z := 1.
Definition DT_CHR : Z := 2.
Definition DT_DIR : Z := 4.
Definition DT_BLK : Z := 6.
Definition DT_REG : Z := 8.
Definition DT_LNK : Z := 10.
Definition DT_SOCK : Z := 12.

(** What the system calls of one render or one directory change answer.
    [os_ws_col] is the column count [TIOCGWINSZ] reports, an
    [unsigned short]; [os_readdir] is the unfiltered, unsorted content of a directory as
    [scandir] reads it ([None]: it cannot be read and [scandir] returns -1);
    [os_opendir] tells whether [opendir] returns a stream; [os_realpath]
    gives the content of the result buffer after [realpath(path, buf)],
    from the path and the previous content (its return value is never
    looked at by the program); [os_fork_ok] and [os_execv_ok] tell whether
    [fork] and [execv] succeed; [os_strcoll] is the collation of the locale
    chosen by the [setlocale] call of [main], which [alphasort] compares with. *)
Record os := {
  os_ws_col : Z;
  os_readdir : string -> option (list dirent);
  os_opendir : string -> bool;
  os_access_x : string -> bool;
  os_realpath : string -> string -> string;
  os_strcoll : string -> string -> comparison;
  os_fork_ok : bool;
  os_execv_ok : string -> bool
}.

(** ** The program state *)

Record config := {
  cfg_show_dotfiles : bool;
  cfg_color : bool;
  cfg_clear_trace : bool;
  cfg_show_dir : bool;
  cfg_indicate : bool;
  cfg_print_hex : bool
}.

(** The statics of peek.c, the terminal attributes and the three streams.
    [stdin] lists the values the coming calls of [getchar] return (a byte,
    or -1 for [EOF]): what stdio has buffered already and what it reads
    later.  [stdout] and [stderr] hold what was written.  [queued] lists,
    for each coming call of [get_cursor_pos], the bytes that wait unread
    in the input queue of the terminal at that moment: the ones that
    [FIONREAD] counts and that the [read] into a null buffer takes out of
    the queue, so that no [getchar] returns them (none when the input is
    not a terminal). *)
Record machine := {
  cfg : config;
  d_current_name : option string;
  d_current_len : Z;
  d_length : Z;
  selected : Z;
  selected_name : string;
  last_overflow_count : Z;
  tcattr_old : termios;
  tty : termios;
  stdin : list Z;
  stdout : string;
  stderr : string;
  queued : list (list Z)
}.

Definition set_d_current_name (v : option string) (m : machine) : machine :=
  {| cfg := cfg m; d_current_name := v; d_current_len := d_current_len m;
     d_length := d_length m; selected := selected m;
     selected_name := selected_name m;
     last_overflow_count := last_overflow_count m;
     tcattr_old := tcattr_old m; tty := tty m; stdin := stdin m;
     stdout := stdout m; stderr := stderr m;
     queued := queued m |}.

Definition set_d_current_len (v : Z) (m : machine) : machine :=
  {| cfg := cfg m; d_current_name := d_current_name m; d_current_len := v;
     d_length := d_length m; selected := selected m;
     selected_name := selected_name m;
     last_overflow_count := last_overflow_count m;
     tcattr_old := tcattr_old m; tty := tty m; stdin := stdin m;
     stdout := stdout m; stderr := stderr m;
     queued := queued m |}.

Definition set_d_length (v : Z) (m : machine) : machine :=
  {| cfg := cfg m; d_current_name := d_current_name m;
     d_current_len := d_current_len m; d_length := v; selected := selected m;
     selected_name := selected_name m;
     last_overflow_count := last_overflow_count m;
     tcattr_old := tcattr_old m; tty := tty m; stdin := stdin m;
     stdout := stdout m; stderr := stderr m;
     queued := queued m |}.

Definition set_selected (v : Z) (m : machine) : machine :=
  {| cfg := cfg m; d_current_name := d_current_name m;
     d_current_len := d_current_len m; d_length := d_length m; selected := v;
     selected_name := selected_name m;
     last_overflow_count := last_overflow_count m;
     tcattr_old := tcattr_old m; tty := tty m; stdin := stdin m;
     stdout := stdout m; stderr := stderr m;
     queued := queued m |}.

Definition set_selected_name (v : string) (m : machine) : machine :=
  {| cfg := cfg m; d_current_name := d_current_name m;
     d_current_len := d_current_len m; d_length := d_length m;
     selected := selected m; selected_name := v;
     last_overflow_count := last_overflow_count m;
     tcattr_old := tcattr_old m; tty := tty m; stdin := stdin m;
     stdout := stdout m; stderr := stderr m;
     queued := queued m |}.

Definition set_last_overflow_count (v : Z) (m : machine) : machine :=
  {| cfg := cfg m; d_current_name := d_current_name m;
     d_current_len := d_current_len m; d_length := d_length m;
     selected := selected m; selected_name := selected_name m;
     last_overflow_count := v;
     tcattr_old := tcattr_old m; tty := tty m; stdin := stdin m;
     stdout := stdout m; stderr := stderr m;
     queued := queued m |}.

Definition set_tty (v : termios) (m : machine) : machine :=
  {| cfg := cfg m; d_current_name := d_current_name m;
     d_current_len := d_current_len m; d_length := d_length m;
     selected := selected m; selected_name := selected_name m;
     last_overflow_count := last_overflow_count m;
     tcattr_old := tcattr_old m; tty := v; stdin := stdin m;
     stdout := stdout m; stderr := stderr m;
     queued := queued m |}.

Definition set_stdin (v : list Z) (m : machine) : machine :=
  {| cfg := cfg m; d_current_name := d_current_name m;
     d_current_len := d_current_len m; d_length := d_length m;
     selected := selected m; selected_name := selected_name m;
     last_overflow_count := last_overflow_count m;
     tcattr_old := tcattr_old m; tty := tty m; stdin := v;
     stdout := stdout m; stderr := stderr m;
     queued := queued m |}.

Definition set_stdout (v : string) (m : machine) : machine :=
  {| cfg := cfg m; d_current_name := d_current_name m;
     d_current_len := d_current_len m; d_length := d_length m;
     selected := selected m; selected_name := selected_name m;
     last_overflow_count := last_overflow_count m;
     tcattr_old := tcattr_old m; tty := tty m; stdin := stdin m;
     stdout := v; stderr := stderr m;
     queued := queued m |}.

Definition set_stderr (v : string) (m : machine) : machine :=
  {| cfg := cfg m; d_current_name := d_current_name m;
     d_current_len := d_current_len m; d_length := d_length m;
     selected := selected m; selected_name := selected_name m;
     last_overflow_count := last_overflow_count m;
     tcattr_old := tcattr_old m; tty := tty m; stdin := stdin m;
     stdout := stdout m; stderr := v; queued := queued m |}.

Definition set_queued (v : list (list Z)) (m : machine) : machine :=
  {| cfg := cfg m; d_current_name := d_current_name m;
     d_current_len := d_current_len m; d_length := d_length m;
     selected := selected m; selected_name := selected_name m;
     last_overflow_count := last_overflow_count m;
     tcattr_old := tcattr_old m; tty := tty m; stdin := stdin m;
     stdout := stdout m; stderr := stderr m; queued := v |}.

(** The directory string the program works in (the buffer is allocated by
    the first [cd], before anything else reads it). *)
Definition cur_name (m : machine) : string :=
  match d_current_name m with Some s => s | None => EmptyString end.

Definition SELECTED_MAX (m : machine) : Z := d_length m - 1.

(** ** Outcomes and the monad of the program *)

(** How a piece of the program ends: it returns; the process ends with an
    exit status ([exit], or [return] from [main]), the machine being the one
    left behind by the [atexit] handler; the process image is replaced by
    [execv]; the input is used up, where the program keeps waiting; or the
    division by a zero column count traps. *)
Inductive result (A : Type) : Type :=
| Ret (a : A) (m : machine)
| Exited (status : Z) (m : machine)
| Replaced (prog : string) (argv : list string) (m : machine)
| Blocked (m : machine)
| Trapped (m : machine).

Arguments Ret {A} a m.
Arguments Exited {A} status m.
Arguments Replaced {A} prog argv m.
Arguments Blocked {A} m.
Arguments Trapped {A} m.

Definition M (A : Type) : Type := machine -> result A.

Definition ret {A : Type} (a : A) : M A := fun m => Ret a m.

Definition bind {A B : Type} (x : M A) (f : A -> M B) : M B :=
  fun m =>
    match x m with
    | Ret a m' => f a m'
    | Exited s m' => Exited s m'
    | Replaced p a m' => Replaced p a m'
    | Blocked m' => Blocked m'
    | Trapped m' => Trapped m'
    end.

Declare Scope prog_scope.
Delimit Scope prog_scope with prog.
Notation "x <- e ;; k" := (bind e (fun x => k))
  (at level 61, e at next level, right associativity) : prog_scope.
Notation "e ;;; k" := (bind e (fun _ => k))
  (at level 61, right associativity) : prog_scope.
Local Open Scope prog_scope.

Definition modify (f : machine -> machine) : M unit := fun m => Ret tt (f m).
Definition gets {A : Type} (f : machine -> A) : M A := fun m => Ret (f m) m.

(** [printf] of an already formatted string; it returns the byte count. *)
Definition printf (s : string) : M Z :=
  fun m => Ret (strlen s) (set_stdout (stdout m ++ s) m).

Definition putchar (c : string) : M unit :=
  fun m => Ret tt (set_stdout (stdout m ++ c) m).

Definition eprintf (s : string) : M unit :=
  fun m => Ret tt (set_stderr (stderr m ++ s) m).

Definition getchar : M Z :=
  fun m =>
    match stdin m with
    | [] => Blocked m
    | c :: rest => Ret c (set_stdin rest m)
    end.

(** ** restore_tcattr (peek.c 79-85) *)

(** [for (int l = from; l <= last_overflow_count; ++l) putchar('\n');] *)
Equations? newline_loop (l n : Z) (out : string) : string
  by wf (Z.to_nat (n + 1 - l)) lt :=
  newline_loop l n out with Z_le_gt_dec l n => {
    | left _ := newline_loop (l + 1) n (out ++ LF);
    | right _ := out }.
Proof. lia. Qed.

Definition restore_tcattr (m : machine) : machine :=
  let m := set_stdout (stdout m ++ ESC ++ "[?25h") m in
  let m :=
    if cfg_clear_trace (cfg m)
    then set_stdout (stdout m ++ ESC ++ "[u" ++ ESC ++ "[0J" ++ ESC ++ "[2K") m
    else set_stdout (newline_loop 0 (last_overflow_count m) (stdout m)) m in
  set_tty (tcattr_old m) m.

(** [exit(status)], and [return status] from [main]: the handler that
    [main] registers with [atexit] runs, then the process ends. *)
Definition exit {A : Type} (status : Z) : M A :=
  fun m => Exited status (restore_tcattr m).

(** [CHECKBAD(val, err, msg, ...)] once [val] is known to hold. *)
Definition CHECKBAD {A : Type} (err : Z) (msg : string) : M A :=
  putchar LF ;;; eprintf msg ;;; exit err.

(** ** append_to_cd and cd (peek.c 90-121) *)

(** Every call in peek.c passes [to = NULL], so a fresh buffer is filled;
    the allocation is taken to succeed.  [printf] shows the null [to] of
    the diagnostic as (null). *)
Definition append_to_cd (suffix : string) : M string :=
  fun m =>
    let suffix_len := strlen suffix in
    let to_len := size_wrap (d_current_len m + suffix_len + 2) in
    if to_len >? PATH_MAX
    then CHECKBAD 1 ("(null)/" ++ suffix ++ " is too long of a path!") m
    else Ret (substring 0 (Z.to_nat (d_current_len m)) (cur_name m)
                ++ "/" ++ suffix) m.

Definition starts_with_slash (s : string) : bool :=
  match s with
  | String c _ => Ascii.eqb c "/"%char
  | EmptyString => false
  end.

Definition cd (o : os) (to : string) : M unit :=
  cur <- gets d_current_name ;;
  match cur with
  | None =>
      modify (set_d_current_name (Some (os_realpath o to EmptyString)))
  | Some buf =>
      if starts_with_slash to
      then modify (set_d_current_name (Some (os_realpath o to buf)))
      else
        new <- append_to_cd to ;;
        modify (set_d_current_name (Some (os_realpath o new buf)))
  end ;;;
  modify (fun m => set_d_current_len (int_wrap (strlen (cur_name m))) m) ;;;
  modify (set_d_length 0) ;;;
  modify (set_selected SELECTED_MIN).

(** ** get_entry_type and display_filter (peek.c 123-166) *)

Definition colors (t : Z) : option string :=
  match t with
  | 1 => Some (ESC ++ "[33m")
  | 2 => Some (ESC ++ "[33;1m")
  | 4 => Some (ESC ++ "[34;1m")
  | 6 => Some (ESC ++ "[33;1m")
  | 10 => Some (ESC ++ "[36;1m")
  | 12 => Some (ESC ++ "[35;1m")
  | _ => None
  end.

Definition indicators (t : Z) : ascii :=
  match t with
  | 1 => "|"%char
  | 4 => "/"%char
  | 10 => "@"%char
  | 12 => "="%char
  | _ => Ascii.zero
  end.

Definition is_nul (c : ascii) : bool := Ascii.eqb c Ascii.zero.

Definition get_entry_type (o : os) (ent : dirent) : M (option string * ascii) :=
  if (0 <? d_type ent) && (d_type ent <=? DT_SOCK)
     && (match colors (d_type ent) with Some _ => true | None => false end
         || negb (is_nul (indicators (d_type ent))))
  then ret (colors (d_type ent), indicators (d_type ent))
  else
    ent_path <- append_to_cd (d_name ent) ;;
    if os_access_x o ent_path
    then ret (Some (ESC ++ "[32;1m"), "*"%char)
    else ret (None, Ascii.zero).

Definition display_filter (c : config) (ent : dirent) : bool :=
  match d_name ent with
  | String "."%char rest =>
      if negb (cfg_show_dotfiles c) then false
      else match rest with
           | EmptyString => false
           | String "."%char EmptyString => false
           | _ => true
           end
  | _ => true
  end.

(** ** scandir with alphasort (peek.c 217) *)

(** [alphasort(a, b) <= 0]: the names compared by the locale's [strcoll]. *)
Definition alphasort (o : os) (a b : dirent) : bool :=
  match os_strcoll o (d_name a) (d_name b) with
  | Gt => false
  | _ => true
  end.

Fixpoint insert_sorted {A : Type} (le : A -> A -> bool) (x : A)
    (l : list A) : list A :=
  match l with
  | [] => [x]
  | y :: l' => if le x y then x :: l else y :: insert_sorted le x l'
  end.

Fixpoint sort_entries {A : Type} (le : A -> A -> bool) (l : list A)
    : list A :=
  match l with
  | [] => []
  | x :: l' => insert_sorted le x (sort_entries le l')
  end.

(** [scandir(dir, &namelist, filter, compar)]: the entries the filter
    keeps, sorted with the comparison; [None] stands for the result -1. *)
Definition scandir (o : os) (dir : string) (filter : dirent -> bool)
    (le : dirent -> dirent -> bool) : option (list dirent) :=
  match os_readdir o dir with
  | None => None
  | Some raw => Some (sort_entries le (List.filter filter raw))
  end.

(** ** get_cursor_pos (peek.c 169-200) *)

(** Where the scan stands: in the loop at [scan_for_esc], at the test for
    the bracket, in the loop of the row digits, in the loop of the column
    digits. *)
Inductive scan_state : Type := SeekEsc | SeekBracket | ReadRow | ReadCol.

(** The scan over the values [getchar] returns; [row] and [col] are the
    two cells the caller passed, set to 0 before the first scan only.
    [None]: the input ends before a response is complete. *)
Fixpoint scan (s : scan_state) (row col : Z) (inp : list Z)
    : option (Z * Z * list Z) :=
  match inp with
  | [] => None
  | g :: rest =>
      match s with
      | SeekEsc =>
          if g =? 27 then scan SeekBracket row col rest
          else scan SeekEsc row col rest
      | SeekBracket =>
          if g =? 91 then scan ReadRow row col rest
          else scan SeekEsc row col rest
      | ReadRow =>
          let c := char_wrap g in
          if c =? 59 then scan ReadCol row col rest
          else if (c <? 48) || (c >? 57) then scan SeekEsc row col rest
          else scan ReadRow (int_wrap (row * 10 + (c - 48))) col rest
      | ReadCol =>
          let c := char_wrap g in
          if c =? 82 then Some (row, col, rest)
          else if (c <? 48) || (c >? 57) then scan SeekEsc row col rest
          else scan ReadCol row (int_wrap (col * 10 + (c - 48))) rest
      end
  end.

(** "Attempt to clear out stdin" (peek.c 176-179): [ioctl(FIONREAD)]
    counts what waits in the queue of the terminal and [read] takes that
    many bytes out of it, into a null buffer.  They are lost; what stdio
    holds in its own buffer stays. *)
Definition drain : M unit :=
  modify (fun m => set_queued (tl (queued m)) m).

Definition get_cursor_pos : M (Z * Z) :=
  drain ;;;
  printf (ESC ++ "[6n") ;;;
  fun m =>
    match scan SeekEsc 0 0 (stdin m) with
    | Some (row, col, rest) => Ret (row, col) (set_stdin rest m)
    | None => Blocked (set_stdin [] m)
    end.

(** ** display (peek.c 202-319) *)

(** "This character is printable if it is above control characters and
    not DEL" (peek.c 283-285). *)
Definition printable (c : ascii) : bool :=
  (31 <? byte_of c) && negb (byte_of c =? 127).

(** The loop over the bytes of a name (peek.c 282-291). *)
Fixpoint print_name (hex : bool) (s : string) (print_count : Z) : M Z :=
  match s with
  | EmptyString => ret print_count
  | String c s' =>
      if printable c
      then putchar (String c EmptyString) ;;;
           print_name hex s' (int_wrap (print_count + 1))
      else if hex
      then n <- printf (fmt_hex (byte_of c)) ;;
           print_name hex s' (int_wrap (print_count + n))
      else print_name hex s' print_count
  end.

(** [memcpy(selected_name, d_child->d_name, SELECTED_MAXLEN)], read back as
    a string: the name, cut to the size of the buffer. *)
Definition memcpy_name (name : string) : string :=
  substring 0 (Z.to_nat SELECTED_MAXLEN) name.

(** The body of the loop over the entries (peek.c 256-303), for entry
    number [i]; it returns the new [print_count] and [newline_count]. *)
Definition display_entry (o : os) (i : Z) (d_child : dirent)
    (print_count newline_count : Z) : M (Z * Z) :=
  let d_child_len := int_wrap (strlen (d_name d_child)) in
  ty <- get_entry_type o d_child ;;
  let d_child_color := fst ty in
  let d_child_indicator := snd ty in
  sel <- gets selected ;;
  (if i =? sel
   then modify (set_selected_name (memcpy_name (d_name d_child))) ;;;
        printf COLOR_INVERT ;;; ret tt
   else ret tt) ;;;
  c <- gets cfg ;;
  (if cfg_color c
   then match d_child_color with
        | Some col => printf col ;;; ret tt
        | None => ret tt
        end
   else ret tt) ;;;
  counts <-
    (if size_wrap (int_wrap (print_count + d_child_len)
                     + strlen ENTRY_DELIM + 1)
          >=? os_ws_col o
     then putchar LF ;;; ret (0, int_wrap (newline_count + 1))
     else ret (print_count, newline_count)) ;;
  print_count <- print_name (cfg_print_hex c) (d_name d_child) (fst counts) ;;
  printf COLOR_RESET ;;;
  print_count <-
    (if cfg_indicate c && negb (is_nul d_child_indicator)
     then putchar (String d_child_indicator EmptyString) ;;;
          ret (int_wrap (print_count + 1))
     else ret print_count) ;;
  n <- printf ENTRY_DELIM ;;
  ret (int_wrap (print_count + n), snd counts).

Fixpoint display_loop (o : os) (d_children : list dirent) (i : Z)
    (print_count newline_count : Z) : M (Z * Z) :=
  match d_children with
  | [] => ret (print_count, newline_count)
  | d_child :: rest =>
      r <- display_entry o i d_child print_count newline_count ;;
      display_loop o rest (int_wrap (i + 1)) (fst r) (snd r)
  end.

(** "Validate selection index" (peek.c 225-229). *)
Definition validate_selection (m : machine) : machine :=
  if d_length m <? 1 then set_selected 0 m
  else if selected m <? SELECTED_MIN then set_selected (SELECTED_MAX m) m
  else if selected m >? SELECTED_MAX m then set_selected SELECTED_MIN m
  else m.

Definition entries_of (d_children : option (list dirent)) : list dirent :=
  match d_children with Some l => l | None => [] end.

(** From "Return to start of last display and erase previous" to the end
    of display (peek.c 231-318); [d_children] is the array [scandir] filled. *)
Definition draw (o : os) (d_children : option (list dirent)) : M unit :=
  dir <- gets cur_name ;;
  c <- gets cfg ;;
  len <- gets d_length ;;
  printf (ESC ++ "[u" ++ ESC ++ "[0J" ++ ESC ++ "[2K") ;;;
  before <- get_cursor_pos ;;
  print_count <-
    (if cfg_show_dir c
     then n <- printf (COLOR_BOLD ++ COLOR_INVERT ++ dir ++ COLOR_RESET ++ ": ") ;;
          ret (int_wrap (0 + n))
     else ret 0) ;;
  printf COLOR_RESET ;;;
  print_count <-
    (if len <? 0
     then n <- printf (MSG_CANT_SCAN ++ COLOR_RESET ++ " ") ;;
          ret (int_wrap (print_count + n))
     else if len =? 0
     then n <- printf (MSG_EMPTY ++ COLOR_RESET ++ " ") ;;
          ret (int_wrap (print_count + n))
     else ret print_count) ;;
  r <- display_loop o (entries_of d_children) 0 print_count 0 ;;
  after <- get_cursor_pos ;;
  if os_ws_col o =? 0 then (fun m => Trapped m)
  else
    let print_count := int_wrap (fst r + int_wrap (snd r * os_ws_col o)) in
    modify (set_last_overflow_count (Z.quot print_count (os_ws_col o))) ;;;
    overflow <- gets last_overflow_count ;;
    if negb (overflow =? 0)
    then printf (ESC ++ "[" ++ fmt_d (int_wrap (fst after - overflow)) ++ ";"
                   ++ fmt_d (snd before) ++ "f" ++ ESC ++ "[s") ;;; ret tt
    else ret tt.

(** The head of display (peek.c 215-229): enumerate, open, validate the
    selection; then [draw]. *)
Definition display (o : os) : M unit :=
  dir <- gets cur_name ;;
  c <- gets cfg ;;
  let d_children := scandir o dir (display_filter c) (alphasort o) in
  modify (set_d_length match d_children with
                       | Some l => int_wrap (Z.of_nat (List.length l))
                       | None => -1
                       end) ;;;
  len <- gets d_length ;;
  (if len =? -1 then modify (set_selected_name EmptyString) else ret tt) ;;;
  (if os_opendir o dir then ret tt
   else CHECKBAD 1 ("Could not open " ++ dir)) ;;;
  modify validate_selection ;;;
  draw o d_children.

(** ** open_selection (peek.c 321-354) *)

(** The parent's side of the call; the forked child runs on its own. *)
Definition open_selection (o : os) (opener : option string) (do_fork : bool)
    : M Z :=
  name <- gets selected_name ;;
  selected_path <- append_to_cd name ;;
  let prog := match opener with Some p => p | None => selected_path end in
  let argv := match opener with
              | Some p => [p; selected_path]
              | None => [selected_path]
              end in
  if do_fork
  then if os_fork_ok o then ret 0
       else CHECKBAD 1 ("Could not start process for " ++ prog)
  else
    modify restore_tcattr ;;;
    c <- gets cfg ;;
    (if cfg_clear_trace c then putchar LF else ret tt) ;;;
    if os_execv_ok o prog then (fun m => Replaced prog argv m)
    else CHECKBAD 1 (prog ++ " failed to execute").

(** ** The keystroke loop of main (peek.c 391-431) *)

Definition is_key (k : Z) (c : ascii) : bool := k =? byte_of c.

Definition select_left : M unit :=
  modify (fun m => set_selected (int_wrap (selected m - 1)) m).

Definition select_right : M unit :=
  modify (fun m => set_selected (int_wrap (selected m + 1)) m).

Definition cd_selected (o : os) : M unit :=
  name <- gets selected_name ;; cd o name.

(** The inner [switch] on the byte after ESC and the bracket; it has no
    [default]. *)
Definition arrow_key (o : os) (a : Z) : M unit :=
  if is_key a "A" then cd o ".."
  else if is_key a "B" then cd_selected o
  else if is_key a "D" then select_left
  else if is_key a "C" then select_right
  else ret tt.

(** [case 0x1B]: the byte after ESC decides between quitting and the arrow
    keys. *)
Definition on_escape (o : os) : M unit :=
  b <- getchar ;;
  if negb (is_key b "[") then exit 0
  else a <- getchar ;; arrow_key o a ;;; display o.

(** The [switch] on the key read at [redo]; [Ret] is the [goto redo],
    reached at once by [default] and after [display] by the cases that
    [break]. *)
Definition on_key (o : os) (k : Z) : M unit :=
  if is_key k "E" || is_key k "e"
  then r <- open_selection o (Some "/usr/bin/vim") false ;; exit r
  else if is_key k "O" || is_key k "o"
  then r <- open_selection o (Some "/usr/bin/xdg-open") true ;; exit r
  else if is_key k "X" || is_key k "x"
  then r <- open_selection o None false ;; exit r
  else if is_key k "K" || is_key k "k"
  then cd o ".." ;;; display o
  else if is_key k "J" || is_key k "j" || (k =? 10)
  then cd_selected o ;;; display o
  else if is_key k "H" || is_key k "h"
  then select_left ;;; display o
  else if is_key k "L" || is_key k "l"
  then select_right ;;; display o
  else if is_key k "Q" || is_key k "q"
  then exit 0
  else if k =? 27
  then on_escape o
  else ret tt.

(** One pass from the label [redo] back to it. *)
Definition key_step (o : os) : M unit :=
  k <- getchar ;; on_key o k.

(** [passes] turns of the loop. *)
Fixpoint main_loop (o : os) (passes : nat) : M unit :=
  match passes with
  | O => ret tt
  | S n => key_step o ;;; main_loop o n
  end.


(** ** The start of main (peek.c 356-391) *)

(** The bits of [c_lflag] that main clears; their values in the Linux
    headers. *)
Definition ICANON : Z := 2.
Definition ECHO : Z := 8.

Definition TAB : string := chr 9.

Definition SHORT_FLAGS : string := "aBcdFhx".

Definition MSG_USAGE (argv0 : string) : string :=
  "Usage: " ++ argv0 ++ " [-" ++ SHORT_FLAGS ++ "] [<directory>]".

Definition MSG_INVALID (argv0 : string) : string :=
  MSG_USAGE argv0 ++ LF ++ "Try '" ++ argv0 ++ " -h' for more information." ++ LF.

Definition MSG_HELP (argv0 : string) : string :=
  MSG_USAGE argv0
  ++ LF ++ "Interactive exploration of directories on the command line." ++ LF
  ++ LF ++ "Flags:" ++ LF
  ++ "  -a" ++ TAB ++ "Show files starting with . (hidden by default)" ++ LF
  ++ "  -B" ++ TAB ++ "Don't output color." ++ LF
  ++ "  -c" ++ TAB ++ "Clear listing on exit." ++ LF
  ++ "  -d" ++ TAB ++ "Print current directory path before listing." ++ LF
  ++ "  -F" ++ TAB ++ "Append ls style indicators to the end of entries." ++ LF
  ++ "  -h" ++ TAB ++ "Print this message and exit." ++ LF
  ++ "  -x" ++ TAB
  ++ "Print unprintable characters as hex.  Carriage return would be /0D/."
  ++ LF
  ++ LF ++ "Keys:" ++ LF
  ++ "   E" ++ TAB ++ "Edit selected entry." ++ LF
  ++ "   O" ++ TAB ++ "Open selected entry." ++ LF
  ++ "   X" ++ TAB ++ "Execute selected entry." ++ LF
  ++ "   Q" ++ TAB ++ "Quit." ++ LF
  ++ "   K|Up           Go up a directory." ++ LF
  ++ "   J|Down|Enter   Open selected directory." ++ LF
  ++ "   H|Left         Move selection left." ++ LF
  ++ "   L|Right        Move selection right." ++ LF.

(** What [getopt] returns for the option string [SHORT_FLAGS] before it
    returns -1: one of the seven letters, or the question mark for
    anything else, after it wrote its own complaint [said] to stderr
    ([opterr] is left as it is).  The [default: abort()] of the switch has
    no value left to reach it. *)
Inductive getopt_result : Type :=
| Opt_a | Opt_B | Opt_c | Opt_d | Opt_F | Opt_x | Opt_h
| Opt_unknown (said : string).

Definition set_cfg (v : config) (m : machine) : machine :=
  {| cfg := v; d_current_name := d_current_name m;
     d_current_len := d_current_len m; d_length := d_length m;
     selected := selected m; selected_name := selected_name m;
     last_overflow_count := last_overflow_count m;
     tcattr_old := tcattr_old m; tty := tty m; stdin := stdin m;
     stdout := stdout m; stderr := stderr m;
     queued := queued m |}.

Definition set_tcattr_old (v : termios) (m : machine) : machine :=
  {| cfg := cfg m; d_current_name := d_current_name m;
     d_current_len := d_current_len m; d_length := d_length m;
     selected := selected m; selected_name := selected_name m;
     last_overflow_count := last_overflow_count m;
     tcattr_old := v; tty := tty m; stdin := stdin m;
     stdout := stdout m; stderr := stderr m;
     queued := queued m |}.

(** The assignment one flag makes. *)
Definition flag_config (f : getopt_result) (c : config) : config :=
  match f with
  | Opt_a =>
      {| cfg_show_dotfiles := true; cfg_color := cfg_color c;
         cfg_clear_trace := cfg_clear_trace c; cfg_show_dir := cfg_show_dir c;
         cfg_indicate := cfg_indicate c; cfg_print_hex := cfg_print_hex c |}
  | Opt_B =>
      {| cfg_show_dotfiles := cfg_show_dotfiles c; cfg_color := false;
         cfg_clear_trace := cfg_clear_trace c; cfg_show_dir := cfg_show_dir c;
         cfg_indicate := cfg_indicate c; cfg_print_hex := cfg_print_hex c |}
  | Opt_c =>
      {| cfg_show_dotfiles := cfg_show_dotfiles c; cfg_color := cfg_color c;
         cfg_clear_trace := true; cfg_show_dir := cfg_show_dir c;
         cfg_indicate := cfg_indicate c; cfg_print_hex := cfg_print_hex c |}
  | Opt_d =>
      {| cfg_show_dotfiles := cfg_show_dotfiles c; cfg_color := cfg_color c;
         cfg_clear_trace := cfg_clear_trace c; cfg_show_dir := true;
         cfg_indicate := cfg_indicate c; cfg_print_hex := cfg_print_hex c |}
  | Opt_F =>
      {| cfg_show_dotfiles := cfg_show_dotfiles c; cfg_color := cfg_color c;
         cfg_clear_trace := cfg_clear_trace c; cfg_show_dir := cfg_show_dir c;
         cfg_indicate := true; cfg_print_hex := cfg_print_hex c |}
  | Opt_x =>
      {| cfg_show_dotfiles := cfg_show_dotfiles c; cfg_color := cfg_color c;
         cfg_clear_trace := cfg_clear_trace c; cfg_show_dir := cfg_show_dir c;
         cfg_indicate := cfg_indicate c; cfg_print_hex := true |}
  | Opt_h => c
  | Opt_unknown _ => c
  end.

(** [return status] from main before [atexit] has registered the
    handler: the process ends as it is. *)
Definition leave {A : Type} (status : Z) : M A := fun m => Exited status m.

(** The loop over [getopt] (peek.c 361-371). *)
Fixpoint parse_flags (argv0 : string) (flags : list getopt_result) : M unit :=
  match flags with
  | [] => ret tt
  | Opt_h :: _ => printf (MSG_HELP argv0) ;;; leave 0
  | Opt_unknown said :: _ =>
      eprintf said ;;; eprintf (MSG_INVALID argv0) ;;; leave 1
  | f :: rest =>
      modify (fun m => set_cfg (flag_config f (cfg m)) m) ;;;
      parse_flags argv0 rest
  end.

(** [tcattr_raw]: the saved attributes with [VMIN] and [VTIME] zeroed and
    echo and canonical mode off (peek.c 381-384); [c_lflag] is an unsigned
    32-bit word. *)
Definition raw_of (old : termios) : termios :=
  {| c_lflag := Z.land (c_lflag old) (Z.lnot (Z.lor ECHO ICANON));
     c_cc_VMIN := 0;
     c_cc_VTIME := 0 |}.

(** The banner of a build with [DEBUG] set, from the date and time of the
    compilation; a [RELEASE] build prints none. *)
Definition dev_banner (build : option (string * string)) : M unit :=
  match build with
  | Some (date, time) =>
      printf ("Dev Build " ++ date ++ " " ++ time ++ ESC ++ "[K" ++ LF) ;;;
      ret tt
  | None => ret tt
  end.

(** From [tcgetattr] to the first [display] and into the loop
    (peek.c 379-431). *)
Definition session_loop (o : os) (build : option (string * string))
    (passes : nat) : M unit :=
  modify (fun m => set_tcattr_old (tty m) m) ;;;
  modify (fun m => set_tty (raw_of (tcattr_old m)) m) ;;;
  dev_banner build ;;;
  printf (ESC ++ "[?25l" ++ ESC ++ "[s") ;;;
  display o ;;;
  main_loop o passes.

(** main, with the results of [getopt], the directory argument if there is
    one, and [passes] turns of the keystroke loop. *)
Definition main (o : os) (build : option (string * string)) (argv0 : string)
    (flags : list getopt_result) (dir : option string) (passes : nat)
    : M unit :=
  parse_flags argv0 flags ;;;
  cd o (match dir with Some d => d | None => "." end) ;;;
  session_loop o build passes.

(** The statics as the program is loaded, on a terminal with attributes
    [t] and the input [inp] to come, with nothing waiting in the queue of
    the terminal at the position queries ([set_queued] says otherwise). *)
Definition initial_machine (t : termios) (inp : list Z) : machine :=
  {| cfg := {| cfg_show_dotfiles := false; cfg_color := true;
               cfg_clear_trace := false; cfg_show_dir := false;
               cfg_indicate := false; cfg_print_hex := false |};
     d_current_name := None; d_current_len := 0; d_length := 0;
     selected := SELECTED_MIN; selected_name := EmptyString;
     last_overflow_count := 0;
     tcattr_old := {| c_lflag := 0; c_cc_VMIN := 0; c_cc_VTIME := 0 |};
     tty := t; stdin := inp; stdout := EmptyString; stderr := EmptyString;
     queued := [] |}.
(** * Vocabulary of the statements *)

(** The machine an outcome leaves behind. *)
Definition final {A : Type} (r : result A) : machine :=
  match r with
  | Ret _ m => m
  | Exited _ m => m
  | Replaced _ _ m => m
  | Blocked m => m
  | Trapped m => m
  end.

(** The bytes of a string, as [getchar] delivers them. *)
Definition bytes_of (s : string) : list Z :=
  List.map byte_of (list_ascii_of_string s).

(** [n] line feeds. *)
Fixpoint newlines (n : nat) : string :=
  match n with
  | O => EmptyString
  | S k => LF ++ newlines k
  end.


(** [x] returns from every machine. *)
Definition total {A : Type} (x : M A) : Prop :=
  forall m, exists a m', x m = Ret a m'.

(** However [x] ends, the observation [f] of the machine is as before. *)
Definition keeps {X A : Type} (f : machine -> X) (x : M A) : Prop :=
  forall m, f (final (x m)) = f m.

(** The machine a restoration leaves: [restore_tcattr] ran last, or was
    followed only by the line feed [open_selection] prints before [execv]. *)
Definition restored (m' : machine) : Prop :=
  exists m0,
    m' = restore_tcattr m0 \/
    m' = set_stdout (stdout (restore_tcattr m0) ++ LF) (restore_tcattr m0).

(** Whenever [x] ends the process, by exit or by [execv], the terminal
    has been restored. *)
Definition ends_restored {A : Type} (x : M A) : Prop :=
  forall m,
    match x m with
    | Exited _ m' => restored m'
    | Replaced _ _ m' => restored m'
    | _ => True
    end.

(** The sequence [clear last display] of restore_tcattr and display. *)
Definition CLEAR_DISPLAY : string := ESC ++ "[u" ++ ESC ++ "[0J" ++ ESC ++ "[2K".

(** A decimal digit, as [getchar] returns it. *)
Definition is_digit (g : Z) : bool := (48 <=? g) && (g <=? 57).

(** The number a run of digits accumulates onto [acc] in an [int]. *)
Definition digits_value (acc : Z) (ds : list Z) : Z :=
  fold_left (fun a g => int_wrap (a * 10 + (g - 48))) ds acc.

(** The cursor position report of the terminal: ESC [ row ; col R. *)
Definition cursor_report (row col : list Z) : list Z :=
  27 :: 91 :: row ++ 59 :: col ++ [82].

(** The path [cd] hands to [realpath]. *)
Definition cd_target (m : machine) (to : string) : string :=
  match d_current_name m with
  | None => to
  | Some buf =>
      if starts_with_slash to then to
      else (substring 0 (Z.to_nat (d_current_len m)) buf ++ "/" ++ to)%string
  end.

(** The guard of [append_to_cd] lets [cd] pass: the buffer is still
    unallocated, the target is absolute, or the joined path fits. *)
Definition cd_fits (m : machine) (to : string) : bool :=
  match d_current_name m with
  | None => true
  | Some _ =>
      starts_with_slash to
      || (size_wrap (d_current_len m + strlen to + 2) <=? PATH_MAX)
  end.

(** The entries [display] enumerates: filtered and sorted. *)
Definition listing (o : os) (m : machine) : option (list dirent) :=
  scandir o (cur_name m) (display_filter (cfg m)) (alphasort o).

(** What [display] stores in [d_length]. *)
Definition listing_count (o : os) (m : machine) : Z :=
  match listing o m with
  | Some l => int_wrap (Z.of_nat (List.length l))
  | None => -1
  end.

(** An observation of the program variables: writing to a stream,
    consuming input, emptying the queue of the terminal or setting the
    terminal attributes does not change it. *)
Definition io_blind {X : Type} (f : machine -> X) : Prop :=
  (forall s m, f (set_stdout s m) = f m) /\
  (forall s m, f (set_stderr s m) = f m) /\
  (forall s m, f (set_stdin s m) = f m) /\
  (forall t m, f (set_tty t m) = f m) /\
  (forall q m, f (set_queued q m) = f m).

(** ** What one render prints *)

(** The file type alone decides colour and indicator. *)
Definition type_known (e : dirent) : bool :=
  (0 <? d_type e) && (d_type e <=? DT_SOCK)
  && (match colors (d_type e) with Some _ => true | None => false end
      || negb (is_nul (indicators (d_type e)))).

(** [get_entry_type] gets past the guard of [append_to_cd]. *)
Definition entry_ok (m : machine) (e : dirent) : bool :=
  type_known e
  || (size_wrap (d_current_len m + strlen (d_name e) + 2) <=? PATH_MAX).

(** The colour and indicator [get_entry_type] finds. *)
Definition classify (o : os) (m : machine) (e : dirent) : option string * ascii :=
  if type_known e then (colors (d_type e), indicators (d_type e))
  else if os_access_x o
            (substring 0 (Z.to_nat (d_current_len m)) (cur_name m)
               ++ "/" ++ d_name e)%string
       then (Some (ESC ++ "[32;1m")%string, "*"%char)
       else (None, Ascii.zero).

(** The bytes [print_name] writes for a name. *)
Fixpoint printed (hex : bool) (s : string) : string :=
  match s with
  | EmptyString => EmptyString
  | String c s' =>
      if printable c then String c (printed hex s')
      else if hex then (fmt_hex (byte_of c) ++ printed hex s')%string
      else printed hex s'
  end.

(** The counter [print_name] returns. *)
Fixpoint name_count (hex : bool) (s : string) (print_count : Z) : Z :=
  match s with
  | EmptyString => print_count
  | String c s' =>
      if printable c then name_count hex s' (int_wrap (print_count + 1))
      else if hex
      then name_count hex s' (int_wrap (print_count + strlen (fmt_hex (byte_of c))))
      else name_count hex s' print_count
  end.

(** The test of peek.c 275 with the counter at [print_count]. *)
Definition wraps_before (o : os) (print_count : Z) (e : dirent) : bool :=
  size_wrap (int_wrap (print_count + int_wrap (strlen (d_name e)))
               + strlen ENTRY_DELIM + 1)
  >=? os_ws_col o.

Definition has_indicator (c : config) (ind : ascii) : bool :=
  cfg_indicate c && negb (is_nul ind).

(** The text of entry number [i], with or without a line feed before the
    name. *)
Definition entry_text (o : os) (m : machine) (i : Z) (e : dirent) (brk : bool)
    : string :=
  ((if (i =? selected m)%Z then COLOR_INVERT else "")
   ++ (if cfg_color (cfg m)
       then match fst (classify o m e) with Some col => col | None => "" end
       else "")
   ++ (if brk then LF else "")
   ++ printed (cfg_print_hex (cfg m)) (d_name e)
   ++ COLOR_RESET
   ++ (if has_indicator (cfg m) (snd (classify o m e))
       then String (snd (classify o m e)) "" else "")
   ++ ENTRY_DELIM)%string.

(** The two counters after an entry. *)
Definition entry_counts (o : os) (m : machine) (e : dirent)
    (print_count newline_count : Z) : Z * Z :=
  let brk := wraps_before o print_count e in
  let pc := name_count (cfg_print_hex (cfg m)) (d_name e)
              (if brk then 0 else print_count) in
  let pc := if has_indicator (cfg m) (snd (classify o m e))
            then int_wrap (pc + 1) else pc in
  (int_wrap (pc + strlen ENTRY_DELIM),
   if brk then int_wrap (newline_count + 1) else newline_count).

Fixpoint loop_counts (o : os) (m : machine) (es : list dirent)
    (print_count newline_count : Z) : Z * Z :=
  match es with
  | [] => (print_count, newline_count)
  | e :: rest =>
      loop_counts o m rest
        (fst (entry_counts o m e print_count newline_count))
        (snd (entry_counts o m e print_count newline_count))
  end.

Fixpoint loop_output (o : os) (m : machine) (es : list dirent) (i : Z)
    (print_count : Z) : string :=
  match es with
  | [] => EmptyString
  | e :: rest =>
      (entry_text o m i e (wraps_before o print_count e)
       ++ loop_output o m rest (int_wrap (i + 1))
            (fst (entry_counts o m e print_count 0)))%string
  end.

(** The name the loop leaves in [selected_name]: the one of the entry
    whose number is [sel], if the loop meets it. *)
Fixpoint pick_name (es : list dirent) (i sel : Z) (old : string) : string :=
  match es with
  | [] => old
  | e :: rest =>
      pick_name rest (int_wrap (i + 1)) sel
        (if i =? sel then memcpy_name (d_name e) else old)
  end.

(** The machine [display] hands to [opendir]: the count stored, the name
    emptied when the scan failed. *)
Definition scanned (o : os) (m : machine) : machine :=
  let m1 := set_d_length (listing_count o m) m in
  if d_length m1 =? -1 then set_selected_name EmptyString m1 else m1.

(** The terminal answers the two position queries of a render. *)
Definition answers_twice (inp : list Z) : option (Z * Z * (Z * Z) * list Z) :=
  match scan SeekEsc 0 0 inp with
  | Some (r1, c1, inp1) =>
      match scan SeekEsc 0 0 inp1 with
      | Some (r2, c2, inp2) => Some (r1, c1, (r2, c2), inp2)
      | None => None
      end
  | None => None
  end.

(** Conditions under which [display] returns, with the input [inp] ahead:
    the directory opens, the window has columns, the paths of the entries
    to probe fit, the entry count fits an [int], the terminal answers. *)
Definition renders (o : os) (m : machine) (inp : list Z) : bool :=
  os_opendir o (cur_name m)
  && negb (os_ws_col o =? 0)
  && forallb (entry_ok m) (entries_of (listing o m))
  && (Z.of_nat (List.length (entries_of (listing o m))) <=? INT_MAX)
  && (match answers_twice inp with Some _ => true | None => false end).

Definition QUERY : string := ESC ++ "[6n".

(** The optional header and the marker, and the counter after them. *)
Definition header_text (m : machine) : string :=
  if cfg_show_dir (cfg m)
  then (COLOR_BOLD ++ COLOR_INVERT ++ cur_name m ++ COLOR_RESET ++ ": ")%string
  else EmptyString.

Definition marker_text (len : Z) : string :=
  if len <? 0 then (MSG_CANT_SCAN ++ COLOR_RESET ++ " ")%string
  else if len =? 0 then (MSG_EMPTY ++ COLOR_RESET ++ " ")%string
  else EmptyString.

Definition start_count (m : machine) : Z :=
  let pc := if cfg_show_dir (cfg m)
            then int_wrap (0 + strlen (header_text m)) else 0 in
  if d_length m <? 0 then int_wrap (pc + strlen (marker_text (d_length m)))
  else if d_length m =? 0 then int_wrap (pc + strlen (marker_text (d_length m)))
  else pc.

(** The overflow count a render stores. *)
Definition overflow_of (o : os) (counts : Z * Z) : Z :=
  Z.quot (int_wrap (fst counts + int_wrap (snd counts * os_ws_col o)))
         (os_ws_col o).

(** The final repositioning of the saved cursor. *)
Definition reposition_text (overflow row_after col_before : Z) : string :=
  if negb (overflow =? 0)
  then (ESC ++ "[" ++ fmt_d (int_wrap (row_after - overflow)) ++ ";"
          ++ fmt_d col_before ++ "f" ++ ESC ++ "[s")%string
  else EmptyString.

(** The machine after the body of the loop ran for entry [i]. *)
Definition entry_machine (o : os) (i : Z) (e : dirent) (print_count : Z)
    (m : machine) : machine :=
  set_stdout (stdout m ++ entry_text o m i e (wraps_before o print_count e))
    (if i =? selected m then set_selected_name (memcpy_name (d_name e)) m
     else m).

(** The machine after the loop ran over [es], from entry number [i]. *)
Definition loop_machine (o : os) (es : list dirent) (i print_count : Z)
    (m : machine) : machine :=
  set_stdout (stdout m ++ loop_output o m es i print_count)
    (set_selected_name (pick_name es i (selected m) (selected_name m)) m).

(** Two machines that a render cannot tell apart while it prints the
    entries: same flags, same selection, same directory. *)
Definition same_view (m1 m : machine) : Prop :=
  cfg m1 = cfg m /\ selected m1 = selected m /\
  d_current_len m1 = d_current_len m /\ d_current_name m1 = d_current_name m.

(** Everything one [draw] writes, the terminal answering the second query
    with row [row_after] and the first with column [col_before]. *)
Definition draw_text (o : os) (es : list dirent) (m : machine)
    (row_after col_before : Z) : string :=
  (CLEAR_DISPLAY ++ QUERY ++ header_text m ++ COLOR_RESET
   ++ marker_text (d_length m)
   ++ loop_output o m es 0 (start_count m)
   ++ QUERY
   ++ reposition_text (overflow_of o (loop_counts o m es (start_count m) 0))
        row_after col_before)%string.

(** The machine after [draw]. *)
Definition drawn (o : os) (es : list dirent) (m : machine)
    (row_after col_before : Z) (rest : list Z) : machine :=
  set_last_overflow_count
    (overflow_of o (loop_counts o m es (start_count m) 0))
    (set_stdin rest
       (set_queued (tl (tl (queued m)))
          (set_stdout (stdout m ++ draw_text o es m row_after col_before)
             (set_selected_name
                (pick_name es 0 (selected m) (selected_name m)) m)))).

(** The machine [draw] starts from: scanned, selection validated. *)
Definition prepared (o : os) (m : machine) : machine :=
  validate_selection (scanned o m).

Definition no_entry : dirent := {| d_name := EmptyString; d_type := DT_UNKNOWN |}.

(** Entry number [i] of a listing. *)
Definition entry_at (es : list dirent) (i : Z) : dirent :=
  nth (Z.to_nat i) es no_entry.

(** ** Keys *)

(** The byte sequences of the keys, as they arrive on the input. *)
Definition left_keys : list (list Z) := [[72]; [104]; [27; 91; 68]].
Definition right_keys : list (list Z) := [[76]; [108]; [27; 91; 67]].
Definition descend_keys : list (list Z) := [[74]; [106]; [10]; [27; 91; 66]].

(** The names [struct dirent] can hold leave room for the terminator in
    the buffer of the selected name. *)
Definition names_fit (es : list dirent) : bool :=
  forallb (fun e => strlen (d_name e) <? SELECTED_MAXLEN) es.

(** The selection after "Validate selection index", for a count [n]. *)
Definition validated (n sel : Z) : Z :=
  if n <? 1 then 0
  else if sel <? SELECTED_MIN then n - 1
  else if sel >? n - 1 then SELECTED_MIN
  else sel.

(** An observation that [draw] cannot change: blind to input and output,
    to the buffer of the selected name and to the overflow count. *)
Definition draw_blind {X : Type} (f : machine -> X) : Prop :=
  io_blind f /\
  (forall v m, f (set_selected_name v m) = f m) /\
  (forall v m, f (set_last_overflow_count v m) = f m).

(** An observation that a render cannot change: the entry count and the
    selection as well. *)
Definition render_blind {X : Type} (f : machine -> X) : Prop :=
  draw_blind f /\
  (forall v m, f (set_d_length v m) = f m) /\
  (forall v m, f (set_selected v m) = f m).

(** An observation that no statement of the loop changes: the directory
    as well. *)
Definition loop_blind {X : Type} (f : machine -> X) : Prop :=
  render_blind f /\
  (forall v m, f (set_d_current_name v m) = f m) /\
  (forall v m, f (set_d_current_len v m) = f m).

(** ** Collations and the order of the listing *)

(** [strcmp]: the bytes compared as [unsigned char]; what [strcoll] is in
    the C locale. *)
Fixpoint strcmp (a b : string) : comparison :=
  match a, b with
  | EmptyString, EmptyString => Eq
  | EmptyString, String _ _ => Lt
  | String _ _, EmptyString => Gt
  | String x a', String y b' =>
      match Z.compare (byte_of x) (byte_of y) with
      | Eq => strcmp a' b'
      | r => r
      end
  end.

(** The byte with a capital ASCII letter turned into its small letter. *)
Definition fold_case (c : ascii) : Z :=
  if (65 <=? byte_of c) && (byte_of c <=? 90) then byte_of c + 32
  else byte_of c.

Fixpoint strcasecmp (a b : string) : comparison :=
  match a, b with
  | EmptyString, EmptyString => Eq
  | EmptyString, String _ _ => Lt
  | String _ _, EmptyString => Gt
  | String x a', String y b' =>
      match Z.compare (fold_case x) (fold_case y) with
      | Eq => strcasecmp a' b'
      | r => r
      end
  end.

(** A dictionary collation, as the locales of natural languages have it:
    letters compare without regard to case, the bytes break ties. *)
Definition dictionary_collation (a b : string) : comparison :=
  match strcasecmp a b with
  | Eq => strcmp a b
  | r => r
  end.

(** [display_filter] as a test on the name. *)
Definition shown (c : config) (name : string) : bool :=
  display_filter c {| d_name := name; d_type := DT_UNKNOWN |}.

(** [alphasort] as a test on the two names. *)
Definition name_le (o : os) (a b : string) : bool :=
  match os_strcoll o a b with
  | Gt => false
  | _ => true
  end.

(** [le] is a total order on the members of [L]. *)
Definition order_on {A : Type} (le : A -> A -> bool) (L : list A) : Prop :=
  forall x y z, In x L -> In y L -> In z L ->
    (le x y = true \/ le y x = true) /\
    (le x y = true -> le y z = true -> le x z = true) /\
    (le x y = true -> le y x = true -> x = y).

(** The names of the listing, in the order [display] goes through them. *)
Definition listing_names (o : os) (m : machine) : option (list string) :=
  option_map (List.map d_name) (listing o m).

(** The directory of the scenario, as [readdir] may deliver it. *)
Definition scenario_names : list string :=
  ["."; ".."; "apple"; "Banana"; "cherry.txt"]%string.

(** ** Concrete systems and machines for the examples *)

Definition entry (name : string) (type : Z) : dirent :=
  {| d_name := name; d_type := type |}.

(** The directory of the scenario in some order of arrival. *)
Definition scenario_dir : list dirent :=
  [entry "." DT_DIR; entry "apple" DT_REG; entry ".." DT_DIR;
   entry "cherry.txt" DT_REG; entry "Banana" DT_DIR].

(** A system whose every directory has the given content, with a window
    of [cols] columns and the given collation; nothing is executable and
    [realpath] hands the path back. *)
Definition system (cols : Z) (content : option (list dirent)) (opens : bool)
    (collation : string -> string -> comparison) : os :=
  {| os_ws_col := cols;
     os_readdir := fun _ => content;
     os_opendir := fun _ => opens;
     os_access_x := fun _ => false;
     os_realpath := fun path _ => path;
     os_strcoll := collation;
     os_fork_ok := true;
     os_execv_ok := fun _ => true |}.

(** The flags as [main] starts with them, no option given. *)
Definition default_config : config :=
  {| cfg_show_dotfiles := false; cfg_color := true; cfg_clear_trace := false;
     cfg_show_dir := false; cfg_indicate := false; cfg_print_hex := false |}.

Definition cooked : termios :=
  {| c_lflag := 35387; c_cc_VMIN := 1; c_cc_VTIME := 0 |}.

Definition raw_mode : termios :=
  {| c_lflag := 35377; c_cc_VMIN := 0; c_cc_VTIME := 0 |}.

(** The machine inside the loop, in directory [dir], with selection [sel],
    the name [name] in the buffer and [inp] ahead on the input; nothing
    waits in the queue of the terminal when a render asks for the cursor
    position. *)
Definition session (c : config) (dir : string) (sel : Z) (name : string)
    (inp : list Z) : machine :=
  {| cfg := c; d_current_name := Some dir;
     d_current_len := strlen dir; d_length := 0; selected := sel;
     selected_name := name; last_overflow_count := 0;
     tcattr_old := cooked; tty := raw_mode; stdin := inp;
     stdout := EmptyString; stderr := EmptyString;
     queued := [] |}.

(** The answer of a terminal whose cursor is at row 12, column 34. *)
Definition report_12_34 : list Z := bytes_of (ESC ++ "[12;34R").

(** ** Column accounting *)

(** The columns an entry adds to the line: the bytes printed for its name,
    one for the indicator when indicators are enabled and the entry has
    one, and the delimiter. *)
Definition entry_width (o : os) (m : machine) (e : dirent) : Z :=
  strlen (printed (cfg_print_hex (cfg m)) (d_name e))
  + (if has_indicator (cfg m) (snd (classify o m e)) then 1 else 0)
  + strlen ENTRY_DELIM.

(** The reference accounting of the renderer.  With [col] columns used on
    the line, a line feed goes before an entry when [col], the length of
    its name, the delimiter and one column kept for an indicator reach the
    column count; the line then restarts at 0. *)
Fixpoint wrap_points (o : os) (m : machine) (col : Z) (es : list dirent)
    : list bool :=
  match es with
  | [] => []
  | e :: rest =>
      let brk := os_ws_col o <=? col + strlen (d_name e) + strlen ENTRY_DELIM + 1 in
      brk :: wrap_points o m ((if brk then 0 else col) + entry_width o m e) rest
  end.

(** The accounting as the claim words it: the width of an entry is the
    length of its name, one for the indicator only if indicators are
    enabled, and the delimiter; the break comes when adding it would
    exceed the column count. *)
Definition claimed_width (c : config) (e : dirent) : Z :=
  strlen (d_name e) + (if cfg_indicate c then 1 else 0) + strlen ENTRY_DELIM.

Fixpoint claimed_wrap_points (c : config) (cols col : Z) (es : list dirent)
    : list bool :=
  match es with
  | [] => []
  | e :: rest =>
      let brk := cols <? col + claimed_width c e in
      brk :: claimed_wrap_points c cols
               ((if brk then 0 else col) + claimed_width c e) rest
  end.

(** The text of the entries from number [i] on, with a line feed before
    those flagged in [brks]. *)
Fixpoint layout (o : os) (m : machine) (i : Z) (es : list dirent)
    (brks : list bool) : string :=
  match es, brks with
  | e :: es', b :: bs => (entry_text o m i e b ++ layout o m (i + 1) es' bs)%string
  | _, _ => EmptyString
  end.

(** The sum of the widths: a bound on the column counter. *)
Fixpoint total_width (o : os) (m : machine) (es : list dirent) : Z :=
  match es with
  | [] => 0
  | e :: rest => entry_width o m e + total_width o m rest
  end.

Definition count_breaks (brks : list bool) : Z :=
  Z.of_nat (List.length (List.filter (fun b : bool => b) brks)).

(** The line feeds in a text. *)
Fixpoint count_lf (s : string) : nat :=
  match s with
  | EmptyString => O
  | String c s' =>
      if byte_of c =? 10 then S (count_lf s') else count_lf s'
  end.

(** The listing of the scenario in the C locale. *)
Definition scenario_listing : list dirent :=
  [entry "Banana" DT_DIR; entry "apple" DT_REG; entry "cherry.txt" DT_REG].

(** The scenario on a terminal of 80 columns, in the C locale and under a
    dictionary collation, and on a terminal of 20 columns. *)
Definition c_system : os := system 80 (Some scenario_dir) true strcmp.
Definition dictionary_system : os :=
  system 80 (Some scenario_dir) true dictionary_collation.
Definition narrow_system : os := system 20 (Some scenario_dir) true strcmp.

(** A directory with nothing to show, and one that cannot be read. *)
Definition empty_system : os := system 80 (Some [entry "." DT_DIR; entry ".." DT_DIR]) true strcmp.
Definition unreadable_system : os := system 80 None false strcmp.

(** The scenario on a window that reports 0 columns, and on a system where
    no [execv] succeeds. *)
Definition zero_columns_system : os := system 0 (Some scenario_dir) true strcmp.

Definition no_exec_system : os :=
  {| os_ws_col := 80;
     os_readdir := fun _ => Some scenario_dir;
     os_opendir := fun _ => true;
     os_access_x := fun _ => false;
     os_realpath := fun path _ => path;
     os_strcoll := strcmp;
     os_fork_ok := true;
     os_execv_ok := fun _ => false |}.

(** A terminal of 20 columns showing one name of 17 bytes. *)
Definition tight_system : os :=
  system 20 (Some [entry "seventeen_letters" DT_REG]) true strcmp.

(** The session in /tmp at selection [sel], the keys [keys] typed, the
    terminal answering the two queries of the render that follows. *)
Definition scenario_session (sel : Z) (name : string) (keys : list Z) : machine :=
  session default_config "/tmp" sel name (keys ++ report_12_34 ++ report_12_34).

(** * Vocabulary of the further properties *)

(** The name starts with a dot. *)
Definition dot_name (s : string) : bool :=
  match s with
  | String "."%char _ => true
  | _ => false
  end.

(** Every byte of the text passes the test of peek.c 285: it is above
    0x1F and is not 0x7F.  Every byte from 0x80 on passes. *)
Fixpoint above_c0_not_del (s : string) : bool :=
  match s with
  | EmptyString => true
  | String c s' => printable c && above_c0_not_del s'
  end.

(** The number a decimal numeral denotes, read from the most significant
    digit, on top of [acc]. *)
Fixpoint uint_value (acc : Z) (d : Decimal.uint) : Z :=
  match d with
  | Decimal.Nil => acc
  | Decimal.D0 l => uint_value (acc * 10 + 0) l
  | Decimal.D1 l => uint_value (acc * 10 + 1) l
  | Decimal.D2 l => uint_value (acc * 10 + 2) l
  | Decimal.D3 l => uint_value (acc * 10 + 3) l
  | Decimal.D4 l => uint_value (acc * 10 + 4) l
  | Decimal.D5 l => uint_value (acc * 10 + 5) l
  | Decimal.D6 l => uint_value (acc * 10 + 6) l
  | Decimal.D7 l => uint_value (acc * 10 + 7) l
  | Decimal.D8 l => uint_value (acc * 10 + 8) l
  | Decimal.D9 l => uint_value (acc * 10 + 9) l
  end.

(** The report of a terminal whose cursor is at [row], [col], as
    [printf("\e[%d;%dR")] would write it. *)
Definition report_of (row col : Z) : list Z :=
  bytes_of (ESC ++ "[" ++ fmt_d row ++ ";" ++ fmt_d col ++ "R").

(** Input that [getchar] delivers ahead of a report and that the scan
    passes over: bytes other than ESC, and the sequences ESC [ x of the
    arrow keys, where x is neither a digit nor the semicolon. *)
Inductive passed_over : list Z -> Prop :=
| passed_nil : passed_over []
| passed_byte (g : Z) (rest : list Z) :
    g <> 27 -> passed_over rest -> passed_over (g :: rest)
| passed_arrow (a : Z) (rest : list Z) :
    (char_wrap a =? 59) = false ->
    ((char_wrap a <? 48) || (char_wrap a >? 57)) = true ->
    passed_over rest -> passed_over (27 :: 91 :: a :: rest).

(** The character [getopt] returned, as the switch of main sees it. *)
Definition flag_char (f : getopt_result) : Z :=
  match f with
  | Opt_a => 97 | Opt_B => 66 | Opt_c => 99 | Opt_d => 100 | Opt_F => 70
  | Opt_x => 120 | Opt_h => 104 | Opt_unknown _ => 63
  end.

(** Whether the flag with character [c] is among the options given. *)
Definition given (c : Z) (flags : list getopt_result) : bool :=
  existsb (fun f => flag_char f =? c) flags.

(** The configuration that the options [flags] make of [c]. *)
Definition configured (flags : list getopt_result) (c : config) : config :=
  {| cfg_show_dotfiles := cfg_show_dotfiles c || given 97 flags;
     cfg_color := cfg_color c && negb (given 66 flags);
     cfg_clear_trace := cfg_clear_trace c || given 99 flags;
     cfg_show_dir := cfg_show_dir c || given 100 flags;
     cfg_indicate := cfg_indicate c || given 70 flags;
     cfg_print_hex := cfg_print_hex c || given 120 flags |}.

(** While [x] has not ended the process (it returned, it waits for input,
    or it trapped), the attributes of the terminal are as before. *)
Definition leaves_tty {A : Type} (x : M A) : Prop :=
  forall m,
    match x m with
    | Ret _ m' => tty m' = tty m
    | Blocked m' => tty m' = tty m
    | Trapped m' => tty m' = tty m
    | _ => True
    end.

(** The keys that go up a directory, as they arrive on the input. *)
Definition ascend_keys : list (list Z) := [[75]; [107]; [27; 91; 65]].
(** * Properties *)

(** ** Arithmetic and strings *)

Lemma int_wrap_small (z : Z) :
  -2147483648 <= z <= INT_MAX -> int_wrap z = z.
Proof.
  unfold int_wrap, INT_MAX. intros H.
  rewrite Z.mod_small by lia. lia.
Qed.

Lemma size_wrap_small (z : Z) :
  0 <= z < 18446744073709551616 -> size_wrap z = z.
Proof. unfold size_wrap. intros H. apply Z.mod_small. exact H. Qed.

Lemma append_assoc (a b c : string) : ((a ++ b) ++ c)%string = (a ++ b ++ c)%string.
Proof. induction a as [|x a IH]; simpl; [reflexivity | now rewrite IH]. Qed.

Lemma append_nil_r (a : string) : (a ++ "")%string = a.
Proof. induction a as [|x a IH]; simpl; [reflexivity | now rewrite IH]. Qed.

Lemma strlen_append (a b : string) : strlen (a ++ b) = strlen a + strlen b.
Proof.
  unfold strlen. induction a as [|x a IH]; simpl String.length.
  - reflexivity.
  - rewrite !Nat2Z.inj_succ. lia.
Qed.

Lemma strlen_nonneg (s : string) : 0 <= strlen s.
Proof. unfold strlen. lia. Qed.

Lemma substring_all (s : string) (n : nat) :
  (String.length s <= n)%nat -> substring 0 n s = s.
Proof.
  revert n. induction s as [|c s IH]; intros [|n] H; simpl in *;
    try reflexivity; try lia.
  rewrite IH by lia. reflexivity.
Qed.

Lemma strlen_newlines (n : nat) : strlen (newlines n) = Z.of_nat n.
Proof.
  induction n as [|n IH]; [reflexivity|].
  change (newlines (S n)) with (LF ++ newlines n)%string.
  rewrite strlen_append, IH. change (strlen LF) with 1. lia.
Qed.

(** ** The loop of restore_tcattr *)

Lemma newline_loop_spec (k : nat) :
  forall l n out, Z.of_nat k = n + 1 - l ->
  newline_loop l n out = (out ++ newlines k)%string.
Proof.
  induction k as [|k IH]; intros l n out Hk; simp newline_loop;
    destruct (Z_le_gt_dec l n) as [Hle|Hgt]; simpl; try lia.
  - now rewrite append_nil_r.
  - rewrite (IH (l + 1) n) by lia. now rewrite append_assoc.
Qed.

Lemma newline_loop_none (l n : Z) (out : string) :
  n < l -> newline_loop l n out = out.
Proof.
  intros H. simp newline_loop.
  destruct (Z_le_gt_dec l n); simpl; [lia | reflexivity].
Qed.

(** ** The monad: running, totality, frames, restoration *)

Lemma bind_run {A B : Type} (x : M A) (k : A -> M B) (m m' : machine) (a : A) :
  x m = Ret a m' -> bind x k m = k a m'.
Proof. intros H. unfold bind. now rewrite H. Qed.

Lemma total_ret {A : Type} (a : A) : total (ret a).
Proof. intros m. now exists a, m. Qed.

Lemma total_bind {A B : Type} (x : M A) (k : A -> M B) :
  total x -> (forall a, total (k a)) -> total (bind x k).
Proof.
  intros Hx Hk m. destruct (Hx m) as (a & m1 & E).
  rewrite (bind_run x k m m1 a E). apply Hk.
Qed.

Lemma total_modify (g : machine -> machine) : total (modify g).
Proof. intros m. now exists tt, (g m). Qed.

Lemma total_gets {A : Type} (g : machine -> A) : total (gets g).
Proof. intros m. now exists (g m), m. Qed.

Lemma total_printf (s : string) : total (printf s).
Proof. intros m. eexists _, _. reflexivity. Qed.

Lemma total_putchar (s : string) : total (putchar s).
Proof. intros m. eexists _, _. reflexivity. Qed.

Lemma total_print_name (hex : bool) (s : string) :
  forall pc, total (print_name hex s pc).
Proof.
  induction s as [|c s IH]; intros pc; simpl.
  - apply total_ret.
  - destruct (printable c).
    + apply total_bind; [apply total_putchar | intros _; apply IH].
    + destruct hex; [|apply IH].
      apply total_bind; [apply total_printf | intros n; apply IH].
Qed.

Section Frames.
Context {X : Type} (f : machine -> X) (Hf : io_blind f).

Lemma keeps_ret {A : Type} (a : A) : keeps f (ret a).
Proof. intros m. reflexivity. Qed.

Lemma keeps_bind {A B : Type} (x : M A) (k : A -> M B) :
  keeps f x -> (forall a, keeps f (k a)) -> keeps f (bind x k).
Proof.
  intros Hx Hk m. specialize (Hx m). unfold bind.
  destruct (x m) as [a m1|s m1|p a m1|m1|m1]; simpl in *; try exact Hx.
  rewrite (Hk a m1). exact Hx.
Qed.

Lemma keeps_gets {A : Type} (g : machine -> A) : keeps f (gets g).
Proof. intros m. reflexivity. Qed.

Lemma keeps_modify (g : machine -> machine) :
  (forall m, f (g m) = f m) -> keeps f (modify g).
Proof. intros Hg m. apply Hg. Qed.

Lemma keeps_printf (s : string) : keeps f (printf s).
Proof. intros m. apply Hf. Qed.

Lemma keeps_putchar (s : string) : keeps f (putchar s).
Proof. intros m. apply Hf. Qed.

Lemma keeps_eprintf (s : string) : keeps f (eprintf s).
Proof. intros m. apply Hf. Qed.

Lemma keeps_getchar : keeps f getchar.
Proof.
  intros m. unfold getchar. destruct (stdin m); simpl; [reflexivity|].
  apply Hf.
Qed.

Lemma restore_tcattr_blind (m : machine) : f (restore_tcattr m) = f m.
Proof.
  destruct Hf as (Hout & _ & _ & Htty & _). unfold restore_tcattr.
  rewrite Htty. simpl. destruct (cfg_clear_trace (cfg m)); now rewrite !Hout.
Qed.

Lemma keeps_exit {A : Type} (s : Z) : keeps f (@exit A s).
Proof. intros m. apply restore_tcattr_blind. Qed.

Lemma keeps_CHECKBAD {A : Type} (err : Z) (msg : string) :
  keeps f (@CHECKBAD A err msg).
Proof.
  unfold CHECKBAD.
  apply keeps_bind; [apply keeps_putchar | intros _].
  apply keeps_bind; [apply keeps_eprintf | intros _]. apply keeps_exit.
Qed.

Lemma keeps_append_to_cd (suffix : string) : keeps f (append_to_cd suffix).
Proof.
  intros m. unfold append_to_cd.
  destruct (_ >? PATH_MAX); [apply keeps_CHECKBAD | reflexivity].
Qed.

Lemma keeps_get_entry_type (o : os) (e : dirent) : keeps f (get_entry_type o e).
Proof.
  unfold get_entry_type. destruct (_ && _); [apply keeps_ret|].
  apply keeps_bind; [apply keeps_append_to_cd | intros p].
  destruct (os_access_x o p); apply keeps_ret.
Qed.

Lemma keeps_get_cursor_pos : keeps f get_cursor_pos.
Proof.
  destruct Hf as (Hout & _ & Hin & _ & Hq).
  intros m. unfold get_cursor_pos, drain, bind, modify, printf. simpl.
  destruct (scan SeekEsc 0 0 (stdin m)) as [[[r c] rest]|]; simpl;
    now rewrite Hin, Hout, Hq.
Qed.

Lemma keeps_print_name (hex : bool) (s : string) :
  forall pc, keeps f (print_name hex s pc).
Proof.
  induction s as [|c s IH]; intros pc; simpl.
  - apply keeps_ret.
  - destruct (printable c).
    + apply keeps_bind; [apply keeps_putchar | intros _; apply IH].
    + destruct hex; [|apply IH].
      apply keeps_bind; [apply keeps_printf | intros n; apply IH].
Qed.
End Frames.

(** ** Running the renderer *)

(** Evaluation of the monad and of the record updates, and nothing else. *)
Ltac run_machine :=
  cbv beta iota delta
    [bind ret gets modify printf putchar eprintf
     set_d_current_name set_d_current_len set_d_length set_selected
     set_selected_name set_last_overflow_count set_tty set_stdin set_stdout
     set_stderr set_queued cfg d_current_name d_current_len d_length
     selected selected_name last_overflow_count tcattr_old tty stdin stdout
     stderr queued fst snd].

Lemma machine_eta (m : machine) :
  set_stdout (stdout m) (set_selected_name (selected_name m) m) = m.
Proof. destruct m; reflexivity. Qed.

Lemma print_name_run (hex : bool) (s : string) :
  forall pc m,
    print_name hex s pc m
    = Ret (name_count hex s pc) (set_stdout (stdout m ++ printed hex s) m).
Proof.
  induction s as [|c s IH]; intros pc m; simpl.
  - unfold ret. rewrite append_nil_r. f_equal. destruct m; reflexivity.
  - destruct (printable c).
    + unfold bind, putchar. rewrite IH. f_equal.
      unfold set_stdout; simpl. now rewrite append_assoc.
    + destruct hex; [|apply IH].
      unfold bind, printf. rewrite IH. f_equal.
      unfold set_stdout; simpl. now rewrite append_assoc.
Qed.

Lemma get_entry_type_run (o : os) (e : dirent) (m : machine) :
  entry_ok m e = true -> get_entry_type o e m = Ret (classify o m e) m.
Proof.
  unfold entry_ok, get_entry_type, classify. fold (type_known e).
  destruct (type_known e); simpl; [reflexivity|]. intros Hfit.
  unfold bind, append_to_cd.
  destruct (_ >? PATH_MAX) eqn:Hgt; [lia|].
  destruct (os_access_x o _); reflexivity.
Qed.

Lemma display_entry_run (o : os) (i : Z) (e : dirent) (pc nc : Z) (m : machine) :
  entry_ok m e = true ->
  display_entry o i e pc nc m
  = Ret (entry_counts o m e pc nc) (entry_machine o i e pc m).
Proof.
  intros Hok. unfold display_entry.
  rewrite (bind_run _ _ m m _ (get_entry_type_run o e m Hok)).
  unfold entry_counts, entry_machine, entry_text, has_indicator, wraps_before.
  destruct (classify o m e) as [color ind]. clear Hok.
  destruct m as [c dn dl len sel sn ov told t inp out err q].
  run_machine.
  destruct (i =? sel); destruct (cfg_color c);
    destruct color as [col|];
    destruct (size_wrap _ >=? os_ws_col o);
    destruct (cfg_indicate c && negb (is_nul ind));
    run_machine; rewrite print_name_run; run_machine;
    rewrite ?append_assoc, ?append_nil_r; reflexivity.
Qed.

Lemma same_view_entry_machine (o : os) (i : Z) (e : dirent) (pc : Z) (m : machine) :
  same_view (entry_machine o i e pc m) m.
Proof.
  unfold same_view, entry_machine.
  destruct (i =? selected m); repeat split; reflexivity.
Qed.

Lemma same_view_classify (o : os) (m1 m : machine) (e : dirent) :
  same_view m1 m -> classify o m1 e = classify o m e.
Proof.
  intros (Hc & Hs & Hl & Hn). unfold classify, cur_name. now rewrite Hl, Hn.
Qed.

Lemma same_view_entry_ok (m1 m : machine) (e : dirent) :
  same_view m1 m -> entry_ok m1 e = entry_ok m e.
Proof. intros (Hc & Hs & Hl & Hn). unfold entry_ok. now rewrite Hl. Qed.

Lemma same_view_entry_text (o : os) (m1 m : machine) (i : Z) (e : dirent) (b : bool) :
  same_view m1 m -> entry_text o m1 i e b = entry_text o m i e b.
Proof.
  intros H. unfold entry_text. rewrite (same_view_classify o m1 m e H).
  destruct H as (Hc & Hs & Hl & Hn). now rewrite Hc, Hs.
Qed.

Lemma same_view_entry_counts (o : os) (m1 m : machine) (e : dirent) (pc nc : Z) :
  same_view m1 m -> entry_counts o m1 e pc nc = entry_counts o m e pc nc.
Proof.
  intros H. unfold entry_counts. rewrite (same_view_classify o m1 m e H).
  destruct H as (Hc & Hs & Hl & Hn). now rewrite Hc.
Qed.

Lemma same_view_loop_counts (o : os) (m1 m : machine) (es : list dirent) :
  same_view m1 m ->
  forall pc nc, loop_counts o m1 es pc nc = loop_counts o m es pc nc.
Proof.
  intros H. induction es as [|e es IH]; intros pc nc; cbn [loop_counts];
    [reflexivity|].
  rewrite (same_view_entry_counts o m1 m e pc nc H). apply IH.
Qed.

Lemma same_view_loop_output (o : os) (m1 m : machine) (es : list dirent) :
  same_view m1 m ->
  forall i pc, loop_output o m1 es i pc = loop_output o m es i pc.
Proof.
  intros H. induction es as [|e es IH]; intros i pc; cbn [loop_output];
    [reflexivity|].
  rewrite (same_view_entry_text o m1 m i e _ H).
  rewrite (same_view_entry_counts o m1 m e pc 0 H). now rewrite IH.
Qed.

Lemma same_view_forallb_ok (m1 m : machine) (es : list dirent) :
  same_view m1 m -> forallb (entry_ok m1) es = forallb (entry_ok m) es.
Proof.
  intros H. induction es as [|e es IH]; simpl; [reflexivity|].
  now rewrite (same_view_entry_ok m1 m e H), IH.
Qed.

Lemma entry_counts_fst (o : os) (m : machine) (e : dirent) (pc nc nc' : Z) :
  fst (entry_counts o m e pc nc) = fst (entry_counts o m e pc nc').
Proof. reflexivity. Qed.

Lemma display_loop_run (o : os) (es : list dirent) :
  forall i pc nc m,
    forallb (entry_ok m) es = true ->
    display_loop o es i pc nc m
    = Ret (loop_counts o m es pc nc) (loop_machine o es i pc m).
Proof.
  induction es as [|e es IH]; intros i pc nc m Hok;
    cbn [display_loop loop_counts].
  - unfold ret, loop_machine. cbn [loop_output pick_name].
    rewrite append_nil_r. now rewrite machine_eta.
  - cbn [forallb] in Hok. apply andb_prop in Hok as [He Hes].
    rewrite (bind_run _ _ m _ _ (display_entry_run o i e pc nc m He)).
    pose proof (same_view_entry_machine o i e pc m) as Hv.
    rewrite IH by (now rewrite (same_view_forallb_ok _ m es Hv)).
    rewrite (same_view_loop_counts o _ m es Hv).
    f_equal. unfold loop_machine.
    rewrite (same_view_loop_output o _ m es Hv).
    rewrite (entry_counts_fst o m e pc nc 0).
    unfold entry_machine. cbn [loop_output pick_name].
    destruct (i =? selected m); destruct m; run_machine;
      now rewrite append_assoc.
Qed.

Lemma get_cursor_pos_run (m : machine) (row col : Z) (rest : list Z) :
  scan SeekEsc 0 0 (stdin m) = Some (row, col, rest) ->
  get_cursor_pos m
  = Ret (row, col)
      (set_stdin rest
         (set_stdout (stdout m ++ QUERY) (set_queued (tl (queued m)) m))).
Proof.
  intros H. unfold get_cursor_pos, drain, bind, modify, printf. simpl.
  now rewrite H.
Qed.

Lemma draw_run (o : os) (d_children : option (list dirent)) (m : machine)
    (r1 c1 r2 c2 : Z) (rest : list Z) :
  forallb (entry_ok m) (entries_of d_children) = true ->
  (os_ws_col o =? 0) = false ->
  answers_twice (stdin m) = Some (r1, c1, (r2, c2), rest) ->
  draw o d_children m = Ret tt (drawn o (entries_of d_children) m r2 c1 rest).
Proof.
  intros Hok Hws Hans. unfold answers_twice in Hans.
  destruct (scan SeekEsc 0 0 (stdin m)) as [[[a b] inp1]|] eqn:H1;
    [|discriminate].
  destruct (scan SeekEsc 0 0 inp1) as [[[a' b'] inp2]|] eqn:H2;
    [|discriminate].
  injection Hans as -> -> -> -> ->.
  set (es := entries_of d_children) in *.
  assert (Hloop : forall (m3 : machine) pc,
             same_view m3 m -> selected_name m3 = selected_name m ->
             display_loop o es 0 pc 0 m3
             = Ret (loop_counts o m es pc 0)
                 (set_stdout (stdout m3 ++ loop_output o m es 0 pc)
                    (set_selected_name
                       (pick_name es 0 (selected m) (selected_name m)) m3))).
  { intros m3 pc Hv Hn.
    rewrite display_loop_run by (now rewrite (same_view_forallb_ok m3 m es Hv)).
    rewrite (same_view_loop_counts o m3 m es Hv). unfold loop_machine.
    rewrite (same_view_loop_output o m3 m es Hv), Hn.
    destruct Hv as (_ & -> & _). reflexivity. }
  unfold drawn, draw_text, start_count, overflow_of, reposition_text, draw.
  unfold header_text, marker_text.
  clear Hok. destruct m as [c dn dl len sel sn ov told t inp out err q].
  unfold cur_name in *. run_machine. cbn [stdin] in H1.
  rewrite (get_cursor_pos_run _ r1 c1 inp1) by exact H1.
  destruct (cfg_show_dir c); destruct (len <? 0);
    try destruct (len =? 0); run_machine;
    (rewrite Hloop by (repeat split; reflexivity)); run_machine;
    (rewrite (get_cursor_pos_run _ r2 c2 rest) by exact H2); run_machine;
    rewrite Hws;
    match goal with
    | |- context [negb (?x =? 0)] => destruct (negb (x =? 0))
    end; run_machine; rewrite ?append_assoc, ?append_nil_r; reflexivity.
Qed.

Lemma display_unfold (o : os) (m : machine) :
  display o m
  = if os_opendir o (cur_name m)
    then draw o (listing o m) (prepared o m)
    else CHECKBAD 1 ("Could not open " ++ cur_name m) (scanned o m).
Proof.
  unfold display, prepared, scanned, listing_count, listing.
  unfold bind, gets, modify. simpl.
  destruct (scandir o (cur_name m) (display_filter (cfg m)) (alphasort o))
    as [l|]; simpl.
  - destruct (int_wrap (Z.of_nat (List.length l)) =? -1); simpl;
      destruct (os_opendir o (cur_name m)); reflexivity.
  - destruct (os_opendir o (cur_name m)); reflexivity.
Qed.

Lemma same_view_scanned (o : os) (m : machine) :
  cfg (scanned o m) = cfg m /\
  d_current_len (scanned o m) = d_current_len m /\
  d_current_name (scanned o m) = d_current_name m /\
  stdin (scanned o m) = stdin m /\ stdout (scanned o m) = stdout m /\
  selected (scanned o m) = selected m /\
  d_length (scanned o m) = listing_count o m.
Proof.
  unfold scanned. simpl.
  destruct (listing_count o m =? -1); repeat split; reflexivity.
Qed.

Lemma prepared_fields (o : os) (m : machine) :
  cfg (prepared o m) = cfg m /\
  d_current_len (prepared o m) = d_current_len m /\
  d_current_name (prepared o m) = d_current_name m /\
  stdin (prepared o m) = stdin m /\ stdout (prepared o m) = stdout m /\
  d_length (prepared o m) = listing_count o m /\
  selected_name (prepared o m) = selected_name (scanned o m).
Proof.
  destruct (same_view_scanned o m) as (H1 & H2 & H3 & H4 & H5 & H6 & H7).
  unfold prepared, validate_selection.
  destruct (d_length (scanned o m) <? 1);
    [|destruct (selected (scanned o m) <? SELECTED_MIN);
      [|destruct (selected (scanned o m) >? SELECTED_MAX (scanned o m))]];
    simpl; repeat split; assumption.
Qed.

Lemma entry_ok_prepared (o : os) (m : machine) (es : list dirent) :
  forallb (entry_ok (prepared o m)) es = forallb (entry_ok m) es.
Proof.
  destruct (prepared_fields o m) as (_ & Hl & _).
  induction es as [|e es IH]; simpl; [reflexivity|].
  unfold entry_ok at 1. rewrite Hl. fold (entry_ok m e). now rewrite IH.
Qed.

(** Under [renders], display returns, and the machine it leaves is known. *)
Lemma display_run (o : os) (m : machine) :
  renders o m (stdin m) = true ->
  exists r1 c1 r2 c2 rest,
    answers_twice (stdin m) = Some (r1, c1, (r2, c2), rest) /\
    display o m
    = Ret tt (drawn o (entries_of (listing o m)) (prepared o m) r2 c1 rest).
Proof.
  unfold renders. intros H.
  apply andb_prop in H as [H Hans]. apply andb_prop in H as [H Hlen].
  apply andb_prop in H as [H Hok]. apply andb_prop in H as [Hopen Hws].
  destruct (answers_twice (stdin m)) as [[[[r1 c1] [r2 c2]] rest]|] eqn:Ha;
    [|discriminate].
  exists r1, c1, r2, c2, rest. split; [reflexivity|].
  rewrite display_unfold, Hopen.
  apply (draw_run o (listing o m) (prepared o m) r1 c1 r2 c2 rest).
  - now rewrite entry_ok_prepared.
  - now apply negb_true_iff.
  - destruct (prepared_fields o m) as (_ & _ & _ & -> & _). exact Ha.
Qed.

(** ** The name the loop picks *)

Lemma pick_name_miss (es : list dirent) :
  forall i sel old,
    0 <= i -> sel < i -> i + Z.of_nat (List.length es) <= INT_MAX ->
    pick_name es i sel old = old.
Proof.
  induction es as [|e es IH]; intros i sel old Hi Hlt Hfit; simpl;
    [reflexivity|].
  simpl List.length in Hfit. rewrite Nat2Z.inj_succ in Hfit.
  rewrite int_wrap_small by (unfold INT_MAX in *; lia).
  destruct (i =? sel) eqn:E; [lia|]. apply IH; lia.
Qed.

Lemma pick_name_hit (es : list dirent) :
  forall i sel old,
    0 <= i -> i <= sel < i + Z.of_nat (List.length es) ->
    i + Z.of_nat (List.length es) <= INT_MAX ->
    pick_name es i sel old = memcpy_name (d_name (entry_at es (sel - i))).
Proof.
  induction es as [|e es IH]; intros i sel old Hi Hsel Hfit;
    simpl List.length in *; [lia|].
  rewrite Nat2Z.inj_succ in Hsel, Hfit. simpl pick_name.
  rewrite int_wrap_small by (unfold INT_MAX in *; lia).
  destruct (i =? sel) eqn:E.
  - apply Z.eqb_eq in E. subst sel. rewrite pick_name_miss by lia.
    unfold entry_at. now rewrite Z.sub_diag.
  - apply Z.eqb_neq in E. rewrite IH by lia.
    unfold entry_at. replace (Z.to_nat (sel - i)) with (S (Z.to_nat (sel - (i + 1))))
      by lia. reflexivity.
Qed.

(** ** What a render leaves behind *)

Lemma selected_prepared (o : os) (m : machine) :
  selected (prepared o m) = validated (listing_count o m) (selected m).
Proof.
  destruct (same_view_scanned o m) as (_ & _ & _ & _ & _ & Hs & Hl).
  unfold prepared, validate_selection, validated, SELECTED_MAX.
  rewrite Hl, Hs.
  destruct (listing_count o m <? 1); [reflexivity|].
  destruct (selected m <? SELECTED_MIN); [reflexivity|].
  destruct (selected m >? listing_count o m - 1); [reflexivity | exact Hs].
Qed.

Lemma listing_count_some (o : os) (m : machine) (l : list dirent) :
  listing o m = Some l -> Z.of_nat (List.length l) <= INT_MAX ->
  listing_count o m = Z.of_nat (List.length l).
Proof.
  intros Hl Hfit. unfold listing_count. rewrite Hl.
  apply int_wrap_small. lia.
Qed.

Lemma selected_name_scanned (o : os) (m : machine) :
  Z.of_nat (List.length (entries_of (listing o m))) <= INT_MAX ->
  selected_name (scanned o m)
  = match listing o m with Some _ => selected_name m | None => EmptyString end.
Proof.
  intros Hfit. unfold scanned. simpl.
  destruct (listing o m) as [l|] eqn:Hl.
  - rewrite (listing_count_some o m l Hl Hfit).
    destruct (Z.of_nat (List.length l) =? -1) eqn:E; [|reflexivity].
    apply Z.eqb_eq in E. lia.
  - unfold listing_count. rewrite Hl. reflexivity.
Qed.

Lemma renders_fit (o : os) (m : machine) (inp : list Z) :
  renders o m inp = true ->
  Z.of_nat (List.length (entries_of (listing o m))) <= INT_MAX.
Proof.
  unfold renders. intros H.
  apply andb_prop in H as [H _]. apply andb_prop in H as [_ H].
  now apply Z.leb_le.
Qed.

(** Under [renders], display returns; the fields of the machine it leaves. *)
Lemma display_effect (o : os) (m : machine) :
  renders o m (stdin m) = true ->
  exists m' r1 c1 r2 c2,
    display o m = Ret tt m' /\
    answers_twice (stdin m) = Some (r1, c1, (r2, c2), stdin m') /\
    cfg m' = cfg m /\ d_current_name m' = d_current_name m /\
    d_current_len m' = d_current_len m /\
    d_length m' = listing_count o m /\
    selected m' = validated (listing_count o m) (selected m) /\
    selected_name m'
    = pick_name (entries_of (listing o m)) 0 (selected m')
        match listing o m with
        | Some _ => selected_name m
        | None => EmptyString
        end /\
    stdout m'
    = (stdout m
         ++ draw_text o (entries_of (listing o m)) (prepared o m) r2 c1)%string.
Proof.
  intros Hr. pose proof (renders_fit o m _ Hr) as Hfit.
  destruct (display_run o m Hr) as (r1 & c1 & r2 & c2 & rest & Hans & Hrun).
  destruct (prepared_fields o m) as (Hc & Hl & Hn & Hin & Hout & Hlen & Hsn).
  exists (drawn o (entries_of (listing o m)) (prepared o m) r2 c1 rest),
    r1, c1, r2, c2.
  split; [exact Hrun|]. unfold drawn. cbn [stdin set_last_overflow_count set_stdin
    cfg d_current_name d_current_len d_length selected selected_name stdout
    set_stdout set_selected_name].
  repeat split; try assumption.
  - apply selected_prepared.
  - rewrite Hsn, (selected_name_scanned o m Hfit). reflexivity.
  - now rewrite Hout.
Qed.

Lemma listing_same (o : os) (m1 m : machine) :
  cfg m1 = cfg m -> d_current_name m1 = d_current_name m ->
  listing o m1 = listing o m.
Proof. intros Hc Hn. unfold listing, cur_name. now rewrite Hc, Hn. Qed.

Lemma renders_same (o : os) (m1 m : machine) (inp : list Z) :
  cfg m1 = cfg m -> d_current_name m1 = d_current_name m ->
  d_current_len m1 = d_current_len m ->
  renders o m1 inp = renders o m inp.
Proof.
  intros Hc Hn Hl. unfold renders.
  rewrite (listing_same o m1 m Hc Hn). unfold cur_name. rewrite Hn.
  f_equal. f_equal. f_equal.
  induction (entries_of (listing o m)) as [|e es IH]; simpl; [reflexivity|].
  unfold entry_ok at 1 3. now rewrite Hl, IH.
Qed.

(** ** Frames of the renderer and of the loop *)

Ltac blind :=
  unfold loop_blind, render_blind, draw_blind, io_blind;
  repeat split; intros; reflexivity.

Ltac frame_step :=
  first
    [ apply keeps_ret
    | apply keeps_gets
    | apply keeps_printf
    | apply keeps_putchar
    | apply keeps_eprintf
    | apply keeps_getchar
    | apply keeps_get_cursor_pos
    | apply keeps_exit
    | apply keeps_CHECKBAD
    | apply keeps_append_to_cd
    | apply keeps_get_entry_type
    | apply keeps_print_name
    | apply keeps_bind; [|intros ?]
    | match goal with
      | |- keeps _ (if ?b then _ else _) => destruct b
      | |- keeps _ (match ?x with Some _ => _ | None => _ end) => destruct x
      end ].

Section DrawFrames.
Context {X : Type} (f : machine -> X) (Hf : draw_blind f).

Let Hio : io_blind f := proj1 Hf.
Let Hname : forall v m, f (set_selected_name v m) = f m := proj1 (proj2 Hf).
Let Hov : forall v m, f (set_last_overflow_count v m) = f m :=
  proj2 (proj2 Hf).

Lemma keeps_display_entry (o : os) (i : Z) (e : dirent) (pc nc : Z) :
  keeps f (display_entry o i e pc nc).
Proof.
  unfold display_entry.
  repeat (frame_step; try exact Hio).
  all: try (apply keeps_modify; intros; apply Hname).
Qed.

Lemma keeps_display_loop (o : os) (es : list dirent) :
  forall i pc nc, keeps f (display_loop o es i pc nc).
Proof.
  induction es as [|e es IH]; intros i pc nc; cbn [display_loop].
  - apply keeps_ret.
  - apply keeps_bind; [apply keeps_display_entry | intros r; apply IH].
Qed.

Lemma keeps_draw (o : os) (d_children : option (list dirent)) :
  keeps f (draw o d_children).
Proof.
  unfold draw.
  repeat (frame_step; try exact Hio).
  all: try apply keeps_display_loop.
  all: try (apply keeps_modify; intros; apply Hov).
  intros m. reflexivity.
Qed.
End DrawFrames.

Lemma keeps_display {X : Type} (f : machine -> X) (o : os) :
  render_blind f -> keeps f (display o).
Proof.
  intros (Hd & Hlen & Hsel). pose proof (proj1 Hd) as Hio.
  destruct Hd as (Hio' & Hname & Hov). unfold display.
  repeat (first [ apply (keeps_draw f (conj Hio (conj Hname Hov)))
                | frame_step; try exact Hio ]).
  all: try (apply keeps_modify; intros; first [apply Hlen | apply Hname]).
  apply keeps_modify. intros m. unfold validate_selection.
  destruct (d_length m <? 1); [apply Hsel|].
  destruct (selected m <? SELECTED_MIN); [apply Hsel|].
  destruct (selected m >? SELECTED_MAX m); [apply Hsel | reflexivity].
Qed.

Section LoopFrames.
Context {X : Type} (f : machine -> X) (Hf : loop_blind f).

Let Hr : render_blind f := proj1 Hf.
Let Hio : io_blind f := proj1 (proj1 Hr).

Lemma keeps_cd (o : os) (to : string) : keeps f (cd o to).
Proof.
  pose proof Hf as ((Hd & Hlen & Hsel) & Hcn & Hcl). unfold cd.
  repeat (frame_step; try exact Hio).
  all: apply keeps_modify; intros;
    first [apply Hcn | apply Hcl | apply Hlen | apply Hsel].
Qed.

Lemma keeps_open_selection (o : os) (opener : option string) (do_fork : bool) :
  keeps f (open_selection o opener do_fork).
Proof.
  unfold open_selection.
  repeat (frame_step; try exact Hio).
  all: try (apply keeps_modify; intros; now apply restore_tcattr_blind).
  all: intros m; reflexivity.
Qed.

Lemma keeps_select_left : keeps f select_left.
Proof.
  pose proof Hf as ((Hd & Hlen & Hsel) & _).
  apply keeps_modify. intros m. apply Hsel.
Qed.

Lemma keeps_select_right : keeps f select_right.
Proof.
  pose proof Hf as ((Hd & Hlen & Hsel) & _).
  apply keeps_modify. intros m. apply Hsel.
Qed.

Lemma keeps_cd_selected (o : os) : keeps f (cd_selected o).
Proof.
  unfold cd_selected. apply keeps_bind; [apply keeps_gets | intros n].
  apply keeps_cd.
Qed.

Lemma keeps_arrow_key (o : os) (a : Z) : keeps f (arrow_key o a).
Proof.
  unfold arrow_key.
  destruct (is_key a "A"); [apply keeps_cd|].
  destruct (is_key a "B"); [apply keeps_cd_selected|].
  destruct (is_key a "D"); [apply keeps_select_left|].
  destruct (is_key a "C"); [apply keeps_select_right | apply keeps_ret].
Qed.

Lemma keeps_on_escape (o : os) : keeps f (on_escape o).
Proof.
  unfold on_escape.
  apply keeps_bind; [now apply keeps_getchar | intros b].
  destruct (negb (is_key b "[")); [now apply keeps_exit|].
  apply keeps_bind; [now apply keeps_getchar | intros a].
  apply keeps_bind; [apply keeps_arrow_key | intros _].
  now apply keeps_display.
Qed.

Lemma keeps_on_key (o : os) (k : Z) : keeps f (on_key o k).
Proof.
  unfold on_key.
  repeat match goal with
         | |- keeps _ (if ?b then _ else _) => destruct b
         end.
  all: try (apply keeps_bind;
            [apply keeps_open_selection | intros r; now apply keeps_exit]).
  all: try (apply keeps_bind; [|intros _; now apply keeps_display]).
  all: first [ apply keeps_cd | apply keeps_cd_selected
             | apply keeps_select_left | apply keeps_select_right
             | now apply keeps_exit | apply keeps_on_escape
             | apply keeps_ret ].
Qed.

Lemma keeps_key_step (o : os) : keeps f (key_step o).
Proof.
  unfold key_step.
  apply keeps_bind; [now apply keeps_getchar | intros k; apply keeps_on_key].
Qed.

Lemma keeps_main_loop (o : os) (passes : nat) : keeps f (main_loop o passes).
Proof.
  induction passes as [|n IH]; cbn [main_loop]; [apply keeps_ret|].
  apply keeps_bind; [apply keeps_key_step | intros _; exact IH].
Qed.
End LoopFrames.

(** ** When a render returns *)

Lemma bind_exited {A B : Type} (x : M A) (k : A -> M B) (m m1 : machine) (s : Z) :
  x m = Exited s m1 -> bind x k m = Exited s m1.
Proof. intros H. unfold bind. now rewrite H. Qed.

Lemma bind_ret_inv {A B : Type} (x : M A) (k : A -> M B) (m m' : machine) (b : B) :
  bind x k m = Ret b m' -> exists a m1, x m = Ret a m1 /\ k a m1 = Ret b m'.
Proof.
  unfold bind. destruct (x m) as [a m1|s m1|p a m1|m1|m1]; try discriminate.
  intros H. now exists a, m1.
Qed.

Lemma get_cursor_pos_ret (m m' : machine) (pos : Z * Z) :
  get_cursor_pos m = Ret pos m' ->
  exists rest,
    scan SeekEsc 0 0 (stdin m) = Some (fst pos, snd pos, rest) /\
    stdin m' = rest.
Proof.
  unfold get_cursor_pos, drain, bind, modify, printf.
  cbn [stdin set_stdout set_queued].
  destruct (scan SeekEsc 0 0 (stdin m)) as [[[r c] rest]|]; [|discriminate].
  intros H. injection H as <- <-. now exists rest.
Qed.

Lemma get_entry_type_exits (o : os) (e : dirent) (m : machine) :
  entry_ok m e = false -> exists m1, get_entry_type o e m = Exited 1 m1.
Proof.
  unfold entry_ok, get_entry_type. fold (type_known e).
  destruct (type_known e); cbn [orb]; [discriminate|]. intros Hfit.
  unfold bind, append_to_cd.
  destruct (_ >? PATH_MAX) eqn:Hgt; [|lia].
  eexists. reflexivity.
Qed.

Lemma display_entry_exits (o : os) (i : Z) (e : dirent) (pc nc : Z) (m : machine) :
  entry_ok m e = false ->
  exists m1, display_entry o i e pc nc m = Exited 1 m1.
Proof.
  intros He. destruct (get_entry_type_exits o e m He) as (m1 & Hx).
  exists m1. unfold display_entry. now apply bind_exited.
Qed.

Lemma display_loop_ret (o : os) (es : list dirent) :
  forall i pc nc m r m',
    display_loop o es i pc nc m = Ret r m' ->
    forallb (entry_ok m) es = true.
Proof.
  induction es as [|e es IH]; intros i pc nc m r m' H; [reflexivity|].
  cbn [display_loop forallb] in *.
  destruct (entry_ok m e) eqn:He.
  - rewrite (bind_run _ _ m _ _ (display_entry_run o i e pc nc m He)) in H.
    apply IH in H.
    now rewrite (same_view_forallb_ok _ m es (same_view_entry_machine o i e pc m))
      in H.
  - exfalso. destruct (display_entry_exits o i e pc nc m He) as (m1 & Hx).
    rewrite (bind_exited _ _ m m1 1 Hx) in H. discriminate.
Qed.

Lemma forallb_entry_ok_len (m1 m : machine) (es : list dirent) :
  d_current_len m1 = d_current_len m ->
  forallb (entry_ok m1) es = forallb (entry_ok m) es.
Proof.
  intros Hl. induction es as [|e es IH]; cbn [forallb]; [reflexivity|].
  unfold entry_ok at 1. rewrite Hl. fold (entry_ok m e). now rewrite IH.
Qed.

(** [draw] returns only when the entries pass, the window has columns and
    the terminal answers twice. *)
Lemma draw_ret (o : os) (d_children : option (list dirent)) (m m' : machine) :
  draw o d_children m = Ret tt m' ->
  forallb (entry_ok m) (entries_of d_children) = true /\
  (os_ws_col o =? 0) = false /\
  exists r1 c1 r2 c2 rest,
    answers_twice (stdin m) = Some (r1, c1, (r2, c2), rest).
Proof.
  intros H. unfold draw in H.
  unfold bind at 1, gets at 1 in H. unfold bind at 1, gets at 1 in H.
  unfold bind at 1, gets at 1 in H. unfold bind at 1, printf at 1 in H.
  apply bind_ret_inv in H as (before & m0 & Hq1 & H).
  assert (Hl0 : d_current_len m0 = d_current_len m).
  { pose proof (keeps_get_cursor_pos d_current_len ltac:(blind)
                  (set_stdout (stdout m ++ ESC ++ "[u" ++ ESC ++ "[0J"
                                 ++ ESC ++ "[2K") m)) as K.
    rewrite Hq1 in K. exact K. }
  apply get_cursor_pos_ret in Hq1 as (inp1 & H1 & Hin0).
  cbn [stdin set_stdout] in H1.
  apply bind_ret_inv in H as (pc1 & m1 & Hh & H).
  assert (Hm1 : stdin m1 = inp1 /\ d_current_len m1 = d_current_len m).
  { destruct (cfg_show_dir (cfg m)); unfold bind, printf, ret in Hh;
      injection Hh as <- <-; split; assumption. }
  apply bind_ret_inv in H as (u & m2 & Hr & H).
  assert (Hm2 : stdin m2 = inp1 /\ d_current_len m2 = d_current_len m).
  { unfold printf in Hr. injection Hr as <- <-. exact Hm1. }
  apply bind_ret_inv in H as (pc2 & m3 & Hm & H).
  assert (Hm3 : stdin m3 = inp1 /\ d_current_len m3 = d_current_len m).
  { destruct (d_length m <? 0); [|destruct (d_length m =? 0)];
      unfold bind, printf, ret in Hm; injection Hm as <- <-; exact Hm2. }
  apply bind_ret_inv in H as (r & m4 & Hloop & H).
  pose proof (display_loop_ret o _ _ _ _ _ _ _ Hloop) as Hok.
  rewrite (display_loop_run o _ _ _ _ _ Hok) in Hloop.
  injection Hloop as <- <-.
  apply bind_ret_inv in H as (after & m5 & Hq2 & H).
  apply get_cursor_pos_ret in Hq2 as (rest & H2 & _).
  cbn [loop_machine stdin set_stdout set_selected_name] in H2.
  destruct Hm3 as [Hin3 Hl3]. rewrite Hin3 in H2.
  split; [now rewrite <- (forallb_entry_ok_len m3 m _ Hl3)|].
  split.
  - destruct (os_ws_col o =? 0); [discriminate | reflexivity].
  - exists (fst before), (snd before), (fst after), (snd after), rest.
    unfold answers_twice. now rewrite H1, H2.
Qed.

(** [display] returns only under [renders]. *)
Lemma display_ret_renders (o : os) (m m' : machine) :
  display o m = Ret tt m' ->
  Z.of_nat (List.length (entries_of (listing o m))) <= INT_MAX ->
  renders o m (stdin m) = true.
Proof.
  intros H Hfit. rewrite display_unfold in H.
  destruct (os_opendir o (cur_name m)) eqn:Hopen; [|discriminate].
  apply draw_ret in H as (Hok & Hws & r1 & c1 & r2 & c2 & rest & Hans).
  rewrite entry_ok_prepared in Hok.
  destruct (prepared_fields o m) as (_ & _ & _ & Hin & _).
  rewrite Hin in Hans.
  unfold renders. rewrite Hopen, Hws, Hok, Hans.
  apply Z.leb_le in Hfit. rewrite Hfit. reflexivity.
Qed.

(** ** Every end of the process restores the terminal *)

Lemma ends_restored_total {A : Type} (x : M A) : total x -> ends_restored x.
Proof. intros H m. destruct (H m) as (a & m' & ->). exact I. Qed.

Lemma ends_restored_bind {A B : Type} (x : M A) (k : A -> M B) :
  ends_restored x -> (forall a, ends_restored (k a)) -> ends_restored (bind x k).
Proof.
  intros Hx Hk m. specialize (Hx m). unfold bind.
  destruct (x m) as [a m1|s m1|p a m1|m1|m1]; try exact Hx.
  apply Hk.
Qed.

Lemma ends_restored_getchar : ends_restored getchar.
Proof. intros m. unfold getchar. destruct (stdin m); exact I. Qed.

Lemma ends_restored_get_cursor_pos : ends_restored get_cursor_pos.
Proof.
  intros m. unfold get_cursor_pos, drain, bind, modify, printf.
  destruct (scan _ _ _ _) as [[[r c] rest]|]; exact I.
Qed.

Lemma ends_restored_exit {A : Type} (s : Z) : ends_restored (@exit A s).
Proof. intros m. exists m. now left. Qed.

Lemma ends_restored_CHECKBAD {A : Type} (err : Z) (msg : string) :
  ends_restored (@CHECKBAD A err msg).
Proof. intros m. unfold CHECKBAD, bind, putchar, eprintf, exit. eexists. now left. Qed.

Lemma ends_restored_append_to_cd (suffix : string) :
  ends_restored (append_to_cd suffix).
Proof.
  intros m. unfold append_to_cd.
  destruct (_ >? PATH_MAX); [apply ends_restored_CHECKBAD | exact I].
Qed.

Ltac restoring_step :=
  first
    [ apply ends_restored_getchar
    | apply ends_restored_get_cursor_pos
    | apply ends_restored_exit
    | apply ends_restored_CHECKBAD
    | apply ends_restored_append_to_cd
    | apply ends_restored_total;
      first [ apply total_ret | apply total_modify | apply total_gets
            | apply total_printf | apply total_putchar
            | apply total_print_name ]
    | apply ends_restored_bind; [|intros ?]
    | match goal with
      | |- ends_restored (if ?b then _ else _) => destruct b
      | |- ends_restored (match ?x with Some _ => _ | None => _ end) =>
          destruct x
      end ].

Lemma ends_restored_get_entry_type (o : os) (e : dirent) :
  ends_restored (get_entry_type o e).
Proof. unfold get_entry_type. repeat restoring_step. Qed.

Lemma ends_restored_display_entry (o : os) (i : Z) (e : dirent) (pc nc : Z) :
  ends_restored (display_entry o i e pc nc).
Proof.
  unfold display_entry.
  repeat first [apply ends_restored_get_entry_type | restoring_step].
Qed.

Lemma ends_restored_display_loop (o : os) (es : list dirent) :
  forall i pc nc, ends_restored (display_loop o es i pc nc).
Proof.
  induction es as [|e es IH]; intros i pc nc; cbn [display_loop].
  - apply ends_restored_total, total_ret.
  - apply ends_restored_bind; [apply ends_restored_display_entry|].
    intros r. apply IH.
Qed.

Lemma ends_restored_draw (o : os) (d_children : option (list dirent)) :
  ends_restored (draw o d_children).
Proof.
  unfold draw.
  repeat first [apply ends_restored_display_loop | restoring_step].
  intros m. exact I.
Qed.

Lemma ends_restored_display (o : os) : ends_restored (display o).
Proof.
  unfold display.
  repeat first [apply ends_restored_draw | restoring_step].
Qed.

Lemma ends_restored_cd (o : os) (to : string) : ends_restored (cd o to).
Proof. unfold cd. repeat restoring_step. Qed.

Lemma ends_restored_open_selection (o : os) (opener : option string)
    (do_fork : bool) :
  ends_restored (open_selection o opener do_fork).
Proof.
  unfold open_selection.
  apply ends_restored_bind; [restoring_step | intros name].
  apply ends_restored_bind; [restoring_step | intros path].
  destruct do_fork; [repeat restoring_step|].
  intros m. unfold bind, modify, gets, putchar, ret.
  cbn [cfg set_stdout]. 
  destruct (cfg_clear_trace (cfg (restore_tcattr m)));
    destruct (os_execv_ok o _).
  - exists m. now right.
  - apply (ends_restored_CHECKBAD 1 _ _).
  - exists m. now left.
  - apply (ends_restored_CHECKBAD 1 _ _).
Qed.

Lemma ends_restored_on_key (o : os) (k : Z) : ends_restored (on_key o k).
Proof.
  unfold on_key, on_escape, arrow_key, cd_selected, select_left, select_right.
  repeat first [ apply ends_restored_open_selection
               | apply ends_restored_display
               | apply ends_restored_cd
               | restoring_step ].
Qed.

Lemma ends_restored_main_loop (o : os) (passes : nat) :
  ends_restored (main_loop o passes).
Proof.
  induction passes as [|n IH]; cbn [main_loop].
  - apply ends_restored_total, total_ret.
  - apply ends_restored_bind; [|intros _; exact IH].
    unfold key_step.
    apply ends_restored_bind; [apply ends_restored_getchar|].
    intros k. apply ends_restored_on_key.
Qed.

(** ** The terminal attributes on every outcome *)

Lemma tty_restore_tcattr (m : machine) :
  tty (restore_tcattr m) = tcattr_old m.
Proof.
  unfold restore_tcattr. cbn zeta.
  destruct (cfg_clear_trace _); destruct m; reflexivity.
Qed.

Lemma restored_tty (m' : machine) : restored m' -> tty m' = tcattr_old m'.
Proof.
  intros [m0 [-> | ->]].
  - rewrite tty_restore_tcattr.
    symmetry. apply (restore_tcattr_blind tcattr_old). blind.
  - change (tty (set_stdout ?s ?x)) with (tty x).
    change (tcattr_old (set_stdout ?s ?x)) with (tcattr_old x).
    rewrite tty_restore_tcattr.
    symmetry. apply (restore_tcattr_blind tcattr_old). blind.
Qed.

Lemma leaves_tty_bind {A B : Type} (x : M A) (k : A -> M B) :
  leaves_tty x -> (forall a, leaves_tty (k a)) -> leaves_tty (bind x k).
Proof.
  intros Hx Hk m. specialize (Hx m). unfold bind.
  destruct (x m) as [a m1|s m1|p a m1|m1|m1]; try exact Hx.
  specialize (Hk a m1). rewrite <- Hx.
  destruct (k a m1); exact Hk.
Qed.

Lemma leaves_tty_modify (g : machine -> machine) :
  (forall m, tty (g m) = tty m) -> leaves_tty (modify g).
Proof. intros Hg m. apply Hg. Qed.

Lemma leaves_tty_total_blind {A : Type} (x : M A) :
  (forall m, exists a m', x m = Ret a m' /\ tty m' = tty m) -> leaves_tty x.
Proof. intros H m. destruct (H m) as (a & m' & -> & Ht). exact Ht. Qed.

Lemma leaves_tty_getchar : leaves_tty getchar.
Proof. intros m. unfold getchar. destruct (stdin m); reflexivity. Qed.

Lemma leaves_tty_get_cursor_pos : leaves_tty get_cursor_pos.
Proof.
  intros m. unfold get_cursor_pos, drain, bind, modify, printf.
  destruct (scan _ _ _ _) as [[[r c] rest]|]; reflexivity.
Qed.

Lemma leaves_tty_CHECKBAD {A : Type} (err : Z) (msg : string) :
  leaves_tty (@CHECKBAD A err msg).
Proof. intros m. exact I. Qed.

Lemma leaves_tty_append_to_cd (suffix : string) :
  leaves_tty (append_to_cd suffix).
Proof.
  intros m. unfold append_to_cd.
  destruct (_ >? PATH_MAX); [exact I | reflexivity].
Qed.

Lemma leaves_tty_print_name (hex : bool) (s : string) :
  forall pc, leaves_tty (print_name hex s pc).
Proof.
  induction s as [|c s IH]; intros pc; cbn [print_name].
  - intros m. reflexivity.
  - destruct (printable c).
    + apply leaves_tty_bind; [intros m; reflexivity | intros _; apply IH].
    + destruct hex; [|apply IH].
      apply leaves_tty_bind; [intros m; reflexivity | intros n; apply IH].
Qed.

Ltac tty_step :=
  first
    [ apply leaves_tty_getchar
    | apply leaves_tty_get_cursor_pos
    | apply leaves_tty_CHECKBAD
    | apply leaves_tty_append_to_cd
    | apply leaves_tty_print_name
    | apply leaves_tty_bind; [|intros ?]
    | match goal with
      | |- leaves_tty (if ?b then _ else _) => destruct b
      | |- leaves_tty (match ?x with Some _ => _ | None => _ end) =>
          destruct x
      | |- leaves_tty (ret _) => intros ?; reflexivity
      | |- leaves_tty (gets _) => intros ?; reflexivity
      | |- leaves_tty (printf _) => intros ?; reflexivity
      | |- leaves_tty (putchar _) => intros ?; reflexivity
      | |- leaves_tty (eprintf _) => intros ?; reflexivity
      | |- leaves_tty (exit _) => intros ?; exact I
      | |- leaves_tty (modify _) =>
          apply leaves_tty_modify; intros ?; reflexivity
      end ].

Lemma leaves_tty_get_entry_type (o : os) (e : dirent) :
  leaves_tty (get_entry_type o e).
Proof. unfold get_entry_type. repeat tty_step. Qed.

Lemma leaves_tty_display_entry (o : os) (i : Z) (e : dirent) (pc nc : Z) :
  leaves_tty (display_entry o i e pc nc).
Proof.
  unfold display_entry.
  repeat first [apply leaves_tty_get_entry_type | tty_step].
Qed.

Lemma leaves_tty_display_loop (o : os) (es : list dirent) :
  forall i pc nc, leaves_tty (display_loop o es i pc nc).
Proof.
  induction es as [|e es IH]; intros i pc nc; cbn [display_loop].
  - intros m. reflexivity.
  - apply leaves_tty_bind; [apply leaves_tty_display_entry|].
    intros r. apply IH.
Qed.

Lemma leaves_tty_draw (o : os) (d_children : option (list dirent)) :
  leaves_tty (draw o d_children).
Proof.
  unfold draw.
  repeat first [apply leaves_tty_display_loop | tty_step].
  intros m. reflexivity.
Qed.

Lemma tty_validate_selection (m : machine) : tty (validate_selection m) = tty m.
Proof.
  unfold validate_selection.
  destruct (d_length m <? 1); [reflexivity|].
  destruct (selected m <? SELECTED_MIN); [reflexivity|].
  destruct (selected m >? SELECTED_MAX m); reflexivity.
Qed.

Lemma leaves_tty_display (o : os) : leaves_tty (display o).
Proof.
  unfold display.
  repeat first [ apply leaves_tty_draw
               | apply leaves_tty_modify, tty_validate_selection
               | tty_step ].
Qed.

Lemma leaves_tty_cd (o : os) (to : string) : leaves_tty (cd o to).
Proof. unfold cd. repeat tty_step. Qed.

Lemma leaves_tty_open_selection (o : os) (opener : option string)
    (do_fork : bool) :
  leaves_tty (open_selection o opener do_fork).
Proof.
  unfold open_selection.
  apply leaves_tty_bind; [tty_step | intros name].
  apply leaves_tty_bind; [tty_step | intros path].
  destruct do_fork; [repeat tty_step|].
  intros m. unfold bind, modify, gets, putchar, ret.
  destruct (cfg_clear_trace (cfg (restore_tcattr m)));
    destruct (os_execv_ok o _); exact I.
Qed.

Lemma leaves_tty_on_key (o : os) (k : Z) : leaves_tty (on_key o k).
Proof.
  unfold on_key, on_escape, arrow_key, cd_selected, select_left, select_right.
  repeat first [ apply leaves_tty_open_selection
               | apply leaves_tty_display
               | apply leaves_tty_cd
               | tty_step ].
Qed.

Lemma leaves_tty_main_loop (o : os) (passes : nat) :
  leaves_tty (main_loop o passes).
Proof.
  induction passes as [|n IH]; cbn [main_loop].
  - intros m. reflexivity.
  - apply leaves_tty_bind; [|intros _; exact IH].
    unfold key_step.
    apply leaves_tty_bind; [apply leaves_tty_getchar|].
    intros k. apply leaves_tty_on_key.
Qed.


(** ** Keys *)

Lemma key_step_run (o : os) (m : machine) (k : Z) (inp : list Z) :
  stdin m = k :: inp -> key_step o m = on_key o k (set_stdin inp m).
Proof. intros H. unfold key_step, bind, getchar. now rewrite H. Qed.


Lemma left_keys_run (o : os) (m : machine) (keys inp : list Z) :
  In keys left_keys -> stdin m = (keys ++ inp)%list ->
  key_step o m = (select_left ;;; display o) (set_stdin inp m).
Proof.
  intros [<-|[<-|[<-|[]]]] H; rewrite (key_step_run o m _ _ H);
    reflexivity.
Qed.

Lemma right_keys_run (o : os) (m : machine) (keys inp : list Z) :
  In keys right_keys -> stdin m = (keys ++ inp)%list ->
  key_step o m = (select_right ;;; display o) (set_stdin inp m).
Proof.
  intros [<-|[<-|[<-|[]]]] H; rewrite (key_step_run o m _ _ H);
    reflexivity.
Qed.

Lemma descend_keys_run (o : os) (m : machine) (keys inp : list Z) :
  In keys descend_keys -> stdin m = (keys ++ inp)%list ->
  key_step o m = (cd_selected o ;;; display o) (set_stdin inp m).
Proof.
  intros [<-|[<-|[<-|[<-|[]]]]] H; rewrite (key_step_run o m _ _ H);
    reflexivity.
Qed.

(** ** C1: the selection wraps *)

Lemma validated_cases (n sel : Z) :
  (n < 1 -> validated n sel = 0) /\
  (1 <= n -> sel < 0 -> validated n sel = n - 1) /\
  (1 <= n -> n - 1 < sel -> validated n sel = 0) /\
  (1 <= n -> 0 <= sel <= n - 1 -> validated n sel = sel).
Proof.
  unfold validated, SELECTED_MIN.
  destruct (n <? 1) eqn:E1; destruct (sel <? 0) eqn:E2;
    destruct (sel >? n - 1) eqn:E3; repeat split; intros; lia.
Qed.

(** C1. With a non-empty listing, a step left from index 0 followed by the
    render selects the last entry, and a step right from the last index
    selects entry 0; with an empty listing the render leaves the index at 0
    and prints the empty marker and no entry at all, hence none
    highlighted. *)
Theorem selection_wraps (o : os) (m : machine) (es : list dirent)
    (keys inp : list Z) :
  listing o m = Some es ->
  renders o m inp = true ->
  stdin m = (keys ++ inp)%list ->
  (es <> [] -> selected m = 0 -> In keys left_keys ->
   exists m',
     key_step o m = Ret tt m' /\
     selected m' = Z.of_nat (List.length es) - 1 /\
     selected_name m'
     = memcpy_name (d_name (entry_at es (Z.of_nat (List.length es) - 1)))) /\
  (es <> [] -> selected m = Z.of_nat (List.length es) - 1 ->
   In keys right_keys ->
   exists m',
     key_step o m = Ret tt m' /\
     selected m' = 0 /\
     selected_name m' = memcpy_name (d_name (entry_at es 0))) /\
  (es = [] -> In keys (left_keys ++ right_keys) ->
   exists m' row col overflow,
     key_step o m = Ret tt m' /\
     selected m' = 0 /\
     stdout m'
     = (stdout m ++ CLEAR_DISPLAY ++ QUERY ++ header_text m ++ COLOR_RESET
          ++ MSG_EMPTY ++ COLOR_RESET ++ " " ++ QUERY
          ++ reposition_text overflow row col)%string).
Proof.
  intros Hl Hr Hin.
  assert (Hfit : Z.of_nat (List.length es) <= INT_MAX).
  { pose proof (renders_fit o m inp Hr) as H. now rewrite Hl in H. }
  assert (Hstep : forall sel',
             exists m' r1 c1 r2 c2,
               display o (set_selected sel' (set_stdin inp m)) = Ret tt m' /\
               selected m' = validated (Z.of_nat (List.length es)) sel' /\
               selected_name m'
               = pick_name es 0 (selected m') (selected_name m) /\
               stdout m'
               = (stdout m
                    ++ draw_text o es
                         (prepared o (set_selected sel' (set_stdin inp m)))
                         r2 c1)%string /\
               answers_twice inp = Some (r1, c1, (r2, c2), stdin m')).
  { intros sel'. set (m1 := set_selected sel' (set_stdin inp m)).
    assert (Hr1 : renders o m1 (stdin m1) = true).
    { rewrite <- Hr. apply renders_same; reflexivity. }
    destruct (display_effect o m1 Hr1)
      as (m' & r1 & c1 & r2 & c2 & Hrun & Hans & _ & _ & _ & _ & Hsel & Hsn & Hout).
    change (listing o m1) with (listing o m) in *.
    change (listing_count o m1) with (listing_count o m) in *.
    rewrite Hl in *. rewrite (listing_count_some o m es Hl Hfit) in Hsel.
    exists m', r1, c1, r2, c2. repeat split; assumption. }
  split; [|split].
  - intros Hne Hsel Hk.
    rewrite (left_keys_run o m keys inp Hk Hin).
    destruct (Hstep (int_wrap (selected m - 1)))
      as (m' & r1 & c1 & r2 & c2 & Hrun & Hs & Hsn & _).
    exists m'. split; [exact Hrun|].
    rewrite Hsel in Hs. change (int_wrap (0 - 1)) with (-1) in Hs.
    assert (Hn : 1 <= Z.of_nat (List.length es)).
    { destruct es; [congruence | simpl List.length; lia]. }
    destruct (validated_cases (Z.of_nat (List.length es)) (-1))
      as (_ & Hv & _).
    rewrite Hv in Hs by lia. split; [exact Hs|].
    rewrite Hsn, Hs, pick_name_hit by lia.
    now rewrite Z.sub_0_r.
  - intros Hne Hsel Hk.
    rewrite (right_keys_run o m keys inp Hk Hin).
    destruct (Hstep (int_wrap (selected m + 1)))
      as (m' & r1 & c1 & r2 & c2 & Hrun & Hs & Hsn & _).
    exists m'. split; [exact Hrun|].
    assert (Hn : 1 <= Z.of_nat (List.length es)).
    { destruct es; [congruence | simpl List.length; lia]. }
    rewrite Hsel in Hs.
    rewrite int_wrap_small in Hs by (unfold INT_MAX in *; lia).
    destruct (validated_cases (Z.of_nat (List.length es))
                (Z.of_nat (List.length es) - 1 + 1)) as (_ & _ & Hv & _).
    rewrite Hv in Hs by lia. split; [exact Hs|].
    rewrite Hsn, Hs, pick_name_hit by lia. reflexivity.
  - intros He Hk. subst es.
    assert (Hdisp : exists sel',
               key_step o m = display o (set_selected sel' (set_stdin inp m))).
    { apply in_app_or in Hk as [Hk|Hk].
      - exists (int_wrap (selected m - 1)).
        now rewrite (left_keys_run o m keys inp Hk Hin).
      - exists (int_wrap (selected m + 1)).
        now rewrite (right_keys_run o m keys inp Hk Hin). }
    destruct Hdisp as (sel' & ->).
    destruct (Hstep sel') as (m' & r1 & c1 & r2 & c2 & Hrun & Hs & _ & Hout & _).
    exists m', r2, c1.
    eexists. split; [exact Hrun|]. split.
    + rewrite Hs. cbn [List.length Z.of_nat].
      destruct (validated_cases 0 sel') as (Hv & _). apply Hv. lia.
    + rewrite Hout. unfold draw_text. cbn [loop_output loop_counts].
      destruct (prepared_fields o (set_selected sel' (set_stdin inp m)))
        as (Hc & _ & Hn & _ & _ & Hlen & _).
      change (listing_count o (set_selected sel' (set_stdin inp m)))
        with (listing_count o m) in Hlen.
      rewrite (listing_count_some o m [] Hl Hfit) in Hlen.
      rewrite Hlen. unfold header_text, cur_name. rewrite Hc, Hn.
      change (marker_text (Z.of_nat (List.length (@nil dirent))))
        with (MSG_EMPTY ++ COLOR_RESET ++ " ")%string.
      rewrite !append_assoc. reflexivity.
Qed.

(** ** C2: the scan for the cursor report *)

Lemma char_wrap_digit (g : Z) : is_digit g = true -> char_wrap g = g.
Proof.
  unfold is_digit, char_wrap. intros H. apply andb_prop in H as [H1 H2].
  rewrite Z.mod_small by lia. lia.
Qed.

(** Bytes other than ESC ahead of a report are passed over. *)
Lemma scan_skips_garbage (junk : list Z) :
  forall row col rest,
    Forall (fun g => g <> 27) junk ->
    scan SeekEsc row col (junk ++ rest) = scan SeekEsc row col rest.
Proof.
  induction junk as [|g junk IH]; intros row col rest H; [reflexivity|].
  inversion H as [|? ? Hg Hjunk]; subst. cbn [app scan].
  apply Z.eqb_neq in Hg. rewrite Hg. now apply IH.
Qed.

Lemma scan_row_digits (ds : list Z) :
  forall row col rest,
    forallb is_digit ds = true ->
    scan ReadRow row col (ds ++ rest)
    = scan ReadRow (digits_value row ds) col rest.
Proof.
  induction ds as [|g ds IH]; intros row col rest H; [reflexivity|].
  cbn [forallb] in H. apply andb_prop in H as [Hg Hds].
  cbn [app scan]. rewrite (char_wrap_digit g Hg).
  unfold is_digit in Hg. apply andb_prop in Hg as [H1 H2].
  destruct (g =? 59) eqn:E1; [lia|].
  destruct ((g <? 48) || (g >? 57)) eqn:E2; [lia|].
  rewrite IH by exact Hds. reflexivity.
Qed.

Lemma scan_col_digits (ds : list Z) :
  forall row col rest,
    forallb is_digit ds = true ->
    scan ReadCol row col (ds ++ rest)
    = scan ReadCol row (digits_value col ds) rest.
Proof.
  induction ds as [|g ds IH]; intros row col rest H; [reflexivity|].
  cbn [forallb] in H. apply andb_prop in H as [Hg Hds].
  cbn [app scan]. rewrite (char_wrap_digit g Hg).
  unfold is_digit in Hg. apply andb_prop in Hg as [H1 H2].
  destruct (g =? 82) eqn:E1; [lia|].
  destruct ((g <? 48) || (g >? 57)) eqn:E2; [lia|].
  rewrite IH by exact Hds. reflexivity.
Qed.

(** A report is read from whatever the two cells hold when the scan
    reaches it: the digits are added onto them. *)
Lemma scan_report (rs cs rest : list Z) (row col : Z) :
  forallb is_digit rs = true -> forallb is_digit cs = true ->
  scan SeekEsc row col (cursor_report rs cs ++ rest)
  = Some (digits_value row rs, digits_value col cs, rest).
Proof.
  intros Hr Hc. unfold cursor_report.
  cbn [app scan]. change (27 =? 27) with true. change (91 =? 91) with true.
  cbv iota. rewrite <- app_assoc, (scan_row_digits rs) by exact Hr.
  cbn [app scan]. change (char_wrap 59 =? 59) with true. cbv iota.
  rewrite <- app_assoc, (scan_col_digits cs) by exact Hc.
  reflexivity.
Qed.

(** The example of the specification: garbage, then the report 12;34. *)
Lemma get_cursor_pos_after_garbage :
  scan SeekEsc 0 0 (bytes_of ("garbage" ++ ESC ++ "[12;34R")) = Some (12, 34, []).
Proof. reflexivity. Qed.

(** C2 (the code departs from it).  After the keystroke PageUp, ESC [ 5 ~,
    whose tilde breaks the grammar, the scan goes back to seeking ESC but
    keeps the digit read so far: the report 12;34 that follows is returned
    as row 512, not 12.  The bytes are the ones [getchar] delivers; what
    waited in the queue of the terminal at the call, whatever it was, is
    gone. *)
Theorem get_cursor_pos_keeps_broken_digits (m : machine) :
  get_cursor_pos
    (set_stdin (bytes_of (ESC ++ "[5~" ++ ESC ++ "[12;34R")) m)
  = Ret (512, 34)
      (set_stdin []
         (set_stdout (stdout m ++ QUERY) (set_queued (tl (queued m)) m))) /\
  get_cursor_pos (set_stdin (bytes_of (ESC ++ "[12;34R")) m)
  = Ret (12, 34)
      (set_stdin []
         (set_stdout (stdout m ++ QUERY) (set_queued (tl (queued m)) m))).
Proof. split; reflexivity. Qed.

(** The digits of a broken attempt stay in the row cell: the report that
    follows is read onto them. *)
Lemma scan_after_broken_row (ds rs cs rest : list Z) (bad : Z) :
  forallb is_digit ds = true ->
  (char_wrap bad =? 59) = false ->
  ((char_wrap bad <? 48) || (char_wrap bad >? 57)) = true ->
  forallb is_digit rs = true -> forallb is_digit cs = true ->
  scan SeekEsc 0 0 (27 :: 91 :: ds ++ bad :: cursor_report rs cs ++ rest)
  = Some (digits_value (digits_value 0 ds) rs, digits_value 0 cs, rest).
Proof.
  intros Hds Hb1 Hb2 Hrs Hcs. cbn [scan].
  change (27 =? 27) with true. change (91 =? 91) with true. cbv iota.
  rewrite (scan_row_digits ds) by exact Hds.
  cbn [scan]. rewrite Hb1, Hb2.
  apply scan_report; assumption.
Qed.

(** ** C3: line breaks and the column counter *)

(** Removes the wrap-arounds that the bounds at hand rule out, innermost
    first. *)
Ltac unwrap :=
  repeat match goal with
         | |- context [int_wrap ?z] =>
             lazymatch z with
             | context [int_wrap] => fail
             | _ => rewrite (int_wrap_small z) by (unfold INT_MAX in *; lia)
             end
         end.

Lemma strlen_fmt_hex (b : Z) : strlen (fmt_hex b) = 4.
Proof.
  assert (H : forall n, strlen (hex_digit n) = 1).
  { intros [|p|p]; try reflexivity.
    do 4 (try destruct p as [p|p|]; try reflexivity). }
  unfold fmt_hex. rewrite !strlen_append, !H. reflexivity.
Qed.

Lemma name_count_exact (hex : bool) (s : string) :
  forall pc,
    0 <= pc -> pc + strlen (printed hex s) <= INT_MAX ->
    name_count hex s pc = pc + strlen (printed hex s).
Proof.
  induction s as [|c s IH]; intros pc H0 Hfit; cbn [name_count printed] in *.
  - change (strlen "") with 0. lia.
  - pose proof (strlen_nonneg (printed hex s)) as Hs.
    destruct (printable c).
    + change (String c (printed hex s)) with (String c "" ++ printed hex s)%string in *.
      rewrite strlen_append in *. change (strlen (String c "")) with 1 in *.
      rewrite int_wrap_small by (unfold INT_MAX in *; lia).
      rewrite IH by lia. lia.
    + destruct hex; [|now apply IH].
      rewrite strlen_append, strlen_fmt_hex in *.
      rewrite int_wrap_small by (unfold INT_MAX in *; lia).
      rewrite IH by lia. lia.
Qed.

Lemma entry_width_pos (o : os) (m : machine) (e : dirent) :
  2 <= entry_width o m e.
Proof.
  unfold entry_width. change (strlen ENTRY_DELIM) with 2.
  pose proof (strlen_nonneg (printed (cfg_print_hex (cfg m)) (d_name e))).
  destruct (has_indicator _ _); lia.
Qed.

Lemma wraps_before_exact (o : os) (pc : Z) (e : dirent) :
  0 <= pc -> pc + SELECTED_MAXLEN <= INT_MAX ->
  strlen (d_name e) < SELECTED_MAXLEN ->
  wraps_before o pc e
  = (os_ws_col o <=? pc + strlen (d_name e) + strlen ENTRY_DELIM + 1).
Proof.
  intros Hpc Hmax Hname. unfold wraps_before.
  pose proof (strlen_nonneg (d_name e)) as Hn.
  change (strlen ENTRY_DELIM) with 2. unfold SELECTED_MAXLEN in *.
  unwrap. unfold INT_MAX in *.
  rewrite size_wrap_small by lia.
  apply Z.geb_leb.
Qed.

Lemma entry_counts_exact (o : os) (m : machine) (e : dirent) (pc nc : Z) :
  0 <= pc -> pc + entry_width o m e + SELECTED_MAXLEN <= INT_MAX ->
  0 <= nc < INT_MAX ->
  strlen (d_name e) < SELECTED_MAXLEN ->
  entry_counts o m e pc nc
  = ((if os_ws_col o <=? pc + strlen (d_name e) + strlen ENTRY_DELIM + 1
      then 0 else pc) + entry_width o m e,
     if os_ws_col o <=? pc + strlen (d_name e) + strlen ENTRY_DELIM + 1
     then nc + 1 else nc).
Proof.
  intros Hpc Hfit Hnc Hname.
  pose proof (entry_width_pos o m e) as Hw.
  unfold entry_counts.
  rewrite wraps_before_exact by (unfold SELECTED_MAXLEN in *; lia).
  unfold SELECTED_MAXLEN in *.
  unfold entry_width in *. change (strlen ENTRY_DELIM) with 2 in *.
  set (brk := os_ws_col o <=? pc + strlen (d_name e) + 2 + 1).
  set (w := strlen (printed (cfg_print_hex (cfg m)) (d_name e))) in *.
  assert (Hw0 : 0 <= w) by apply strlen_nonneg.
  assert (Hcol : 0 <= (if brk then 0 else pc) <= pc) by (destruct brk; lia).
  rewrite name_count_exact;
    fold w; try (destruct (has_indicator _ _); destruct brk; lia).
  destruct (has_indicator _ _); destruct brk; unwrap; f_equal; lia.
Qed.

Lemma names_fit_cons (e : dirent) (es : list dirent) :
  names_fit (e :: es) = true ->
  strlen (d_name e) < SELECTED_MAXLEN /\ names_fit es = true.
Proof.
  unfold names_fit. cbn [forallb]. intros H.
  apply andb_prop in H as [H1 H2]. split; [now apply Z.ltb_lt | exact H2].
Qed.

Lemma loop_output_layout (o : os) (m : machine) (es : list dirent) :
  forall i pc,
    names_fit es = true ->
    0 <= pc -> pc + total_width o m es + SELECTED_MAXLEN <= INT_MAX ->
    0 <= i -> i + Z.of_nat (List.length es) <= INT_MAX ->
    loop_output o m es i pc = layout o m i es (wrap_points o m pc es).
Proof.
  induction es as [|e es IH]; intros i pc Hnames Hpc Hfit Hi Hlen;
    [reflexivity|].
  apply names_fit_cons in Hnames as [Hname Hnames].
  cbn [total_width List.length] in Hfit, Hlen.
  rewrite Nat2Z.inj_succ in Hlen.
  pose proof (entry_width_pos o m e) as Hw.
  assert (Htot : 0 <= total_width o m es).
  { clear. induction es as [|x es IH]; cbn [total_width]; [lia|].
    pose proof (entry_width_pos o m x). lia. }
  cbn [loop_output wrap_points layout].
  rewrite wraps_before_exact by (unfold INT_MAX, SELECTED_MAXLEN in *; lia).
  rewrite (entry_counts_exact o m e pc 0)
    by (unfold INT_MAX, SELECTED_MAXLEN in *; lia).
  cbn [fst]. rewrite int_wrap_small by (unfold INT_MAX in *; lia).
  rewrite IH; [reflexivity | assumption | | | lia | lia];
    destruct (os_ws_col o <=? _); lia.
Qed.

Lemma loop_counts_breaks (o : os) (m : machine) (es : list dirent) :
  forall pc nc,
    names_fit es = true ->
    0 <= pc -> pc + total_width o m es + SELECTED_MAXLEN <= INT_MAX ->
    0 <= nc -> nc + Z.of_nat (List.length es) <= INT_MAX ->
    snd (loop_counts o m es pc nc)
    = nc + count_breaks (wrap_points o m pc es) /\
    0 <= fst (loop_counts o m es pc nc) <= pc + total_width o m es.
Proof.
  induction es as [|e es IH]; intros pc nc Hnames Hpc Hfit Hnc Hlen.
  - cbn. unfold count_breaks. cbn. lia.
  - apply names_fit_cons in Hnames as [Hname Hnames].
    cbn [total_width List.length] in Hfit, Hlen.
    rewrite Nat2Z.inj_succ in Hlen.
    pose proof (entry_width_pos o m e) as Hw.
    assert (Htot : 0 <= total_width o m es).
    { clear. induction es as [|x es IH]; cbn [total_width]; [lia|].
      pose proof (entry_width_pos o m x). lia. }
    cbn [loop_counts wrap_points total_width].
    rewrite (entry_counts_exact o m e pc nc)
      by (unfold INT_MAX, SELECTED_MAXLEN in *; lia).
    cbn [fst snd].
    destruct (os_ws_col o <=? pc + strlen (d_name e) + strlen ENTRY_DELIM + 1).
    + destruct (IH (0 + entry_width o m e) (nc + 1)) as [H1 H2];
        try assumption; try lia.
      rewrite H1. unfold count_breaks. cbn [List.filter List.length].
      rewrite Nat2Z.inj_succ. lia.
    + destruct (IH (pc + entry_width o m e) nc) as [H1 H2];
        try assumption; try lia.
      rewrite H1. unfold count_breaks. cbn [List.filter]. lia.
Qed.

Lemma count_lf_append (a b : string) :
  count_lf (a ++ b) = (count_lf a + count_lf b)%nat.
Proof.
  induction a as [|c a IH]; cbn [append count_lf]; [reflexivity|].
  destruct (byte_of c =? 10); rewrite IH; reflexivity.
Qed.

Lemma count_lf_hex_digit (n : Z) : count_lf (hex_digit n) = O.
Proof.
  destruct n as [|p|p]; try reflexivity.
  do 4 (try destruct p as [p|p|]; try reflexivity).
Qed.

Lemma count_lf_printed (hex : bool) (s : string) : count_lf (printed hex s) = O.
Proof.
  induction s as [|c s IH]; cbn [printed]; [reflexivity|].
  destruct (printable c) eqn:Hp.
  - cbn [count_lf]. unfold printable in Hp. apply andb_prop in Hp as [Hp _].
    destruct (byte_of c =? 10) eqn:E; [lia | exact IH].
  - destruct hex; [|exact IH].
    unfold fmt_hex. rewrite !count_lf_append, !count_lf_hex_digit, IH.
    reflexivity.
Qed.

Lemma count_lf_colors (t : Z) (col : string) :
  colors t = Some col -> count_lf col = O.
Proof.
  destruct t as [|p|p]; cbn [colors]; try discriminate.
  do 4 (try destruct p as [p|p|]; try discriminate);
    intros H; injection H as <-; reflexivity.
Qed.

Lemma indicators_not_lf (t : Z) : (byte_of (indicators t) =? 10) = false.
Proof.
  destruct t as [|p|p]; try reflexivity.
  do 4 (try destruct p as [p|p|]; try reflexivity).
Qed.

Lemma count_lf_classify (o : os) (m : machine) (e : dirent) :
  count_lf (match fst (classify o m e) with Some col => col | None => "" end)
  = O /\
  (byte_of (snd (classify o m e)) =? 10) = false.
Proof.
  unfold classify. destruct (type_known e).
  - cbn [fst snd]. split; [|apply indicators_not_lf].
    destruct (colors (d_type e)) as [col|] eqn:E; [|reflexivity].
    exact (count_lf_colors _ _ E).
  - destruct (os_access_x o _); split; reflexivity.
Qed.

Lemma count_lf_entry_text (o : os) (m : machine) (i : Z) (e : dirent) (b : bool) :
  count_lf (entry_text o m i e b) = if b then 1%nat else O.
Proof.
  destruct (count_lf_classify o m e) as [Hcol Hind].
  unfold entry_text. rewrite !count_lf_append, count_lf_printed.
  assert (H1 : count_lf (if i =? selected m then COLOR_INVERT else "") = O)
    by (destruct (i =? selected m); reflexivity).
  assert (H2 : count_lf
                 (if cfg_color (cfg m)
                  then match fst (classify o m e) with
                       | Some col => col
                       | None => ""
                       end
                  else "") = O)
    by (destruct (cfg_color (cfg m)); [exact Hcol | reflexivity]).
  assert (H3 : count_lf
                 (if has_indicator (cfg m) (snd (classify o m e))
                  then String (snd (classify o m e)) ""
                  else "") = O).
  { destruct (has_indicator _ _); [|reflexivity].
    cbn [count_lf]. now rewrite Hind. }
  rewrite H1, H2, H3. destruct b; reflexivity.
Qed.

(** The line feeds among the entries are those of the flags, no more. *)
Lemma count_lf_layout (o : os) (m : machine) (es : list dirent) :
  forall i pc,
    Z.of_nat (count_lf (layout o m i es (wrap_points o m pc es)))
    = count_breaks (wrap_points o m pc es).
Proof.
  induction es as [|e es IH]; intros i pc; [reflexivity|].
  cbn [wrap_points layout]. rewrite count_lf_append, count_lf_entry_text.
  rewrite Nat2Z.inj_add, IH. unfold count_breaks. cbn [List.filter].
  destruct (os_ws_col o <=? _); cbn [List.length];
    rewrite ?Nat2Z.inj_succ; lia.
Qed.

(** C3, as amended.  For every listing and every column count, the loop of
    the renderer returns, and what it prints is the text of the entries
    with a line feed before exactly those that [wrap_points] flags: those
    for which the columns used so far, the length of the name, the
    delimiter and one column kept for the indicator (enabled or not) reach
    the column count.  The counter of line feeds grows by the number of
    flags, and the text holds no other line feed.  The result is a
    function of the input. *)
Theorem display_loop_wrap_points (o : os) (m : machine) (es : list dirent)
    (i pc nc : Z) :
  forallb (entry_ok m) es = true ->
  names_fit es = true ->
  0 <= pc -> pc + total_width o m es + SELECTED_MAXLEN <= INT_MAX ->
  0 <= i -> i + Z.of_nat (List.length es) <= INT_MAX ->
  0 <= nc -> nc + Z.of_nat (List.length es) <= INT_MAX ->
  exists m' pc',
    display_loop o es i pc nc m
    = Ret (pc', nc + count_breaks (wrap_points o m pc es)) m' /\
    stdout m'
    = (stdout m ++ layout o m i es (wrap_points o m pc es))%string /\
    Z.of_nat (count_lf (layout o m i es (wrap_points o m pc es)))
    = count_breaks (wrap_points o m pc es).
Proof.
  intros Hok Hnames Hpc Hfit Hi Hlen Hnc Hlen'.
  rewrite (display_loop_run o es i pc nc m Hok).
  destruct (loop_counts_breaks o m es pc nc Hnames Hpc Hfit Hnc Hlen')
    as [Hbreaks _].
  exists (loop_machine o es i pc m), (fst (loop_counts o m es pc nc)).
  split; [|split].
  - f_equal. rewrite <- Hbreaks. now destruct (loop_counts o m es pc nc).
  - unfold loop_machine. cbn [stdout set_stdout].
    now rewrite (loop_output_layout o m es i pc Hnames Hpc Hfit Hi Hlen).
  - apply count_lf_layout.
Qed.

(** C3 as stated fails: on 20 columns a name of 17 bytes, 19 columns with
    its delimiter and indicators disabled, would not exceed the line, yet
    the renderer puts a line feed before it. *)
Lemma wrap_points_differ_from_claim :
  claimed_wrap_points default_config 20 0 [entry "seventeen_letters" DT_REG]
  = [false] /\
  wrap_points tight_system (scenario_session 0 "" []) 0
    [entry "seventeen_letters" DT_REG]
  = [true] /\
  stdout (final (display tight_system (scenario_session 0 "" [])))
  = (CLEAR_DISPLAY ++ QUERY ++ COLOR_RESET ++ COLOR_INVERT ++ LF
       ++ "seventeen_letters" ++ COLOR_RESET ++ ENTRY_DELIM ++ QUERY
       ++ ESC ++ "[11;34f" ++ ESC ++ "[s")%string.
Proof. split; [reflexivity|]. split; reflexivity. Qed.

(** ** C4: a directory that cannot be read *)

(** When the scan fails and the directory still opens, the render goes on
    with the marker in place of the entries. *)
Lemma display_cannot_scan_marker (o : os) (m : machine) :
  listing o m = None ->
  renders o m (stdin m) = true ->
  exists m' row col,
    display o m = Ret tt m' /\
    selected_name m' = EmptyString /\
    stdout m'
    = (stdout m ++ CLEAR_DISPLAY ++ QUERY ++ header_text m ++ COLOR_RESET
         ++ MSG_CANT_SCAN ++ COLOR_RESET ++ " " ++ QUERY
         ++ reposition_text
              (overflow_of o (start_count (prepared o m), 0)) row col)%string.
Proof.
  intros Hl Hr.
  destruct (display_effect o m Hr)
    as (m' & r1 & c1 & r2 & c2 & Hrun & _ & _ & _ & _ & _ & _ & Hsn & Hout).
  rewrite Hl in Hsn, Hout. cbn [entries_of pick_name] in Hsn, Hout.
  exists m', r2, c1. split; [exact Hrun|]. split; [exact Hsn|].
  rewrite Hout. unfold draw_text. cbn [loop_output loop_counts].
  destruct (prepared_fields o m) as (Hc & _ & Hn & _ & _ & Hlen & _).
  unfold listing_count in Hlen. rewrite Hl in Hlen. rewrite Hlen.
  unfold header_text, cur_name. rewrite Hc, Hn.
  change (marker_text (-1)) with (MSG_CANT_SCAN ++ COLOR_RESET ++ " ")%string.
  rewrite !append_assoc. reflexivity.
Qed.

(** C4 (the code departs from it).  When the directory can be neither
    scanned nor opened, as without the permission to read it, the render
    does not come back: it writes a line feed and a diagnostic and the
    process exits with status 1; the marker is never printed. *)
Theorem display_unreadable_exits (o : os) (m : machine) :
  os_readdir o (cur_name m) = None ->
  os_opendir o (cur_name m) = false ->
  display o m
  = Exited 1
      (restore_tcattr
         (set_stderr (stderr m ++ "Could not open " ++ cur_name m)
            (set_stdout (stdout m ++ LF)
               (set_selected_name EmptyString (set_d_length (-1) m))))).
Proof.
  intros Hscan Hopen. rewrite display_unfold, Hopen.
  unfold scanned, listing_count, listing, scandir. rewrite Hscan.
  reflexivity.
Qed.

(** ** C5: the order of the listing *)

Lemma map_insert_sorted {A B : Type} (f : A -> B) (le : B -> B -> bool)
    (x : A) (l : list A) :
  List.map f (insert_sorted (fun a b => le (f a) (f b)) x l)
  = insert_sorted le (f x) (List.map f l).
Proof.
  induction l as [|y l IH]; cbn [insert_sorted List.map]; [reflexivity|].
  destruct (le (f x) (f y)); cbn [List.map]; [reflexivity | now rewrite IH].
Qed.

Lemma map_sort_entries {A B : Type} (f : A -> B) (le : B -> B -> bool)
    (l : list A) :
  List.map f (sort_entries (fun a b => le (f a) (f b)) l)
  = sort_entries le (List.map f l).
Proof.
  induction l as [|x l IH]; cbn [sort_entries List.map]; [reflexivity|].
  now rewrite map_insert_sorted, IH.
Qed.

Lemma map_filter_name (c : config) (l : list dirent) :
  List.map d_name (List.filter (display_filter c) l)
  = List.filter (shown c) (List.map d_name l).
Proof.
  induction l as [|e l IH]; cbn [List.filter List.map]; [reflexivity|].
  change (shown c (d_name e)) with (display_filter c e).
  destruct (display_filter c e); cbn [List.map]; now rewrite IH.
Qed.

Lemma Permutation_filter_bool {A : Type} (p : A -> bool) (l l' : list A) :
  Permutation l l' -> Permutation (List.filter p l) (List.filter p l').
Proof.
  induction 1 as [|x l l' H IH|x y l|l l' l'' H1 IH1 H2 IH2];
    cbn [List.filter].
  - constructor.
  - destruct (p x); [now constructor | exact IH].
  - destruct (p x), (p y); try reflexivity. constructor.
  - now transitivity (List.filter p l').
Qed.

Lemma insert_sorted_comm {A : Type} (le : A -> A -> bool) (L : list A)
    (x y : A) (l : list A) :
  order_on le L -> In x L -> In y L -> incl l L ->
  insert_sorted le x (insert_sorted le y l)
  = insert_sorted le y (insert_sorted le x l).
Proof.
  intros Hord Hx Hy. induction l as [|z l IH]; intros Hl.
  - cbn [insert_sorted].
    destruct (Hord x y y Hx Hy Hy) as (Htot & _ & Hanti).
    destruct (le x y) eqn:Exy; destruct (le y x) eqn:Eyx; try reflexivity.
    + now rewrite (Hanti eq_refl eq_refl).
    + destruct Htot; discriminate.
  - assert (Hz : In z L) by (apply Hl; now left).
    assert (Hl' : incl l L) by (intros a Ha; apply Hl; now right).
    destruct (Hord x y z Hx Hy Hz) as (Htot & Htxyz & Hanti).
    destruct (Hord y x z Hy Hx Hz) as (_ & Htyxz & _).
    cbn [insert_sorted].
    destruct (le y z) eqn:Eyz; destruct (le x z) eqn:Exz; cbn [insert_sorted];
      rewrite ?Eyz, ?Exz.
    + destruct (le x y) eqn:Exy; destruct (le y x) eqn:Eyx;
        rewrite ?Eyz, ?Exz; try reflexivity.
      * now rewrite (Hanti eq_refl eq_refl).
      * destruct Htot; discriminate.
    + destruct (le x y) eqn:Exy; [|reflexivity].
      discriminate (Htxyz eq_refl eq_refl).
    + destruct (le y x) eqn:Eyx; [|reflexivity].
      discriminate (Htyxz eq_refl eq_refl).
    + now rewrite IH.
Qed.

Lemma insert_sorted_incl {A : Type} (le : A -> A -> bool) (L : list A)
    (x : A) (l : list A) :
  In x L -> incl l L -> incl (insert_sorted le x l) L.
Proof.
  intros Hx. induction l as [|z l IH]; intros Hl a Ha; cbn [insert_sorted] in Ha.
  - destruct Ha as [<-|[]]. exact Hx.
  - destruct (le x z).
    + destruct Ha as [<-|Ha]; [exact Hx | now apply Hl].
    + destruct Ha as [<-|Ha]; [apply Hl; now left|].
      apply IH; [|exact Ha]. intros b Hb. apply Hl. now right.
Qed.

Lemma sort_entries_incl {A : Type} (le : A -> A -> bool) (L l : list A) :
  incl l L -> incl (sort_entries le l) L.
Proof.
  induction l as [|x l IH]; intros Hl; cbn [sort_entries].
  - intros a [].
  - apply insert_sorted_incl; [apply Hl; now left|].
    apply IH. intros b Hb. apply Hl. now right.
Qed.

(** The sort forgets the order in which the entries arrive. *)
Lemma sort_entries_permutation {A : Type} (le : A -> A -> bool) (L l l' : list A) :
  order_on le L -> incl l L -> Permutation l l' ->
  sort_entries le l = sort_entries le l'.
Proof.
  intros Hord Hl Hp. induction Hp as [|x l l' H IH|x y l|l l' l'' H1 IH1 H2 IH2].
  - reflexivity.
  - cbn [sort_entries]. rewrite IH; [reflexivity|].
    intros a Ha. apply Hl. now right.
  - cbn [sort_entries].
    apply (insert_sorted_comm le L); try assumption.
    + apply Hl. now left.
    + apply Hl. right. now left.
    + apply sort_entries_incl. intros a Ha. apply Hl. right. now right.
  - rewrite IH1 by exact Hl. apply IH2.
    intros a Ha. apply Hl. apply (Permutation_in a (Permutation_sym H1) Ha).
Qed.

Lemma listing_names_sorted (o : os) (m : machine) (raw : list dirent) :
  os_readdir o (cur_name m) = Some raw ->
  listing_names o m
  = Some (sort_entries (name_le o)
            (List.filter (shown (cfg m)) (List.map d_name raw))).
Proof.
  intros Hread. unfold listing_names, listing, scandir. rewrite Hread.
  cbn [option_map]. f_equal.
  change (alphasort o) with (fun a b => name_le o (d_name a) (d_name b)).
  now rewrite map_sort_entries, map_filter_name.
Qed.

Lemma scenario_shown (c : config) :
  cfg_show_dotfiles c = false ->
  List.filter (shown c) scenario_names = ["apple"; "Banana"; "cherry.txt"]%string.
Proof.
  intros H. unfold scenario_names, shown, display_filter.
  cbn [List.filter d_name]. rewrite H. reflexivity.
Qed.

Lemma order_on_strcmp :
  order_on (fun a b => match strcmp a b with Gt => false | _ => true end)
    ["apple"; "Banana"; "cherry.txt"]%string.
Proof.
  intros x y z Hx Hy Hz. cbn [In] in Hx, Hy, Hz.
  destruct Hx as [<-|[<-|[<-|[]]]]; destruct Hy as [<-|[<-|[<-|[]]]];
    destruct Hz as [<-|[<-|[<-|[]]]]; vm_compute;
    (split; [|split]); intros; first [reflexivity | discriminate | tauto].
Qed.

Lemma order_on_dictionary :
  order_on
    (fun a b => match dictionary_collation a b with Gt => false | _ => true end)
    ["apple"; "Banana"; "cherry.txt"]%string.
Proof.
  intros x y z Hx Hy Hz. cbn [In] in Hx, Hy, Hz.
  destruct Hx as [<-|[<-|[<-|[]]]]; destruct Hy as [<-|[<-|[<-|[]]]];
    destruct Hz as [<-|[<-|[<-|[]]]]; vm_compute;
    (split; [|split]); intros; first [reflexivity | discriminate | tauto].
Qed.

(** C5, as amended.  The directory of the scenario, its entries arriving
    in any order and dotfiles hidden, is listed as Banana, apple,
    cherry.txt when the collation of the locale is that of the bytes (the
    C locale), and as apple, Banana, cherry.txt under a dictionary
    collation: the order is the one of the locale. *)
Theorem listing_order_follows_collation (o : os) (m : machine)
    (raw : list dirent) :
  cfg_show_dotfiles (cfg m) = false ->
  os_readdir o (cur_name m) = Some raw ->
  Permutation (List.map d_name raw) scenario_names ->
  (os_strcoll o = strcmp ->
   listing_names o m = Some ["Banana"; "apple"; "cherry.txt"]%string) /\
  (os_strcoll o = dictionary_collation ->
   listing_names o m = Some ["apple"; "Banana"; "cherry.txt"]%string).
Proof.
  intros Hdot Hread Hperm.
  rewrite (listing_names_sorted o m raw Hread).
  pose proof (Permutation_filter_bool (shown (cfg m)) _ _ Hperm) as Hp.
  rewrite (scenario_shown (cfg m) Hdot) in Hp.
  assert (Hincl : incl (List.filter (shown (cfg m)) (List.map d_name raw))
                    ["apple"; "Banana"; "cherry.txt"]%string).
  { intros a Ha. exact (Permutation_in a Hp Ha). }
  split; intros Hcoll; unfold name_le; rewrite Hcoll.
  - rewrite (sort_entries_permutation _ _ _ _ order_on_strcmp Hincl Hp).
    reflexivity.
  - rewrite (sort_entries_permutation _ _ _ _ order_on_dictionary Hincl Hp).
    reflexivity.
Qed.

(** C5 as stated fails: under a dictionary collation the scenario is shown
    as apple, Banana, cherry.txt. *)
Lemma listing_order_dictionary_locale :
  listing_names dictionary_system (scenario_session 0 "" [])
  = Some ["apple"; "Banana"; "cherry.txt"]%string /\
  listing_names dictionary_system (scenario_session 0 "" [])
  <> Some ["Banana"; "apple"; "cherry.txt"]%string /\
  stdout (final (display dictionary_system (scenario_session 0 "" [])))
  = (CLEAR_DISPLAY ++ QUERY ++ COLOR_RESET
       ++ COLOR_INVERT ++ "apple" ++ COLOR_RESET ++ ENTRY_DELIM
       ++ (ESC ++ "[34;1m") ++ "Banana" ++ COLOR_RESET ++ ENTRY_DELIM
       ++ "cherry.txt" ++ COLOR_RESET ++ ENTRY_DELIM ++ QUERY)%string.
Proof.
  split; [reflexivity|]. split; [discriminate | reflexivity].
Qed.

(** ** C6: cd *)

Lemma append_to_cd_run (m : machine) (suffix : string) :
  (size_wrap (d_current_len m + strlen suffix + 2) <=? PATH_MAX) = true ->
  append_to_cd suffix m
  = Ret (substring 0 (Z.to_nat (d_current_len m)) (cur_name m)
           ++ "/" ++ suffix)%string m.
Proof.
  intros H. unfold append_to_cd.
  destruct (_ >? PATH_MAX) eqn:E; [lia | reflexivity].
Qed.

Lemma cd_run (o : os) (to : string) (m : machine) :
  cd_fits m to = true ->
  cd o to m
  = Ret tt
      (set_selected SELECTED_MIN
         (set_d_length 0
            (set_d_current_len
               (int_wrap (strlen (os_realpath o (cd_target m to) (cur_name m))))
               (set_d_current_name
                  (Some (os_realpath o (cd_target m to) (cur_name m))) m)))).
Proof.
  unfold cd_fits, cd_target, cd, cur_name. intros Hfit.
  unfold bind at 1. unfold gets at 1. unfold bind at 1.
  destruct (d_current_name m) as [buf|] eqn:Hn.
  - destruct (starts_with_slash to) eqn:Hs.
    + reflexivity.
    + cbn [orb] in Hfit. unfold bind at 1.
      rewrite (append_to_cd_run m to Hfit). unfold cur_name. rewrite Hn.
      reflexivity.
  - reflexivity.
Qed.

Lemma display_d_length (o : os) (m : machine) :
  d_length (final (display o m)) = listing_count o m.
Proof.
  rewrite display_unfold.
  destruct (os_opendir o (cur_name m)).
  - rewrite (keeps_draw d_length) by blind.
    destruct (prepared_fields o m) as (_ & _ & _ & _ & _ & H & _). exact H.
  - rewrite (keeps_CHECKBAD d_length) by blind.
    destruct (same_view_scanned o m) as (_ & _ & _ & _ & _ & _ & H). exact H.
Qed.

(** A relative target that makes the joined path longer than [PATH_MAX]
    ends the process in [append_to_cd], before anything is assigned. *)
Lemma cd_too_long_exits (o : os) (to : string) (m : machine) :
  cd_fits m to = false ->
  cd o to m
  = Exited 1
      (restore_tcattr
         (set_stderr
            (stderr m ++ "(null)/" ++ to ++ " is too long of a path!")
            (set_stdout (stdout m ++ LF) m))).
Proof.
  unfold cd_fits, cd. intros Hfit.
  unfold bind at 1. unfold gets at 1. unfold bind at 1.
  destruct (d_current_name m) as [buf|]; [|discriminate].
  destruct (starts_with_slash to); [discriminate|]. cbn [orb] in Hfit.
  unfold bind at 1, append_to_cd.
  destruct (_ >? PATH_MAX) eqn:E; [reflexivity | lia].
Qed.

(** C6. Whatever the target, a directory change that gets past the length
    guard of the path sets the selection to 0 and the entry count to 0;
    the next render enumerates the new directory afresh; and [cd] asks the
    system for the canonical path only, never whether it is a directory. *)
Theorem cd_resets_selection (o : os) (to : string) (m : machine) :
  cd_fits m to = true ->
  exists m',
    cd o to m = Ret tt m' /\
    selected m' = 0 /\ d_length m' = 0 /\
    d_current_name m' = Some (os_realpath o (cd_target m to) (cur_name m)) /\
    d_length (final (display o m')) = listing_count o m' /\
    forall o', os_realpath o' = os_realpath o -> cd o' to m = Ret tt m'.
Proof.
  intros Hfit. eexists. split; [apply (cd_run o to m Hfit)|].
  repeat split.
  - apply display_d_length.
  - intros o' Ho'. rewrite (cd_run o' to m Hfit), Ho'. reflexivity.
Qed.

(** ** C7: the selected name after a render *)

Lemma memcpy_name_fits (name : string) :
  strlen name < SELECTED_MAXLEN -> memcpy_name name = name.
Proof.
  unfold memcpy_name, strlen, SELECTED_MAXLEN. intros H.
  apply substring_all. lia.
Qed.




(** ** C8: restoration on every end *)

(** C8, as amended.  Each run of the restoration shows the cursor again,
    then either clears the last display (clear-on-exit) or prints exactly
    [last_overflow_count + 1] line feeds, and sets the terminal attributes
    back to the saved ones.  The keys Q and q end the process with status
    0 after one run of it.  From the point where main has saved the
    attributes: when the process ends by exit, by the return from main or
    by [execv], a run of the restoration is the last thing done to the
    terminal and the attributes are those found at the start; when it has
    not ended that way (it waits for input, or the division by a column
    count of 0 trapped), no restoration has run for it and the terminal is
    in the raw mode. *)
Theorem restore_tcattr_spec (o : os) (build : option (string * string))
    (passes : nat) (m s : machine) :
  0 <= last_overflow_count m ->
  tty (restore_tcattr m) = tcattr_old m /\
  stdout (restore_tcattr m)
  = (stdout m ++ ESC ++ "[?25h"
       ++ (if cfg_clear_trace (cfg m) then CLEAR_DISPLAY
           else newlines (Z.to_nat (last_overflow_count m + 1))))%string /\
  strlen (newlines (Z.to_nat (last_overflow_count m + 1)))
  = last_overflow_count m + 1 /\
  (forall k inp,
      k = 81 \/ k = 113 ->
      main_loop o (S passes) (set_stdin (k :: inp) m)
      = Exited 0 (restore_tcattr (set_stdin inp m))) /\
  match session_loop o build passes s with
  | Exited _ m' => restored m' /\ tty m' = tty s
  | Replaced _ _ m' => restored m' /\ tty m' = tty s
  | Ret _ m' => tty m' = raw_of (tty s)
  | Blocked m' => tty m' = raw_of (tty s)
  | Trapped m' => tty m' = raw_of (tty s)
  end.
Proof.
  intros Hov. split; [|split; [|split; [|split]]].
  - apply tty_restore_tcattr.
  - unfold restore_tcattr. simpl.
    destruct (cfg_clear_trace (cfg m)) eqn:Hc; simpl.
    + rewrite append_assoc. reflexivity.
    + rewrite (newline_loop_spec (Z.to_nat (last_overflow_count m + 1))) by lia.
      rewrite !append_assoc. reflexivity.
  - rewrite strlen_newlines. lia.
  - intros k inp Hk. cbn [main_loop]. unfold bind at 1.
    rewrite (key_step_run o (set_stdin (k :: inp) m) k inp eq_refl).
    destruct Hk as [-> | ->]; reflexivity.
  - unfold session_loop.
    unfold bind at 1, modify at 1. unfold bind at 1, modify at 1.
    set (s2 := set_tty _ _).
    assert (Hold : tcattr_old s2 = tty s) by reflexivity.
    assert (Hraw : tty s2 = raw_of (tty s)) by reflexivity.
    clearbody s2.
    assert (Hkeep : keeps tcattr_old
                      (dev_banner build ;;;
                       printf (ESC ++ "[?25l" ++ ESC ++ "[s") ;;;
                       display o ;;; main_loop o passes)).
    { apply keeps_bind; [|intros _].
      { destruct build as [[date time]|]; cbn [dev_banner].
        - apply keeps_bind; [apply keeps_printf; blind | intros _].
          apply keeps_ret.
        - apply keeps_ret. }
      apply keeps_bind; [apply keeps_printf; blind | intros _].
      apply keeps_bind; [apply keeps_display; blind | intros _].
      apply keeps_main_loop. blind. }
    assert (Hend : ends_restored
                     (dev_banner build ;;;
                      printf (ESC ++ "[?25l" ++ ESC ++ "[s") ;;;
                      display o ;;; main_loop o passes)).
    { apply ends_restored_bind; [|intros _].
      { destruct build as [[date time]|]; cbn [dev_banner];
          repeat restoring_step. }
      apply ends_restored_bind; [restoring_step | intros _].
      apply ends_restored_bind; [apply ends_restored_display | intros _].
      apply ends_restored_main_loop. }
    assert (Htty : leaves_tty
                     (dev_banner build ;;;
                      printf (ESC ++ "[?25l" ++ ESC ++ "[s") ;;;
                      display o ;;; main_loop o passes)).
    { apply leaves_tty_bind; [|intros _].
      { destruct build as [[date time]|]; cbn [dev_banner];
          repeat tty_step. }
      apply leaves_tty_bind; [tty_step | intros _].
      apply leaves_tty_bind; [apply leaves_tty_display | intros _].
      apply leaves_tty_main_loop. }
    specialize (Hkeep s2). specialize (Hend s2). specialize (Htty s2).
    destruct ((dev_banner build ;;;
               printf (ESC ++ "[?25l" ++ ESC ++ "[s") ;;;
               display o ;;; main_loop o passes) s2)
      as [a m'|st m'|p a m'|m'|m']; cbn [final] in Hkeep.
    + now rewrite Htty.
    + split; [exact Hend|]. now rewrite (restored_tty _ Hend), Hkeep.
    + split; [exact Hend|]. now rewrite (restored_tty _ Hend), Hkeep.
    + now rewrite Htty.
    + now rewrite Htty.
Qed.

(** C8 as stated fails twice over.  On a window that reports 0 columns the
    first render traps in its division with the terminal in the raw mode,
    and no restoration runs.  And when [execv] fails after the key E, with
    an overflow count of 2, the restoration has run twice before the
    process ends: 7 line feeds, not 3, and the cursor shown twice. *)
Lemma restoration_twice_or_not_at_all :
  (exists m',
      session_loop zero_columns_system None 0
        (set_tty cooked (scenario_session 0 "" []))
      = Trapped m' /\
      tty m' = raw_mode /\ tty m' <> cooked) /\
  (exists m',
      on_key no_exec_system 69
        (set_last_overflow_count 2 (scenario_session 0 "apple" []))
      = Exited 1 m' /\
      stdout m'
      = (ESC ++ "[?25h" ++ LF ++ LF ++ LF ++ LF
           ++ ESC ++ "[?25h" ++ LF ++ LF ++ LF)%string /\
      count_lf (stdout m') = 7%nat /\
      last_overflow_count m' + 1 = 3).
Proof.
  split.
  - eexists. split; [vm_compute; reflexivity|].
    split; [reflexivity | discriminate].
  - eexists. split; [vm_compute; reflexivity|].
    repeat split.
Qed.


(** ** C9: the name kept over an empty listing *)



(** ** C10: ESC *)


(** ** The theorems at concrete inputs *)

Lemma selection_wraps_witness :
  (exists m',
     key_step c_system (scenario_session 0 "Banana" [72]) = Ret tt m' /\
     selected m' = 2 /\ selected_name m' = "cherry.txt"%string) /\
  (exists m',
     key_step c_system (scenario_session 2 "cherry.txt" [27; 91; 67])
     = Ret tt m' /\
     selected m' = 0 /\ selected_name m' = "Banana"%string) /\
  (exists m' row col overflow,
     key_step empty_system (scenario_session 0 "Banana" [104]) = Ret tt m' /\
     selected m' = 0 /\
     stdout m'
     = (CLEAR_DISPLAY ++ QUERY ++ COLOR_RESET ++ MSG_EMPTY ++ COLOR_RESET
          ++ " " ++ QUERY ++ reposition_text overflow row col)%string).
Proof.
  split; [|split].
  - destruct (selection_wraps c_system (scenario_session 0 "Banana" [72])
                scenario_listing [72] (report_12_34 ++ report_12_34)
                eq_refl eq_refl eq_refl) as (H & _ & _).
    apply H; [discriminate | reflexivity | now left].
  - destruct (selection_wraps c_system
                (scenario_session 2 "cherry.txt" [27; 91; 67])
                scenario_listing [27; 91; 67] (report_12_34 ++ report_12_34)
                eq_refl eq_refl eq_refl) as (_ & H & _).
    apply H; [discriminate | reflexivity | right; right; now left].
  - destruct (selection_wraps empty_system (scenario_session 0 "Banana" [104])
                [] [104] (report_12_34 ++ report_12_34)
                eq_refl eq_refl eq_refl) as (_ & _ & H).
    apply H; [reflexivity | right; now left].
Defined.

Lemma display_loop_wrap_points_witness :
  exists m' pc',
    display_loop narrow_system scenario_listing 0 0 0 (scenario_session 0 "" [])
    = Ret (pc', 1) m' /\
    stdout m'
    = (COLOR_INVERT ++ (ESC ++ "[34;1m") ++ "Banana" ++ COLOR_RESET
         ++ ENTRY_DELIM ++ "apple" ++ COLOR_RESET ++ ENTRY_DELIM
         ++ LF ++ "cherry.txt" ++ COLOR_RESET ++ ENTRY_DELIM)%string /\
    Z.of_nat
      (count_lf
         (layout narrow_system (scenario_session 0 "" []) 0 scenario_listing
            [false; false; true]))
    = 1.
Proof.
  apply (display_loop_wrap_points narrow_system (scenario_session 0 "" [])
           scenario_listing 0 0 0);
    first [reflexivity | lia | vm_compute; discriminate].
Defined.

Lemma scenario_arrival_order :
  Permutation (List.map d_name scenario_dir) scenario_names.
Proof.
  unfold scenario_dir, scenario_names. cbn [List.map d_name entry].
  apply perm_skip.
  apply (Permutation_cons_app [".."%string] ["Banana"; "cherry.txt"]%string).
  apply perm_skip. apply perm_swap.
Defined.

Lemma listing_order_follows_collation_witness :
  listing_names c_system (scenario_session 0 "" [])
  = Some ["Banana"; "apple"; "cherry.txt"]%string /\
  listing_names dictionary_system (scenario_session 0 "" [])
  = Some ["apple"; "Banana"; "cherry.txt"]%string.
Proof.
  split.
  - apply (listing_order_follows_collation c_system (scenario_session 0 "" [])
             scenario_dir eq_refl eq_refl scenario_arrival_order).
    reflexivity.
  - apply (listing_order_follows_collation dictionary_system
             (scenario_session 0 "" []) scenario_dir eq_refl eq_refl
             scenario_arrival_order).
    reflexivity.
Defined.

Lemma cd_resets_selection_witness :
  exists m',
    cd c_system "Banana" (scenario_session 2 "Banana" []) = Ret tt m' /\
    selected m' = 0 /\ d_length m' = 0 /\
    d_current_name m' = Some "/tmp/Banana"%string /\
    d_length (final (display c_system m')) = 3 /\
    forall o', os_realpath o' = os_realpath c_system ->
               cd o' "Banana" (scenario_session 2 "Banana" []) = Ret tt m'.
Proof.
  destruct (cd_resets_selection c_system "Banana"
              (scenario_session 2 "Banana" []) eq_refl)
    as (m' & Hrun & Hsel & Hlen & Hname & Hscan & Hos).
  exists m'. repeat split; try assumption.
  rewrite Hscan. pose proof Hrun as Hm. vm_compute in Hm.
  injection Hm as <-. reflexivity.
Defined.


Lemma restore_tcattr_spec_witness :
  tty (restore_tcattr (scenario_session 0 "" [])) = cooked /\
  stdout (restore_tcattr (scenario_session 0 "" []))
  = (ESC ++ "[?25h" ++ LF)%string /\
  exists m',
    session_loop c_system None 1
      (set_tty cooked
         (session default_config "/tmp" 0 ""
            (report_12_34 ++ report_12_34 ++ [113])))
    = Exited 0 m' /\
    restored m' /\ tty m' = cooked.
Proof.
  destruct (restore_tcattr_spec c_system None 1 (scenario_session 0 "" [])
              (set_tty cooked
         (session default_config "/tmp" 0 ""
            (report_12_34 ++ report_12_34 ++ [113]))))
    as (Htty & Hout & _ & _ & Hends).
  - vm_compute. discriminate.
  - split; [exact Htty|]. split; [exact Hout|].
    assert (Hrun : exists m',
               session_loop c_system None 1
                 (set_tty cooked
         (session default_config "/tmp" 0 ""
            (report_12_34 ++ report_12_34 ++ [113])))
               = Exited 0 m')
      by (eexists; vm_compute; reflexivity).
    destruct Hrun as [m' Hrun]. rewrite Hrun in Hends.
    exists m'. split; [exact Hrun | exact Hends].
Defined.



Lemma display_unreadable_exits_witness :
  display unreadable_system (scenario_session 0 "Banana" [])
  = Exited 1
      (restore_tcattr
         (set_stderr "Could not open /tmp"
            (set_stdout LF
               (set_selected_name EmptyString
                  (set_d_length (-1) (scenario_session 0 "Banana" [])))))).
Proof.
  apply (display_unreadable_exits unreadable_system
           (scenario_session 0 "Banana" []) eq_refl eq_refl).
Defined.


(** * Further properties of the code *)

(** ** X1: what the listing holds (display_filter, scandir) *)

Lemma display_filter_spec (c : config) (e : dirent) :
  display_filter c e
  = negb (dot_name (d_name e))
    || (cfg_show_dotfiles c
        && negb (String.eqb (d_name e) ".")
        && negb (String.eqb (d_name e) "..")).
Proof.
  unfold display_filter, dot_name.
  destruct (d_name e) as [|a s]; [reflexivity|].
  destruct (Ascii.ascii_dec a "."%char) as [->|Hne].
  - destruct (cfg_show_dotfiles c); [|reflexivity].
    destruct s as [|b s]; [reflexivity|].
    destruct (Ascii.ascii_dec b "."%char) as [->|Hb].
    + destruct s; reflexivity.
    + destruct b as [[] [] [] [] [] [] [] []]; try reflexivity.
      now contradiction Hb.
  - destruct a as [[] [] [] [] [] [] [] []]; try reflexivity.
    now contradiction Hne.
Qed.

Lemma insert_sorted_perm {A : Type} (le : A -> A -> bool) (x : A) (l : list A) :
  Permutation (insert_sorted le x l) (x :: l).
Proof.
  induction l as [|y l IH]; cbn [insert_sorted]; [reflexivity|].
  destruct (le x y); [reflexivity|].
  rewrite IH. apply perm_swap.
Qed.

Lemma sort_entries_perm {A : Type} (le : A -> A -> bool) (l : list A) :
  Permutation (sort_entries le l) l.
Proof.
  induction l as [|x l IH]; cbn [sort_entries]; [reflexivity|].
  rewrite insert_sorted_perm. now constructor.
Qed.

(** X1. Whatever the collation, the listing holds each entry of the
    directory that passes the filter exactly once and nothing else; the
    entries "." and ".." are never in it, a name starting with a dot only
    with the flag -a, and every other name always. *)
Theorem listing_holds_filtered_entries (o : os) (m : machine)
    (raw : list dirent) :
  os_readdir o (cur_name m) = Some raw ->
  exists es,
    listing o m = Some es /\
    Permutation es (List.filter (display_filter (cfg m)) raw) /\
    (forall e, In e es ->
       d_name e <> "."%string /\ d_name e <> ".."%string /\
       (cfg_show_dotfiles (cfg m) = false -> dot_name (d_name e) = false)) /\
    (forall e, In e raw -> dot_name (d_name e) = false -> In e es) /\
    (cfg_show_dotfiles (cfg m) = true ->
     forall e, In e raw ->
       d_name e <> "."%string -> d_name e <> ".."%string -> In e es).
Proof.
  intros Hread. unfold listing, scandir. rewrite Hread.
  eexists. split; [reflexivity|].
  pose proof (sort_entries_perm (alphasort o)
                (List.filter (display_filter (cfg m)) raw)) as Hp.
  split; [exact Hp|].
  assert (Hin : forall e,
             In e (sort_entries (alphasort o)
                     (List.filter (display_filter (cfg m)) raw))
             <-> In e raw /\ display_filter (cfg m) e = true).
  { intros e. rewrite <- filter_In. split; intros H.
    - exact (Permutation_in e Hp H).
    - exact (Permutation_in e (Permutation_sym Hp) H). }
  split; [|split].
  - intros e He. apply Hin in He as [_ Hf].
    rewrite display_filter_spec in Hf.
    repeat split.
    + intros Heq. rewrite Heq in Hf. destruct (cfg_show_dotfiles (cfg m));
        discriminate.
    + intros Heq. rewrite Heq in Hf. destruct (cfg_show_dotfiles (cfg m));
        discriminate.
    + intros Hoff. rewrite Hoff in Hf. cbn [andb orb] in Hf.
      rewrite orb_false_r in Hf. now apply negb_true_iff.
  - intros e He Hdot. apply Hin. split; [exact He|].
    rewrite display_filter_spec, Hdot. reflexivity.
  - intros Hon e He H1 H2. apply Hin. split; [exact He|].
    rewrite display_filter_spec, Hon.
    apply String.eqb_neq in H1, H2. rewrite H1, H2.
    cbn. apply orb_true_r.
Qed.

(** ** X2: the bytes of a name on the terminal (print_name) *)

Lemma above_c0_not_del_append (a b : string) :
  above_c0_not_del (a ++ b) = above_c0_not_del a && above_c0_not_del b.
Proof.
  induction a as [|c a IH]; cbn [append above_c0_not_del]; [reflexivity|].
  now rewrite IH, andb_assoc.
Qed.

Lemma above_c0_not_del_hex_digit (n : Z) : above_c0_not_del (hex_digit n) = true.
Proof.
  destruct n as [|p|p]; try reflexivity.
  do 4 (try destruct p as [p|p|]; try reflexivity).
Qed.

Lemma above_c0_not_del_printed (hex : bool) (s : string) :
  above_c0_not_del (printed hex s) = true.
Proof.
  induction s as [|c s IH]; cbn [printed]; [reflexivity|].
  destruct (printable c) eqn:Hp.
  - cbn [above_c0_not_del]. now rewrite Hp, IH.
  - destruct hex; [|exact IH].
    unfold fmt_hex.
    rewrite !above_c0_not_del_append, !above_c0_not_del_hex_digit, IH. reflexivity.
Qed.

Lemma strlen_String (c : ascii) (s : string) :
  strlen (String c s) = 1 + strlen s.
Proof. unfold strlen. cbn [String.length]. lia. Qed.

Lemma strlen_printed (hex : bool) (s : string) :
  strlen (printed hex s) <= 4 * strlen s /\
  (hex = false -> strlen (printed hex s) <= strlen s) /\
  (hex = true -> strlen s <= strlen (printed hex s)).
Proof.
  induction s as [|c s (IH1 & IH2 & IH3)]; cbn [printed].
  - change (strlen "") with 0. repeat split; intros; lia.
  - rewrite strlen_String. pose proof (strlen_nonneg s).
    destruct (printable c); [|destruct hex].
    + rewrite strlen_String. split; [lia|].
      split; intros H'; [specialize (IH2 H') | specialize (IH3 H')]; lia.
    + rewrite strlen_append, strlen_fmt_hex. split; [lia|].
      split; intros H'; [discriminate | specialize (IH3 H'); lia].
    + split; [lia|].
      split; intros H'; [specialize (IH2 H'); lia | discriminate].
Qed.

Lemma above_c0_not_del_In (s : string) :
  above_c0_not_del s = true ->
  forall c, In c (list_ascii_of_string s) ->
    31 < byte_of c /\ byte_of c <> 127.
Proof.
  induction s as [|a s IH]; cbn [above_c0_not_del list_ascii_of_string In];
    [contradiction|].
  intros H c Hc. apply andb_prop in H as [Ha Hs].
  destruct Hc as [<- | Hc]; [|now apply IH].
  unfold printable in Ha. apply andb_prop in Ha as [H1 H2].
  apply Z.ltb_lt in H1. apply negb_true_iff, Z.eqb_neq in H2.
  now split.
Qed.

Lemma list_ascii_append (a b : string) :
  list_ascii_of_string (a ++ b)
  = (list_ascii_of_string a ++ list_ascii_of_string b)%list.
Proof.
  induction a as [|c a IH]; cbn [append list_ascii_of_string app];
    [reflexivity | now rewrite IH].
Qed.

Lemma high_bytes_printed (hex : bool) (s : string) (c : ascii) :
  In c (list_ascii_of_string s) -> 128 <= byte_of c ->
  In c (list_ascii_of_string (printed hex s)).
Proof.
  intros Hc Hhigh.
  assert (Hp : printable c = true).
  { unfold printable. apply andb_true_intro. split.
    - apply Z.ltb_lt. lia.
    - apply negb_true_iff, Z.eqb_neq. lia. }
  induction s as [|a s IH]; cbn [list_ascii_of_string In printed] in *;
    [contradiction|].
  destruct Hc as [-> | Hc].
  - rewrite Hp. cbn [list_ascii_of_string In]. now left.
  - specialize (IH Hc). destruct (printable a).
    + cbn [list_ascii_of_string In]. now right.
    + destruct hex; [|exact IH].
      rewrite list_ascii_append. apply in_or_app. now right.
Qed.

(** X2. Whatever bytes a file name holds, [print_name] returns, and every
    byte it writes passed the test of peek.c 285 or belongs to the four
    bytes of a hex rendering: it is above 0x1F and is not 0x7F.  So no
    name gets ESC, another control character below 0x20 or DEL onto the
    terminal; such bytes are dropped, or with -x written as four bytes.
    The test lets every byte from 0x80 on through, and those are written
    as they are, the 8-bit controls 0x80 to 0x9F among them.  The counter
    returned has grown by exactly the number of bytes written, as long as
    it fits an [int]. *)
Theorem print_name_drops_c0_and_del (hex : bool) (s : string) (pc : Z)
    (m : machine) :
  exists n out,
    print_name hex s pc m = Ret n (set_stdout (stdout m ++ out) m) /\
    (forall c, In c (list_ascii_of_string out) ->
       31 < byte_of c /\ byte_of c <> 127) /\
    (forall c, In c (list_ascii_of_string s) -> 128 <= byte_of c ->
       In c (list_ascii_of_string out)) /\
    strlen out <= 4 * strlen s /\
    (hex = false -> strlen out <= strlen s) /\
    (hex = true -> strlen s <= strlen out) /\
    (0 <= pc -> pc + strlen out <= INT_MAX -> n = pc + strlen out).
Proof.
  exists (name_count hex s pc), (printed hex s).
  destruct (strlen_printed hex s) as (H1 & H2 & H3).
  split; [apply print_name_run|].
  split; [apply above_c0_not_del_In, above_c0_not_del_printed|].
  split; [intros c; apply high_bytes_printed|].
  repeat split; try assumption.
  intros H0 Hfit. now apply name_count_exact.
Qed.

(** ** X3: the report read back (get_cursor_pos) *)

Lemma bytes_of_append (a b : string) :
  bytes_of (a ++ b) = (bytes_of a ++ bytes_of b)%list.
Proof.
  unfold bytes_of. induction a as [|c a IH]; cbn; [reflexivity|].
  now rewrite IH.
Qed.

Lemma uint_value_mono (d : Decimal.uint) :
  forall acc, 0 <= acc -> acc <= uint_value acc d.
Proof.
  induction d; intros acc H; cbn [uint_value]; try lia;
    match goal with
    | IH : forall acc, _ -> _ <= uint_value acc ?l
      |- _ <= uint_value ?a ?l => specialize (IH a); lia
    end.
Qed.

Ltac digit_case IH d k :=
  intros acc rest H0 Hfit;
  cbn [NilEmpty.string_of_uint uint_value] in *;
  pose proof (uint_value_mono d (acc * 10 + k) ltac:(lia)) as Hm;
  destruct (IH (acc * 10 + k) rest ltac:(lia) Hfit) as [IHd IHv];
  match goal with
  | |- context [bytes_of (String ?c ?s)] =>
      change (bytes_of (String c s)) with (byte_of c :: bytes_of s);
      let v := eval vm_compute in (byte_of c) in
      change (byte_of c) with v
  end;
  split;
  [ cbn [forallb]; rewrite IHd; reflexivity
  | cbn [app]; unfold digits_value in *; cbn [fold_left];
    rewrite <- IHv; f_equal;
    rewrite int_wrap_small by (unfold INT_MAX in *; lia); lia ].

Lemma digits_of_uint (d : Decimal.uint) :
  forall acc rest,
    0 <= acc -> uint_value acc d <= INT_MAX ->
    forallb is_digit (bytes_of (NilEmpty.string_of_uint d)) = true /\
    digits_value acc (bytes_of (NilEmpty.string_of_uint d) ++ rest)
    = digits_value (uint_value acc d) rest.
Proof.
  induction d as [|d IH|d IH|d IH|d IH|d IH|d IH|d IH|d IH|d IH|d IH].
  - intros acc rest _ _. split; reflexivity.
  - digit_case IH d 0.
  - digit_case IH d 1.
  - digit_case IH d 2.
  - digit_case IH d 3.
  - digit_case IH d 4.
  - digit_case IH d 5.
  - digit_case IH d 6.
  - digit_case IH d 7.
  - digit_case IH d 8.
  - digit_case IH d 9.
Qed.

Lemma of_uint_acc_value (d : Decimal.uint) :
  forall acc, Z.pos (Pos.of_uint_acc d acc) = uint_value (Z.pos acc) d.
Proof.
  induction d as [|d IH|d IH|d IH|d IH|d IH|d IH|d IH|d IH|d IH|d IH];
    intros acc; cbn [Pos.of_uint_acc uint_value]; [reflexivity|..];
    rewrite IH; f_equal; lia.
Qed.

Lemma of_uint_value (d : Decimal.uint) :
  Z.of_N (Pos.of_uint d) = uint_value 0 d.
Proof.
  induction d as [|d IH|d IH|d IH|d IH|d IH|d IH|d IH|d IH|d IH|d IH];
    cbn [Pos.of_uint uint_value Z.of_N]; [reflexivity | exact IH |..];
    apply of_uint_acc_value.
Qed.

(** [%d] writes a number that fits an [int] as decimal digits, and the
    loop of [get_cursor_pos] reads them back to the number. *)
Lemma fmt_d_digits (n : Z) :
  0 <= n <= INT_MAX ->
  forallb is_digit (bytes_of (fmt_d n)) = true /\
  digits_value 0 (bytes_of (fmt_d n)) = n.
Proof.
  intros Hn. destruct n as [|p|p]; [split; reflexivity | | lia].
  unfold fmt_d. cbn [Z.to_int NilZero.string_of_int].
  pose proof (DecimalPos.Unsigned.of_to p) as Hof.
  assert (Hval : uint_value 0 (Pos.to_uint p) = Z.pos p).
  { now rewrite <- of_uint_value, Hof. }
  assert (Hstr : NilZero.string_of_uint (Pos.to_uint p)
                 = NilEmpty.string_of_uint (Pos.to_uint p)).
  { destruct (Pos.to_uint p); [discriminate Hof | reflexivity..]. }
  rewrite Hstr.
  destruct (digits_of_uint (Pos.to_uint p) 0 [] ltac:(lia)
              ltac:(rewrite Hval; lia)) as [Hd Hv].
  split; [exact Hd|].
  rewrite app_nil_r in Hv. rewrite Hv, Hval. reflexivity.
Qed.

Lemma report_of_cursor_report (row col : Z) :
  report_of row col
  = cursor_report (bytes_of (fmt_d row)) (bytes_of (fmt_d col)).
Proof.
  unfold report_of, cursor_report. rewrite !bytes_of_append. reflexivity.
Qed.

Lemma scan_without_esc (inp : list Z) :
  forall row col,
    Forall (fun g => g <> 27) inp -> scan SeekEsc row col inp = None.
Proof.
  induction inp as [|g inp IH]; intros row col H; [reflexivity|].
  inversion H as [|? ? Hg Hinp]; subst. cbn [scan].
  apply Z.eqb_neq in Hg. rewrite Hg. now apply IH.
Qed.

(** X3. [get_cursor_pos] first takes out of the queue of the terminal
    whatever waits there unread; it is lost, a report included.  Then it
    prints the query and scans what [getchar] delivers, stdio's buffer
    and later input: for every row and column that fit an [int], written
    as the terminal writes them, with whatever bytes other than ESC in
    front, the call returns that row and column and leaves exactly the
    input after the report unread; and when no ESC is delivered the call
    does not return. *)
Theorem get_cursor_pos_reads_report (m : machine) :
  (forall junk rest row col,
      0 <= row <= INT_MAX -> 0 <= col <= INT_MAX ->
      Forall (fun g => g <> 27) junk ->
      stdin m = (junk ++ report_of row col ++ rest)%list ->
      get_cursor_pos m
      = Ret (row, col)
          (set_stdin rest
             (set_stdout (stdout m ++ QUERY)
                (set_queued (tl (queued m)) m)))) /\
  (Forall (fun g => g <> 27) (stdin m) ->
   get_cursor_pos m
   = Blocked
       (set_stdin []
          (set_stdout (stdout m ++ QUERY) (set_queued (tl (queued m)) m)))) /\
  queued (final (get_cursor_pos m)) = tl (queued m).
Proof.
  split; [|split].
  - intros junk rest row col Hrow Hcol Hjunk Hin.
    destruct (fmt_d_digits row Hrow) as [Hrd Hrv].
    destruct (fmt_d_digits col Hcol) as [Hcd Hcv].
    apply get_cursor_pos_run. rewrite Hin.
    rewrite (scan_skips_garbage junk 0 0 _ Hjunk), report_of_cursor_report.
    rewrite (scan_report _ _ rest 0 0 Hrd Hcd), Hrv, Hcv. reflexivity.
  - intros Hno. unfold get_cursor_pos, drain, bind, modify, printf.
    cbn [stdin set_stdout set_queued].
    now rewrite (scan_without_esc (stdin m) 0 0 Hno).
  - unfold get_cursor_pos, drain, bind, modify, printf.
    cbn [stdin set_stdout set_queued].
    destruct (scan SeekEsc 0 0 (stdin m)) as [[[r c] rest]|]; reflexivity.
Qed.

(** ** X4: keys typed ahead of a render (get_cursor_pos, display) *)

Lemma scan_passes_over (junk : list Z) :
  passed_over junk ->
  forall row col rest,
    scan SeekEsc row col (junk ++ rest) = scan SeekEsc row col rest.
Proof.
  induction 1 as [|g junk Hg Hjunk IH|a junk Ha1 Ha2 Hjunk IH];
    intros row col rest.
  - reflexivity.
  - cbn [app scan]. apply Z.eqb_neq in Hg. rewrite Hg. apply IH.
  - cbn [app scan]. change (27 =? 27) with true. change (91 =? 91) with true.
    cbv iota. rewrite Ha1, Ha2. apply IH.
Qed.

Lemma get_cursor_pos_passes_over (junk inp : list Z) (q q' : list (list Z))
    (m : machine) :
  passed_over junk -> tl q = tl q' ->
  get_cursor_pos (set_queued q (set_stdin (junk ++ inp) m))
  = get_cursor_pos (set_queued q' (set_stdin inp m)).
Proof.
  intros Hj Hq. unfold get_cursor_pos, drain, bind, modify, printf.
  cbn [stdin queued set_stdout set_stdin set_queued].
  rewrite (scan_passes_over junk Hj), Hq. reflexivity.
Qed.

Lemma draw_passes_over (o : os) (d_children : option (list dirent))
    (junk inp : list Z) (q q' : list (list Z)) (m : machine) :
  passed_over junk -> tl q = tl q' ->
  draw o d_children (set_queued q (set_stdin (junk ++ inp) m))
  = draw o d_children (set_queued q' (set_stdin inp m)).
Proof.
  intros Hj Hq. unfold draw.
  unfold bind at 1, gets at 1. unfold bind at 1, gets at 1.
  unfold bind at 1, gets at 1. unfold bind at 1, printf at 1.
  symmetry.
  unfold bind at 1, gets at 1. unfold bind at 1, gets at 1.
  unfold bind at 1, gets at 1. unfold bind at 1, printf at 1.
  symmetry.
  unfold bind at 1. symmetry. unfold bind at 1. symmetry.
  change (set_stdout ?s (set_queued ?k (set_stdin ?i m)))
    with (set_queued k (set_stdin i (set_stdout s m))).
  rewrite (get_cursor_pos_passes_over junk inp q q' _ Hj Hq).
  reflexivity.
Qed.

Lemma prepared_set_input (o : os) (inp : list Z) (q : list (list Z))
    (m : machine) :
  prepared o (set_queued q (set_stdin inp m))
  = set_queued q (set_stdin inp (prepared o m)).
Proof.
  unfold prepared, scanned.
  change (listing_count o (set_queued q (set_stdin inp m)))
    with (listing_count o m).
  cbn [d_length set_d_length].
  destruct (listing_count o m =? -1);
    unfold validate_selection, SELECTED_MAX;
    cbn [d_length selected set_d_length set_selected_name set_stdin
         set_queued];
    destruct (listing_count o m <? 1); try reflexivity;
    destruct (selected m <? SELECTED_MIN); try reflexivity;
    destruct (selected m >? listing_count o m - 1); reflexivity.
Qed.

(** X4. A render eats what was typed ahead of the terminal's answer.  When
    the directory opens, what waits unread in the queue of the terminal
    at the first position query is taken out and lost, whatever it is;
    and bytes other than ESC and arrow key sequences that [getchar]
    delivers in front of the rest are passed over by the scan.  Neither
    changes anything in what [display] does, prints or leaves behind, so
    those keys never reach the keystroke loop. *)
Theorem display_drops_type_ahead (o : os) (junk inp : list Z)
    (q q' : list (list Z)) (m : machine) :
  passed_over junk ->
  tl q = tl q' ->
  os_opendir o (cur_name m) = true ->
  display o (set_queued q (set_stdin (junk ++ inp) m))
  = display o (set_queued q' (set_stdin inp m)).
Proof.
  intros Hj Hq Hopen. rewrite !display_unfold.
  change (cur_name (set_queued q (set_stdin (junk ++ inp) m)))
    with (cur_name m).
  change (cur_name (set_queued q' (set_stdin inp m))) with (cur_name m).
  rewrite Hopen.
  change (listing o (set_queued q (set_stdin (junk ++ inp) m)))
    with (listing o m).
  change (listing o (set_queued q' (set_stdin inp m))) with (listing o m).
  rewrite !prepared_set_input.
  now apply draw_passes_over.
Qed.

(** ** X5: rendering twice (display) *)

Lemma validated_idempotent (n sel : Z) :
  validated n (validated n sel) = validated n sel.
Proof.
  unfold validated, SELECTED_MIN.
  destruct (n <? 1) eqn:E1; [reflexivity|].
  destruct (sel <? 0) eqn:E2.
  - destruct (n - 1 <? 0) eqn:E3; [lia|].
    destruct (n - 1 >? n - 1) eqn:E4; [lia | reflexivity].
  - destruct (sel >? n - 1) eqn:E3.
    + change (0 <? 0) with false. cbv iota.
      destruct (0 >? n - 1) eqn:E4; [lia | reflexivity].
    + now rewrite E2, E3.
Qed.

Lemma pick_name_idempotent (es : list dirent) :
  forall i sel old,
    pick_name es i sel (pick_name es i sel old) = pick_name es i sel old.
Proof.
  induction es as [|e es IH]; intros i sel old; cbn [pick_name];
    [reflexivity|].
  destruct (i =? sel); [reflexivity | apply IH].
Qed.

Lemma draw_text_same (o : os) (es : list dirent) (p1 p : machine) (row col : Z) :
  same_view p1 p -> d_length p1 = d_length p ->
  draw_text o es p1 row col = draw_text o es p row col /\
  overflow_of o (loop_counts o p1 es (start_count p1) 0)
  = overflow_of o (loop_counts o p es (start_count p) 0).
Proof.
  intros Hv Hlen.
  assert (Hstart : start_count p1 = start_count p /\
                   header_text p1 = header_text p).
  { destruct Hv as (Hc & _ & _ & Hn).
    unfold start_count, header_text, cur_name. now rewrite Hc, Hn, Hlen. }
  destruct Hstart as [Hstart Hhead].
  unfold draw_text.
  rewrite Hhead, Hlen, Hstart, (same_view_loop_output o p1 p es Hv),
    (same_view_loop_counts o p1 p es Hv).
  split; reflexivity.
Qed.

Lemma drawn_fields (o : os) (es : list dirent) (p : machine)
    (row col : Z) (rest : list Z) :
  selected (drawn o es p row col rest) = selected p /\
  selected_name (drawn o es p row col rest)
  = pick_name es 0 (selected p) (selected_name p) /\
  d_length (drawn o es p row col rest) = d_length p /\
  last_overflow_count (drawn o es p row col rest)
  = overflow_of o (loop_counts o p es (start_count p) 0) /\
  stdout (drawn o es p row col rest)
  = (stdout p ++ draw_text o es p row col)%string /\
  stdin (drawn o es p row col rest) = rest.
Proof. destruct p. repeat split; reflexivity. Qed.

(** X5. Rendering the same directory again is idempotent: after a render
    that returned, a second render to which the system and the terminal
    answer alike returns too, keeps the selection, the selected name, the
    entry count and the overflow count, and prints after the first text
    the text of a render of the first machine, with the cursor answers of
    the second. *)
Theorem redraw_is_idempotent (o : os) (m m1 : machine) (inp : list Z) :
  display o m = Ret tt m1 ->
  renders o (set_stdin inp m1) inp = true ->
  exists m2 r1 c1 r2 c2,
    display o (set_stdin inp m1) = Ret tt m2 /\
    answers_twice inp = Some (r1, c1, (r2, c2), stdin m2) /\
    selected m2 = selected m1 /\
    selected_name m2 = selected_name m1 /\
    d_length m2 = d_length m1 /\
    last_overflow_count m2 = last_overflow_count m1 /\
    stdout m2
    = (stdout m1
         ++ draw_text o (entries_of (listing o m)) (prepared o m) r2 c1)%string.
Proof.
  intros Hret Hr2.
  assert (Hc : cfg m1 = cfg m).
  { pose proof (keeps_display cfg o ltac:(blind) m) as K.
    now rewrite Hret in K. }
  assert (Hn : d_current_name m1 = d_current_name m).
  { pose proof (keeps_display d_current_name o ltac:(blind) m) as K.
    now rewrite Hret in K. }
  assert (Hd1 : d_current_len m1 = d_current_len m).
  { pose proof (keeps_display d_current_len o ltac:(blind) m) as K.
    now rewrite Hret in K. }
  assert (Hlist : listing o (set_stdin inp m1) = listing o m)
    by (apply listing_same; assumption).
  assert (Hcount : listing_count o (set_stdin inp m1) = listing_count o m)
    by (unfold listing_count; now rewrite Hlist).
  pose proof (renders_fit o (set_stdin inp m1) inp Hr2) as Hfit.
  rewrite Hlist in Hfit.
  pose proof (display_ret_renders o m m1 Hret Hfit) as Hr1.
  destruct (display_run o m Hr1) as (a1 & b1 & a2 & b2 & rest1 & Hans1 & Hrun1).
  rewrite Hret in Hrun1. injection Hrun1 as Hm1.
  destruct (display_run o (set_stdin inp m1) Hr2)
    as (r1 & c1 & r2 & c2 & rest2 & Hans2 & Hrun2).
  rewrite Hlist in Hrun2. change (stdin (set_stdin inp m1)) with inp in Hans2.
  destruct (prepared_fields o m) as (HcP & HlP & HnP & _ & _ & HlenP & HsnP).
  destruct (prepared_fields o (set_stdin inp m1))
    as (HcP' & HlP' & HnP' & _ & HoutP' & HlenP' & HsnP').
  destruct (drawn_fields o (entries_of (listing o m)) (prepared o m) a2 b1 rest1)
    as (F1 & F2 & F3 & F4 & F5 & _).
  rewrite <- Hm1 in F1, F2, F3, F4, F5.
  destruct (drawn_fields o (entries_of (listing o m))
              (prepared o (set_stdin inp m1)) r2 c1 rest2)
    as (G1 & G2 & G3 & G4 & G5 & G6).
  assert (HselP' : selected (prepared o (set_stdin inp m1))
                   = selected (prepared o m)).
  { rewrite (selected_prepared o (set_stdin inp m1)), Hcount.
    change (selected (set_stdin inp m1)) with (selected m1). rewrite F1.
    rewrite selected_prepared. apply validated_idempotent. }
  assert (Hv : same_view (prepared o (set_stdin inp m1)) (prepared o m)).
  { repeat split.
    - rewrite HcP', HcP. exact Hc.
    - exact HselP'.
    - rewrite HlP', HlP. exact Hd1.
    - rewrite HnP', HnP. exact Hn. }
  assert (Hlen : d_length (prepared o (set_stdin inp m1))
                 = d_length (prepared o m)) by (now rewrite HlenP', HlenP).
  destruct (draw_text_same o (entries_of (listing o m))
              (prepared o (set_stdin inp m1)) (prepared o m) r2 c1 Hv Hlen)
    as [Htext Hov].
  eexists _, r1, c1, r2, c2.
  split; [exact Hrun2|]. rewrite G6.
  split; [exact Hans2|].
  split; [now rewrite G1, HselP', F1|].
  split.
  { rewrite G2, HselP', HsnP'.
    rewrite (selected_name_scanned o (set_stdin inp m1))
      by (now rewrite Hlist).
    rewrite Hlist. change (selected_name (set_stdin inp m1))
      with (selected_name m1).
    destruct (listing o m) as [l|] eqn:El.
    - rewrite F2. apply pick_name_idempotent.
    - rewrite F2. cbn [entries_of pick_name]. rewrite HsnP.
      rewrite (selected_name_scanned o m) by (rewrite El; exact Hfit).
      now rewrite El. }
  split; [now rewrite G3, Hlen, F3|].
  split; [now rewrite G4, Hov, F4|].
  rewrite G5, HoutP', Htext. reflexivity.
Qed.

(** ** X6: the overflow count a render stores (display) *)




(** ** X7: the stored length of the path (cd, append_to_cd) *)

(** X7. After a directory change that returned, with the canonical path
    within PATH_MAX as realpath promises, the stored length is the length
    of the stored path.  Joining a name to it then gives the whole path, a
    slash and the name, when the three and the final NUL fit PATH_MAX
    bytes; when they do not, the program writes its diagnostic and exits
    with status 1, the terminal attributes put back. *)
Theorem cd_stores_length_of_path (o : os) (to : string) (m m' : machine) :
  cd o to m = Ret tt m' ->
  strlen (cur_name m') <= PATH_MAX ->
  d_current_len m' = strlen (cur_name m') /\
  forall suffix,
    (strlen (cur_name m') + strlen suffix + 2 <= PATH_MAX ->
     append_to_cd suffix m'
     = Ret (cur_name m' ++ "/" ++ suffix)%string m') /\
    (PATH_MAX < strlen (cur_name m') + strlen suffix + 2 ->
     strlen suffix <= INT_MAX ->
     exists m'',
       append_to_cd suffix m' = Exited 1 m'' /\
       stderr m''
       = (stderr m' ++ "(null)/" ++ suffix ++ " is too long of a path!")%string /\
       tty m'' = tcattr_old m').
Proof.
  intros Hcd Hmax.
  assert (Hlen : d_current_len m' = strlen (cur_name m')).
  { destruct (cd_fits m to) eqn:Hfit.
    - rewrite (cd_run o to m Hfit) in Hcd. injection Hcd as <-.
      unfold cur_name in *.
      cbn [d_current_len d_current_name set_selected set_d_length
           set_d_current_len set_d_current_name] in *.
      apply int_wrap_small.
      pose proof (strlen_nonneg
                    (os_realpath o (cd_target m to)
                       match d_current_name m with
                       | Some s => s
                       | None => EmptyString
                       end)).
      unfold PATH_MAX, INT_MAX in *. lia.
    - rewrite (cd_too_long_exits o to m Hfit) in Hcd. discriminate. }
  split; [exact Hlen|].
  pose proof (strlen_nonneg (cur_name m')) as H0.
  intros suffix. pose proof (strlen_nonneg suffix) as H1. split.
  - intros Hfit. rewrite append_to_cd_run.
    + rewrite Hlen, substring_all; [reflexivity|]. unfold strlen. lia.
    + rewrite Hlen, size_wrap_small by (unfold PATH_MAX in *; lia).
      lia.
  - intros Hlong Hsuf. unfold append_to_cd.
    rewrite Hlen.
    rewrite size_wrap_small by (unfold PATH_MAX, INT_MAX in *; lia).
    destruct (_ >? PATH_MAX) eqn:E; [|lia].
    eexists. split; [reflexivity|].
    unfold restore_tcattr. cbn zeta.
    destruct (cfg_clear_trace _); destruct m'; split; reflexivity.
Qed.

(** ** X8: the keys and their synonyms (main) *)

(** X8. The keystroke switch does not tell upper case from lower case;
    Enter does what J does; and the arrow keys, which arrive as ESC, a
    bracket and a letter, do what K, J, L and H do, once the three bytes
    are read. *)
Theorem keys_have_synonyms (o : os) :
  (forall k, 65 <= k <= 90 -> on_key o (k + 32) = on_key o k) /\
  on_key o 10 = on_key o 74 /\
  (forall a letter inp m,
      In (a, letter) [(65, 75); (66, 74); (67, 76); (68, 72)] ->
      on_key o 27 (set_stdin (91 :: a :: inp) m)
      = on_key o letter (set_stdin inp m)).
Proof.
  split; [|split].
  - intros k Hk.
    assert (H : In k [65; 66; 67; 68; 69; 70; 71; 72; 73; 74; 75; 76; 77;
                      78; 79; 80; 81; 82; 83; 84; 85; 86; 87; 88; 89; 90]).
    { cbn [In]. lia. }
    cbn [In] in H.
    repeat (destruct H as [<- | H]; [reflexivity|]). contradiction.
  - reflexivity.
  - intros a letter inp m H. cbn [In] in H.
    change (on_key o 27) with (on_escape o).
    unfold on_escape, bind at 1 2, getchar.
    cbn [stdin set_stdin is_key].
    destruct m.
    repeat (destruct H as [H | H];
            [injection H as <- <-; reflexivity|]).
    contradiction.
Qed.

(** ** X9, X10: handing the selection over (open_selection, main) *)

Lemma selected_path_run (m : machine) :
  d_current_len m = strlen (cur_name m) ->
  strlen (cur_name m) + strlen (selected_name m) + 2 <= PATH_MAX ->
  append_to_cd (selected_name m) m
  = Ret (cur_name m ++ "/" ++ selected_name m)%string m.
Proof.
  intros Hlen Hfit.
  pose proof (strlen_nonneg (cur_name m)).
  pose proof (strlen_nonneg (selected_name m)).
  rewrite append_to_cd_run.
  - rewrite Hlen, substring_all; [reflexivity|]. unfold strlen. lia.
  - rewrite Hlen, size_wrap_small by (unfold PATH_MAX in *; lia). lia.
Qed.

Lemma open_selection_in_process (o : os) (opener : option string) (m : machine) :
  d_current_len m = strlen (cur_name m) ->
  strlen (cur_name m) + strlen (selected_name m) + 2 <= PATH_MAX ->
  let path := (cur_name m ++ "/" ++ selected_name m)%string in
  let prog := match opener with Some p => p | None => path end in
  let argv := match opener with Some p => [p; path] | None => [path] end in
  let handed :=
    if cfg_clear_trace (cfg m)
    then set_stdout (stdout (restore_tcattr m) ++ LF) (restore_tcattr m)
    else restore_tcattr m in
  (r <- open_selection o opener false ;; @exit unit r) m
  = if os_execv_ok o prog then Replaced prog argv handed
    else Exited 1
           (restore_tcattr
              (set_stderr (stderr handed ++ prog ++ " failed to execute")
                 (set_stdout (stdout handed ++ LF) handed))).
Proof.
  intros Hlen Hfit path prog argv handed.
  unfold open_selection. unfold bind at 1 2. unfold gets at 1.
  unfold bind at 1. rewrite (selected_path_run m Hlen Hfit).
  fold path. fold prog. fold argv.
  unfold bind at 1 2, modify at 1. unfold bind at 1, gets at 1.
  assert (Hc : cfg (restore_tcattr m) = cfg m).
  { unfold restore_tcattr. cbn zeta.
    destruct (cfg_clear_trace _); destruct m; reflexivity. }
  rewrite Hc. subst handed.
  destruct (cfg_clear_trace (cfg m)).
  - unfold putchar at 1. destruct (os_execv_ok o prog); reflexivity.
  - unfold ret at 1. destruct (os_execv_ok o prog); reflexivity.
Qed.

(** X9. The keys E and X hand the terminal over: with the path of the
    selection within PATH_MAX, the terminal is restored first, then the
    process image is replaced, by the editor with the absolute path of the
    selection as its argument for E, by the selection itself for X.  When
    execv fails the program writes its diagnostic and exits with status 1,
    and the restoration runs a second time. *)
Theorem keys_hand_over_the_selection (o : os) (k : Z) (opener : option string)
    (m : machine) :
  In (k, opener) [(69, Some "/usr/bin/vim"%string);
                  (101, Some "/usr/bin/vim"%string); (88, None); (120, None)] ->
  d_current_len m = strlen (cur_name m) ->
  strlen (cur_name m) + strlen (selected_name m) + 2 <= PATH_MAX ->
  let path := (cur_name m ++ "/" ++ selected_name m)%string in
  let prog := match opener with Some p => p | None => path end in
  let argv := match opener with Some p => [p; path] | None => [path] end in
  let handed :=
    if cfg_clear_trace (cfg m)
    then set_stdout (stdout (restore_tcattr m) ++ LF) (restore_tcattr m)
    else restore_tcattr m in
  tty handed = tcattr_old m /\
  (os_execv_ok o prog = true -> on_key o k m = Replaced prog argv handed) /\
  (os_execv_ok o prog = false ->
   on_key o k m
   = Exited 1
       (restore_tcattr
          (set_stderr (stderr handed ++ prog ++ " failed to execute")
             (set_stdout (stdout handed ++ LF) handed)))).
Proof.
  intros Hk Hlen Hfit path prog argv handed.
  assert (Hrun : on_key o k m
                 = (r <- open_selection o opener false ;; @exit unit r) m).
  { cbn [In] in Hk.
    repeat (destruct Hk as [Hk | Hk]; [injection Hk as <- <-; reflexivity|]).
    contradiction. }
  rewrite Hrun, (open_selection_in_process o opener m Hlen Hfit).
  fold path. fold prog. fold argv. fold handed.
  split; [|split].
  - subst handed.
    destruct (cfg_clear_trace (cfg m)); [|apply tty_restore_tcattr].
    rewrite <- (tty_restore_tcattr m).
    destruct (restore_tcattr m); reflexivity.
  - intros ->. reflexivity.
  - intros ->. reflexivity.
Qed.

(** X10. The key O starts the opener in a child and ends the program at
    once: when fork succeeds the parent leaves with status 0 through the
    restoration, and when it fails the program writes its diagnostic and
    leaves with status 1.  No further key is read in either case. *)
Theorem open_key_forks_and_quits (o : os) (k : Z) (m : machine) :
  k = 79 \/ k = 111 ->
  d_current_len m = strlen (cur_name m) ->
  strlen (cur_name m) + strlen (selected_name m) + 2 <= PATH_MAX ->
  on_key o k m
  = if os_fork_ok o then Exited 0 (restore_tcattr m)
    else Exited 1
           (restore_tcattr
              (set_stderr
                 (stderr m ++ "Could not start process for /usr/bin/xdg-open")
                 (set_stdout (stdout m ++ LF) m))).
Proof.
  intros Hk Hlen Hfit.
  assert (Hrun : on_key o k m
                 = (r <- open_selection o (Some "/usr/bin/xdg-open"%string) true ;;
                    @exit unit r) m).
  { destruct Hk as [-> | ->]; reflexivity. }
  rewrite Hrun. unfold open_selection. unfold bind at 1 2. unfold gets at 1.
  unfold bind at 1. rewrite (selected_path_run m Hlen Hfit).
  destruct (os_fork_ok o); reflexivity.
Qed.

(** ** X11, X12: the command line (main) *)

Lemma configured_nil (c : config) : configured [] c = c.
Proof.
  destruct c as [[] [] [] [] [] []]; reflexivity.
Qed.

Lemma set_cfg_same (m : machine) : set_cfg (cfg m) m = m.
Proof. now destruct m. Qed.

Lemma configured_step (f : getopt_result) (flags : list getopt_result)
    (m : machine) :
  (flag_char f =? 104) = false -> (flag_char f =? 63) = false ->
  set_cfg (configured flags (cfg (set_cfg (flag_config f (cfg m)) m)))
    (set_cfg (flag_config f (cfg m)) m)
  = set_cfg (configured (f :: flags) (cfg m)) m.
Proof.
  intros Hh Hu.
  destruct f; try discriminate;
    destruct m as [[a b c d e g] ? ? ? ? ? ? ? ? ? ? ? ?];
    unfold set_cfg, configured, given;
    cbn [cfg flag_config existsb flag_char cfg_show_dotfiles cfg_color
         cfg_clear_trace cfg_show_dir cfg_indicate cfg_print_hex
         d_current_name d_current_len d_length selected selected_name
         last_overflow_count tcattr_old tty stdin stdout stderr];
    cbn [Z.eqb Pos.eqb orb andb negb];
    rewrite ?orb_true_r, ?andb_false_r; reflexivity.
Qed.

Lemma parse_flags_app (argv0 : string) (pre rest : list getopt_result) :
  forall m,
    given 104 pre = false -> given 63 pre = false ->
    parse_flags argv0 (pre ++ rest) m
    = parse_flags argv0 rest (set_cfg (configured pre (cfg m)) m).
Proof.
  induction pre as [|f pre IH]; intros m Hh Hu.
  - cbn [app]. now rewrite configured_nil, set_cfg_same.
  - unfold given in Hh, Hu. cbn [existsb] in Hh, Hu.
    apply orb_false_elim in Hh as [Hh1 Hh], Hu as [Hu1 Hu].
    fold (given 104 pre) in Hh. fold (given 63 pre) in Hu.
    rewrite <- (configured_step f pre m Hh1 Hu1), <- (IH _ Hh Hu).
    destruct f; try discriminate; reflexivity.
Qed.

Lemma parse_flags_run (argv0 : string) (flags : list getopt_result) (m : machine) :
  given 104 flags = false -> given 63 flags = false ->
  parse_flags argv0 flags m = Ret tt (set_cfg (configured flags (cfg m)) m).
Proof.
  intros Hh Hu. rewrite <- (app_nil_r flags) at 1.
  now rewrite parse_flags_app.
Qed.

(** X11. Without -h and without an option it does not know, the loop
    over the options returns and changes the configuration only: each of
    -a, -c, -d, -F and -x turns its setting on, -B turns color off, and
    what counts is which options were given, not their order nor how
    often. *)
Theorem flags_set_the_configuration (argv0 : string)
    (flags : list getopt_result) (m : machine) :
  given 104 flags = false -> given 63 flags = false ->
  parse_flags argv0 flags m = Ret tt (set_cfg (configured flags (cfg m)) m) /\
  forall flags',
    (forall c, given c flags' = given c flags) ->
    parse_flags argv0 flags' m = parse_flags argv0 flags m.
Proof.
  intros Hh Hu. split; [now apply parse_flags_run|].
  intros flags' Hsame.
  rewrite !parse_flags_run by (rewrite ?Hsame; assumption).
  unfold configured. now rewrite !Hsame.
Qed.

(** X12. The first -h, or the first option that getopt does not know,
    ends main at once, whatever follows it on the command line: the help
    goes to stdout and the status is 0, or the complaint of getopt and the
    usage go to stderr and the status is 1.  No directory has been entered,
    no input read, and the terminal attributes are as they were. *)
Theorem help_or_unknown_option_ends_main (o : os)
    (build : option (string * string)) (argv0 : string)
    (pre post : list getopt_result) (dir : option string) (passes : nat)
    (m : machine) :
  given 104 pre = false -> given 63 pre = false ->
  main o build argv0 (pre ++ Opt_h :: post) dir passes m
  = Exited 0 (set_stdout (stdout m ++ MSG_HELP argv0)
                (set_cfg (configured pre (cfg m)) m)) /\
  forall said,
    main o build argv0 (pre ++ Opt_unknown said :: post) dir passes m
    = Exited 1 (set_stderr ((stderr m ++ said) ++ MSG_INVALID argv0)
                  (set_cfg (configured pre (cfg m)) m)).
Proof.
  intros Hh Hu. unfold main. split; [|intros said].
  - unfold bind at 1. rewrite (parse_flags_app argv0 pre _ m Hh Hu).
    destruct m; reflexivity.
  - unfold bind at 1. rewrite (parse_flags_app argv0 pre _ m Hh Hu).
    destruct m; reflexivity.
Qed.

(** ** X13: the raw mode of the terminal (main) *)

Lemma echo_icanon_bits (n : Z) :
  Z.testbit (Z.lor ECHO ICANON) n = ((n =? 1) || (n =? 3))%bool.
Proof.
  change (Z.lor ECHO ICANON) with 10.
  destruct (Z.neg_nonneg_cases n) as [Hneg | Hn].
  - rewrite Z.testbit_neg_r by exact Hneg.
    destruct (n =? 1) eqn:E1; [lia|]. destruct (n =? 3) eqn:E3; [lia|].
    reflexivity.
  - destruct (Z.lt_ge_cases n 4) as [Hlow | Hhigh].
    + assert (H : n = 0 \/ n = 1 \/ n = 2 \/ n = 3) by lia.
      destruct H as [-> | [-> | [-> | ->]]]; reflexivity.
    + rewrite Z.bits_above_log2 by (cbn; lia).
      destruct (n =? 1) eqn:E1; [lia|]. destruct (n =? 3) eqn:E3; [lia|].
      reflexivity.
Qed.

(** X13. The raw attributes that main installs differ from the saved
    ones in this only: the bits of ECHO and ICANON are off in the local
    flags, every other bit as it was, and VMIN and VTIME are 0.  The flag
    word stays a 32-bit word, and making raw what is raw changes
    nothing. *)
Theorem raw_mode_clears_echo_and_icanon (old : termios) :
  (forall n,
      Z.testbit (c_lflag (raw_of old)) n
      = (Z.testbit (c_lflag old) n && negb ((n =? 1) || (n =? 3)))%bool) /\
  c_cc_VMIN (raw_of old) = 0 /\ c_cc_VTIME (raw_of old) = 0 /\
  raw_of (raw_of old) = raw_of old /\
  (0 <= c_lflag old < 2 ^ 32 ->
   0 <= c_lflag (raw_of old) < 2 ^ 32 /\
   Z.land (c_lflag (raw_of old)) (Z.lor ECHO ICANON) = 0).
Proof.
  assert (Hbits : forall n,
             Z.testbit (c_lflag (raw_of old)) n
             = (Z.testbit (c_lflag old) n && negb ((n =? 1) || (n =? 3)))%bool).
  { intros n. cbn [raw_of c_lflag].
    rewrite <- Z.ldiff_land, Z.ldiff_spec, echo_icanon_bits. reflexivity. }
  split; [exact Hbits|].
  split; [reflexivity|]. split; [reflexivity|].
  split.
  { unfold raw_of at 1. cbn [c_lflag c_cc_VMIN c_cc_VTIME raw_of].
    f_equal. rewrite <- Z.land_assoc, Z.land_diag. reflexivity. }
  intros [Hlo Hhi].
  assert (Hnn : 0 <= c_lflag (raw_of old)).
  { cbn [raw_of c_lflag]. apply Z.land_nonneg. now left. }
  split; [split; [exact Hnn|] |].
  - destruct (Z.eq_dec (c_lflag (raw_of old)) 0) as [-> | Hne]; [reflexivity|].
    apply Z.log2_lt_pow2; [lia|].
    destruct (Z.lt_ge_cases (Z.log2 (c_lflag (raw_of old))) 32) as [H | H];
      [exact H|].
    pose proof (Z.bit_log2 (c_lflag (raw_of old)) ltac:(lia)) as Hbit.
    rewrite Hbits in Hbit. apply andb_prop in Hbit as [Hbit _].
    rewrite Z.bits_above_log2 in Hbit; [discriminate | exact Hlo |].
    destruct (Z.eq_dec (c_lflag old) 0) as [H0 | Hne'].
    + exfalso. apply Hne. cbn [raw_of c_lflag]. rewrite H0.
      apply Z.land_0_l.
    + apply Z.log2_lt_pow2 in Hhi; lia.
  - cbn [raw_of c_lflag]. rewrite <- Z.ldiff_land. apply Z.land_ldiff.
Qed.

(** ** X14: the terminal after the program (main) *)

Lemma parse_flags_cases (argv0 : string) (flags : list getopt_result) :
  forall m,
    (exists c, parse_flags argv0 flags m = Ret tt (set_cfg c m)) \/
    (exists s m', parse_flags argv0 flags m = Exited s m' /\ tty m' = tty m).
Proof.
  induction flags as [|f flags IH]; intros m.
  - left. exists (cfg m). cbn [parse_flags]. unfold ret.
    now rewrite set_cfg_same.
  - assert (Hstep : forall g,
               (exists c, (modify (fun m => set_cfg (g (cfg m)) m) ;;;
                           parse_flags argv0 flags) m = Ret tt (set_cfg c m)) \/
               (exists s m', (modify (fun m => set_cfg (g (cfg m)) m) ;;;
                              parse_flags argv0 flags) m = Exited s m' /\
                             tty m' = tty m)).
    { intros g. unfold bind at 1, modify at 1.
      destruct (IH (set_cfg (g (cfg m)) m)) as [[c Hc] | (s & m' & Hm' & Ht)].
      - left. exists c. rewrite Hc. now destruct m.
      - right. exists s, m'. split; [exact Hm' | now rewrite Ht]. }
    destruct f; cbn [parse_flags]; try apply Hstep.
    + right. eexists _, _. split; [reflexivity|]. now destruct m.
    + right. eexists _, _. split; [reflexivity|]. now destruct m.
Qed.

(** X14. Whatever is typed, and whatever of it waits in the queue of
    the terminal when a render asks for the cursor position: however a run
    of the whole program ends, by an exit, by the return from main or by
    handing the process over with execv, the attributes of the terminal
    are then the ones it had when the program started.  Until then, while the program waits for a key, and also when
    the render trapped on a window without columns, the terminal is in
    the raw mode and the attributes found at the start are the saved
    ones. *)
Theorem main_puts_the_terminal_back (o : os) (build : option (string * string))
    (argv0 : string) (flags : list getopt_result) (dir : option string)
    (passes : nat) (t : termios) (inp : list Z) (q : list (list Z)) :
  match main o build argv0 flags dir passes
          (set_queued q (initial_machine t inp)) with
  | Exited _ m' => tty m' = t
  | Replaced _ _ m' => tty m' = t
  | Ret _ m' => tty m' = raw_of t /\ tcattr_old m' = t
  | Blocked m' => tty m' = raw_of t /\ tcattr_old m' = t
  | Trapped m' => tty m' = raw_of t /\ tcattr_old m' = t
  end.
Proof.
  unfold main. unfold bind at 1.
  destruct (parse_flags_cases argv0 flags
              (set_queued q (initial_machine t inp)))
    as [[c ->] | (s & m' & -> & Ht)]; [|exact Ht].
  unfold bind at 1.
  rewrite cd_run by reflexivity.
  unfold session_loop.
  unfold bind at 1, modify at 1. unfold bind at 1, modify at 1.
  unfold bind at 1.
  set (m2 := set_tty _ _).
  assert (Hold : forall s, tcattr_old (set_stdout s m2) = t) by reflexivity.
  assert (Hraw : forall s, tty (set_stdout s m2) = raw_of t) by reflexivity.
  assert (Hrest : forall m3,
             tcattr_old m3 = t -> tty m3 = raw_of t ->
             match (printf (ESC ++ "[?25l" ++ ESC ++ "[s") ;;;
                    display o ;;; main_loop o passes) m3 with
             | Exited _ m' => tty m' = t
             | Replaced _ _ m' => tty m' = t
             | Ret _ m' => tty m' = raw_of t /\ tcattr_old m' = t
             | Blocked m' => tty m' = raw_of t /\ tcattr_old m' = t
             | Trapped m' => tty m' = raw_of t /\ tcattr_old m' = t
             end).
  { intros m3 H3 R3. unfold bind at 1, printf at 1.
    set (m4 := set_stdout _ m3).
    assert (H4 : tcattr_old m4 = t) by (subst m4; now destruct m3).
    assert (R4 : tty m4 = raw_of t) by (subst m4; now destruct m3).
    assert (Hkeep : keeps tcattr_old (display o ;;; main_loop o passes)).
    { apply keeps_bind; [apply keeps_display; blind | intros _].
      apply keeps_main_loop. blind. }
    assert (Hend : ends_restored (display o ;;; main_loop o passes)).
    { apply ends_restored_bind; [apply ends_restored_display | intros _].
      apply ends_restored_main_loop. }
    assert (Htty : leaves_tty (display o ;;; main_loop o passes)).
    { apply leaves_tty_bind; [apply leaves_tty_display | intros _].
      apply leaves_tty_main_loop. }
    specialize (Hkeep m4). specialize (Hend m4). specialize (Htty m4).
    destruct ((display o ;;; main_loop o passes) m4) as [a m'|s m'|p a m'|m'|m'];
      cbn [final] in Hkeep;
      first [ split; [now rewrite Htty | now rewrite Hkeep]
            | now rewrite (restored_tty _ Hend), Hkeep ]. }
  destruct build as [[date time]|]; cbn [dev_banner].
  - unfold bind at 1, printf at 1. unfold ret at 1.
    apply Hrest; [apply Hold | apply Hraw].
  - unfold ret at 1. apply Hrest; reflexivity.
Qed.

(** ** X15: entering a directory (main, cd, display) *)

Lemma ascend_keys_run (o : os) (m : machine) (keys inp : list Z) :
  In keys ascend_keys -> stdin m = (keys ++ inp)%list ->
  key_step o m = (cd o ".." ;;; display o) (set_stdin inp m).
Proof.
  intros [<-|[<-|[<-|[]]]] H; rewrite (key_step_run o m _ _ H);
    reflexivity.
Qed.

(** X15. A key that changes the directory, down into the selected entry
    or up to the parent, leaves the program in the canonical path of the
    target with the selection on entry 0; once the render of the new
    directory has returned, the entry count is that of the new listing and
    the selected name is the name of its first entry. *)
Theorem entering_selects_the_first_entry (o : os) (m : machine)
    (keys inp : list Z) (to : string) :
  (In keys descend_keys /\ to = selected_name m) \/
  (In keys ascend_keys /\ to = ".."%string) ->
  stdin m = (keys ++ inp)%list ->
  cd_fits m to = true ->
  renders o (final (cd o to (set_stdin inp m))) inp = true ->
  exists m',
    key_step o m = Ret tt m' /\
    d_current_name m' = Some (os_realpath o (cd_target m to) (cur_name m)) /\
    selected m' = 0 /\
    d_length m' = listing_count o m' /\
    forall e es,
      listing o m' = Some (e :: es) ->
      strlen (d_name e) < SELECTED_MAXLEN ->
      selected_name m' = d_name e.
Proof.
  intros Hkeys Hin Hfit Hr.
  assert (Hstep : key_step o m = (cd o to ;;; display o) (set_stdin inp m)).
  { destruct Hkeys as [[Hk ->] | [Hk ->]].
    - rewrite (descend_keys_run o m keys inp Hk Hin). reflexivity.
    - apply (ascend_keys_run o m keys inp Hk Hin). }
  assert (Hfit' : cd_fits (set_stdin inp m) to = true) by exact Hfit.
  rewrite Hstep. unfold bind at 1.
  rewrite (cd_run o to (set_stdin inp m) Hfit') in Hr |- *.
  cbn [final] in Hr.
  change (cd_target (set_stdin inp m) to) with (cd_target m to) in *.
  change (cur_name (set_stdin inp m)) with (cur_name m) in *.
  set (m1 := set_selected SELECTED_MIN _) in *.
  destruct (display_effect o m1 Hr)
    as (m' & r1 & c1 & r2 & c2 & Hrun & _ & Hc & Hn & _ & Hlen & Hsel & Hsn & _).
  pose proof (renders_fit o m1 inp Hr) as Hcount.
  assert (Hl : listing o m' = listing o m1) by (now apply listing_same).
  assert (Hsel0 : selected m' = 0).
  { rewrite Hsel. change (selected m1) with 0.
    unfold validated, SELECTED_MIN.
    destruct (listing_count o m1 <? 1) eqn:E; [reflexivity|].
    change (0 <? 0) with false. cbv iota.
    destruct (0 >? listing_count o m1 - 1) eqn:E'; [lia | reflexivity]. }
  exists m'. split; [exact Hrun|].
  split; [rewrite Hn; reflexivity|].
  split; [exact Hsel0|].
  split.
  { rewrite Hlen. unfold listing_count. now rewrite Hl. }
  intros e es He Hname. rewrite Hl in He.
  rewrite Hsn, Hsel0, He in *. cbn [entries_of pick_name] in *.
  change (0 =? 0) with true. cbv iota.
  rewrite pick_name_miss.
  - now apply memcpy_name_fits.
  - rewrite int_wrap_small; unfold INT_MAX; lia.
  - rewrite int_wrap_small; unfold INT_MAX; lia.
  - rewrite int_wrap_small by (unfold INT_MAX; lia).
    cbn [List.length] in Hcount. lia.
Qed.

(** ** X16: what a render and the keys leave alone (display, main) *)

(** X16. However a render ends, it leaves the flags, the path of the
    directory, the stored length of the path and the saved terminal
    attributes as they were; and no sequence of keys changes the flags. *)
Theorem render_and_keys_keep_the_settings (o : os) (passes : nat) (m : machine) :
  cfg (final (display o m)) = cfg m /\
  d_current_name (final (display o m)) = d_current_name m /\
  d_current_len (final (display o m)) = d_current_len m /\
  tcattr_old (final (display o m)) = tcattr_old m /\
  cfg (final (main_loop o passes m)) = cfg m.
Proof.
  repeat split.
  - apply (keeps_display cfg o). blind.
  - apply (keeps_display d_current_name o). blind.
  - apply (keeps_display d_current_len o). blind.
  - apply (keeps_display tcattr_old o). blind.
  - apply (keeps_main_loop cfg). blind.
Qed.

(** ** The further properties at concrete inputs *)

Lemma listing_holds_filtered_entries_witness :
  exists es,
    listing c_system (scenario_session 0 "" []) = Some es /\
    In (entry "apple" DT_REG) es.
Proof.
  destruct (listing_holds_filtered_entries c_system (scenario_session 0 "" [])
              scenario_dir eq_refl)
    as (es & Hl & _ & _ & Hall & _).
  exists es. split; [exact Hl|].
  apply Hall; [right; left; reflexivity | reflexivity].
Defined.

Lemma print_name_drops_c0_and_del_witness :
  exists n out,
    print_name false "ab" 0 (scenario_session 0 "" [])
    = Ret n (set_stdout (stdout (scenario_session 0 "" []) ++ out)
               (scenario_session 0 "" [])) /\
    n = 0 + strlen out.
Proof.
  destruct (print_name_drops_c0_and_del false "ab" 0 (scenario_session 0 "" []))
    as (n & out & Hrun & _ & _ & _ & Hle & _ & Hn).
  exists n, out. split; [exact Hrun|].
  apply Hn; [lia|].
  pose proof (Hle eq_refl) as H. change (strlen "ab") with 2 in H.
  unfold INT_MAX. lia.
Defined.

Lemma get_cursor_pos_reads_report_witness :
  (exists m',
      get_cursor_pos
        (set_queued [[120]]
           (session default_config "/tmp" 0 ""
              ([65; 66] ++ report_of 12 34 ++ [74])))
      = Ret (12, 34) m' /\
      stdin m' = [74] /\ queued m' = []) /\
  (exists m',
      get_cursor_pos
        (set_queued [([120; 121] ++ report_of 12 34 ++ [74])%list]
           (session default_config "/tmp" 0 "" []))
      = Blocked m' /\
      stdin m' = [] /\ queued m' = []).
Proof.
  split.
  - destruct (get_cursor_pos_reads_report
                (set_queued [[120]]
                   (session default_config "/tmp" 0 ""
                      ([65; 66] ++ report_of 12 34 ++ [74]))))
      as (Hreads & _ & _).
    eexists. split.
    + apply (Hreads [65; 66] [74] 12 34).
      * unfold INT_MAX. lia.
      * unfold INT_MAX. lia.
      * repeat constructor; discriminate.
      * reflexivity.
    + split; reflexivity.
  - destruct (get_cursor_pos_reads_report
                (set_queued [([120; 121] ++ report_of 12 34 ++ [74])%list]
                   (session default_config "/tmp" 0 "" [])))
      as (_ & Hblocks & _).
    eexists. split.
    + apply Hblocks. constructor.
    + split; reflexivity.
Defined.

Lemma display_drops_type_ahead_witness :
  display c_system
    (set_queued [[120; 27; 91; 66]]
       (set_stdin ([120; 27; 91; 65] ++ report_12_34 ++ report_12_34)
          (scenario_session 0 "" [])))
  = display c_system
      (set_queued []
         (set_stdin (report_12_34 ++ report_12_34) (scenario_session 0 "" []))).
Proof.
  apply (display_drops_type_ahead c_system [120; 27; 91; 65]
           (report_12_34 ++ report_12_34) [[120; 27; 91; 66]] []
           (scenario_session 0 "" [])).
  - apply passed_byte; [discriminate|].
    apply passed_arrow; [reflexivity | reflexivity | apply passed_nil].
  - reflexivity.
  - reflexivity.
Defined.

Lemma redraw_is_idempotent_witness :
  exists m1 m2,
    display c_system (scenario_session 1 "" []) = Ret tt m1 /\
    display c_system (set_stdin (report_12_34 ++ report_12_34) m1) = Ret tt m2 /\
    selected m2 = 1 /\ selected_name m2 = "apple"%string /\
    last_overflow_count m2 = last_overflow_count m1.
Proof.
  destruct (display_effect c_system (scenario_session 1 "" []) eq_refl)
    as (m1 & _ & _ & _ & _ & Hrun & _).
  pose proof Hrun as Hm. vm_compute in Hm. injection Hm as <-.
  destruct (redraw_is_idempotent c_system (scenario_session 1 "" []) _
              (report_12_34 ++ report_12_34) Hrun eq_refl)
    as (m2 & r1 & c1 & r2 & c2 & Hrun2 & _ & Hsel & Hname & _ & Hov & _).
  eexists _, m2. split; [exact Hrun|]. split; [exact Hrun2|].
  split; [rewrite Hsel; reflexivity|].
  split; [rewrite Hname; reflexivity | exact Hov].
Defined.


Lemma cd_stores_length_of_path_witness :
  exists m',
    cd c_system "Banana" (scenario_session 0 "Banana" []) = Ret tt m' /\
    d_current_len m' = 11 /\
    append_to_cd "x" m' = Ret "/tmp/Banana/x"%string m'.
Proof.
  pose proof (cd_run c_system "Banana" (scenario_session 0 "Banana" []) eq_refl)
    as Hrun.
  set (m' := set_selected _ _) in Hrun.
  destruct (cd_stores_length_of_path c_system "Banana"
              (scenario_session 0 "Banana" []) m' Hrun)
    as [Hlen Happend].
  - vm_compute. discriminate.
  - exists m'. split; [exact Hrun|]. split; [rewrite Hlen; reflexivity|].
    destruct (Happend "x"%string) as [Hfits _].
    rewrite Hfits; [reflexivity|]. vm_compute. discriminate.
Defined.

Lemma keys_have_synonyms_witness :
  on_key c_system 27 (set_stdin [91; 65] (scenario_session 0 "" []))
  = on_key c_system 75 (set_stdin [] (scenario_session 0 "" [])) /\
  on_key c_system 107 = on_key c_system 75.
Proof.
  destruct (keys_have_synonyms c_system) as (Hcase & _ & Harrow).
  split.
  - apply (Harrow 65 75 [] (scenario_session 0 "" [])). left. reflexivity.
  - apply (Hcase 75). lia.
Defined.

Lemma keys_hand_over_the_selection_witness :
  on_key c_system 69 (scenario_session 0 "apple" [])
  = Replaced "/usr/bin/vim" ["/usr/bin/vim"; "/tmp/apple"]%string
      (restore_tcattr (scenario_session 0 "apple" [])).
Proof.
  destruct (keys_hand_over_the_selection c_system 69
              (Some "/usr/bin/vim"%string) (scenario_session 0 "apple" []))
    as (_ & Hok & _).
  - left. reflexivity.
  - reflexivity.
  - vm_compute. discriminate.
  - rewrite (Hok eq_refl). reflexivity.
Defined.

Lemma open_key_forks_and_quits_witness :
  on_key c_system 111 (scenario_session 0 "apple" [])
  = Exited 0 (restore_tcattr (scenario_session 0 "apple" [])).
Proof.
  rewrite (open_key_forks_and_quits c_system 111 (scenario_session 0 "apple" [])).
  - reflexivity.
  - right. reflexivity.
  - reflexivity.
  - vm_compute. discriminate.
Defined.

Lemma flags_set_the_configuration_witness :
  parse_flags "peek" [Opt_F; Opt_a] (initial_machine cooked [])
  = parse_flags "peek" [Opt_a; Opt_F; Opt_a] (initial_machine cooked []) /\
  cfg_show_dotfiles
    (cfg (final (parse_flags "peek" [Opt_a; Opt_F; Opt_a]
                   (initial_machine cooked [])))) = true.
Proof.
  destruct (flags_set_the_configuration "peek" [Opt_a; Opt_F; Opt_a]
              (initial_machine cooked []) eq_refl eq_refl)
    as [Hrun Hsame].
  split.
  - apply Hsame. intros c. unfold given. cbn [existsb flag_char].
    destruct (97 =? c), (70 =? c); reflexivity.
  - rewrite Hrun. reflexivity.
Defined.

Lemma help_or_unknown_option_ends_main_witness :
  exists m',
    main c_system None "peek" [Opt_a; Opt_h; Opt_F] None 5
      (initial_machine cooked [])
    = Exited 0 m' /\
    stdout m' = MSG_HELP "peek" /\ tty m' = cooked /\ d_current_name m' = None.
Proof.
  destruct (help_or_unknown_option_ends_main c_system None "peek" [Opt_a]
              [Opt_F] None 5 (initial_machine cooked []) eq_refl eq_refl)
    as [Hhelp _].
  eexists. split; [exact Hhelp|]. repeat split.
Defined.

Lemma raw_mode_clears_echo_and_icanon_witness :
  0 <= c_lflag (raw_of cooked) < 2 ^ 32 /\
  Z.land (c_lflag (raw_of cooked)) (Z.lor ECHO ICANON) = 0.
Proof.
  destruct (raw_mode_clears_echo_and_icanon cooked) as (_ & _ & _ & _ & Hword).
  apply Hword. split; [vm_compute; discriminate | reflexivity].
Defined.

Lemma entering_selects_the_first_entry_witness :
  exists m',
    key_step c_system (scenario_session 0 "Banana" [74]) = Ret tt m' /\
    cur_name m' = "/tmp/Banana"%string /\
    selected m' = 0 /\ selected_name m' = "Banana"%string.
Proof.
  destruct (entering_selects_the_first_entry c_system
              (scenario_session 0 "Banana" [74]) [74]
              (report_12_34 ++ report_12_34) "Banana")
    as (m' & Hrun & Hdir & Hsel & _ & Hname).
  - left. split; [left|]; reflexivity.
  - reflexivity.
  - reflexivity.
  - vm_compute. reflexivity.
  - exists m'. split; [exact Hrun|].
    split; [unfold cur_name; rewrite Hdir; reflexivity|].
    split; [exact Hsel|].
    pose proof Hrun as Hm. vm_compute in Hm. injection Hm as <-.
    apply (Hname (entry "Banana" DT_DIR)
             [entry "apple" DT_REG; entry "cherry.txt" DT_REG]).
    + reflexivity.
    + vm_compute. reflexivity.
Defined.
